(** * LMTP scheduler: batching, streaming and the scheduler registry

    A shallow embedding of [src/lmql/models/lmtp/lmtp_scheduler.py].

    Python values are modelled by the inductive [pyval]; a [dict] is an
    insertion-ordered association list with unique keys; a [Queue] is a
    list of messages kept in a store indexed by queue identity, because
    several [GenerateCall] objects share the queue of their session;
    exceptions are values of [pyexn] threaded through a small
    state-and-error monad.  A finite log-probability is the rational
    number it denotes: scores are compared and copied, never computed
    with. *)

From Stdlib Require Import ZArith QArith List String Ascii DecimalString Permutation.
From Stdlib.Strings Require Import Byte.
From stdpp Require Import base decidable option list gmap strings.

Local Open Scope Z_scope.

(** ** Python values and exceptions *)

(** A [float] read from a decoded client message is kept as its [repr]:
    the scheduler formats and compares such values but never computes
    with them. *)
Inductive pyval : Type :=
| VNone
| VBool (b : bool)
| VInt (n : Z)
| VFloat (repr : string)
| VStr (s : string)
| VList (l : list Z).

#[global] Instance pyval_eq_dec : EqDecision pyval.
Proof. solve_decision. Defined.

Inductive pyexn_class : Type :=
| InterruptedError
| AssertionError
| TypeError
| ValueError
| IndexError
| KeyError
| AttributeError
| LMTPCannotLoadModelByPolicy
| OtherException (name : string).

#[global] Instance pyexn_class_eq_dec : EqDecision pyexn_class.
Proof. solve_decision. Defined.

(** An instance of a subclass of [Exception]; [exn_msg] is [str(e)]. *)
Record pyexn : Type := PyExn { exn_class : pyexn_class; exn_msg : string }.

Definition result (A : Type) : Type := pyexn + A.

Definition Ok {A} (a : A) : result A := inr a.
Definition Raise {A} (c : pyexn_class) (msg : string) : result A := inl (PyExn c msg).

Definition rbind {A B} (r : result A) (f : A -> result B) : result B :=
  match r with
  | inl e => inl e
  | inr a => f a
  end.

Notation "x <~ r ; k" := (rbind r (fun x => k))
  (at level 100, r at next level, right associativity, only parsing).

Fixpoint rmapM {A B} (f : A -> result B) (l : list A) : result (list B) :=
  match l with
  | [] => Ok []
  | a :: l' => b <~ f a; bs <~ rmapM f l'; Ok (b :: bs)
  end.

(** [bool(v)] *)
Definition truthy (v : pyval) : bool :=
  match v with
  | VNone => false
  | VBool b => b
  | VInt n => negb (n =? 0)
  | VFloat r => negb (String.eqb r "0.0" || String.eqb r "-0.0")
  | VStr s => negb (String.eqb s "")
  | VList l => negb (Nat.eqb (length l) 0)
  end.

Definition str_int (n : Z) : string := NilZero.string_of_int (Z.to_int n).

(** [str(v)], as used by ["{}".format(v)] *)
Definition py_str (v : pyval) : string :=
  match v with
  | VNone => "None"
  | VBool true => "True"
  | VBool false => "False"
  | VInt n => str_int n
  | VFloat r => r
  | VStr s => s
  | VList l => "[" +:+ String.concat ", " (map str_int l) +:+ "]"
  end.

(** The recognised numeric options ([max_tokens], [top_logprobs],
    [scoring_offset]) are ints; [bool] is a subclass of [int].  Any other
    value in such a position is reported as a [TypeError]: the model is
    exact on calls whose recognised options have their declared types. *)
Definition py_int (v : pyval) : result Z :=
  match v with
  | VInt n => Ok n
  | VBool b => Ok (Z.b2z b)
  | _ => Raise TypeError "an integer is required"
  end.

(** [max(xs)] over ints; [ValueError] on an empty sequence. *)
Definition py_max (xs : list Z) : result Z :=
  match xs with
  | [] => Raise ValueError "max() arg is an empty sequence"
  | x :: xs' => Ok (fold_left Z.max xs' x)
  end.

(** ** Insertion-ordered dictionaries *)

(** A [dict] with keys in [K] and values in [V] *)
Abbreviation dict K V := (list (K * V)).

Section Dict.
Context {K V : Type} `{EqDecision K}.

(** [d.get(k)] *)
Fixpoint dict_get (k : K) (d : list (K * V)) : option V :=
  match d with
  | [] => None
  | (k', v) :: d' => if decide (k' = k) then Some v else dict_get k d'
  end.

(** [d.get(k, dflt)] *)
Definition dict_get_default (k : K) (dflt : V) (d : list (K * V)) : V :=
  default dflt (dict_get k d).

(** [d.pop(k, None)], keeping the remaining dictionary *)
Fixpoint dict_pop (k : K) (d : list (K * V)) : list (K * V) :=
  match d with
  | [] => []
  | (k', v) :: d' => if decide (k' = k) then d' else (k', v) :: dict_pop k d'
  end.

(** [d[k] = v]: an existing key keeps its position *)
Fixpoint dict_set (k : K) (v : V) (d : list (K * V)) : list (K * V) :=
  match d with
  | [] => [(k, v)]
  | (k', v') :: d' =>
      if decide (k' = k) then (k, v) :: d' else (k', v') :: dict_set k v d'
  end.

(** [d.setdefault(k, v)], keeping the dictionary *)
Definition dict_setdefault (k : K) (v : V) (d : list (K * V)) : list (K * V) :=
  match dict_get k d with
  | Some _ => d
  | None => d ++ [(k, v)]
  end.

(** [{**d, **e}] *)
Definition dict_update (d e : list (K * V)) : list (K * V) :=
  fold_left (fun acc kv => dict_set kv.1 kv.2 acc) e d.

(** [dict(items)] / a dict comprehension over [items] *)
Definition dict_of_items (items : list (K * V)) : list (K * V) :=
  dict_update [] items.

End Dict.

(** ** Sequences: slicing and indexing *)

(** [len(l)] *)
Definition len {A} (l : list A) : Z := Z.of_nat (length l).

(** [[x] * n] *)
Definition repeat_z (x : Z) (n : Z) : list Z := replicate (Z.to_nat n) x.

(** [l[off:]], with Python's meaning of a negative start *)
Definition py_slice_from {A} (off : Z) (l : list A) : list A :=
  if 0 <=? off then drop (Z.to_nat off) l
  else drop (Z.to_nat (Z.of_nat (length l) + off)) l.

(** [l[i]] for a list: negative indices count from the end *)
Definition py_index {A} (l : list A) (i : Z) : result A :=
  let n := Z.of_nat (length l) in
  let j := if 0 <=? i then i else n + i in
  if (0 <=? j) && (j <? n) then
    match l !! Z.to_nat j with
    | Some a => Ok a
    | None => Raise IndexError "list index out of range"
    end
  else Raise IndexError "list index out of range".

(** [a[i]] for a NumPy array, along its dimension [axis]: the element is
    the one of [py_index], the [IndexError] has the text of NumPy.  The
    arrays that a backend passes to a streamer are taken to be NumPy
    arrays, which [log_token] otherwise converts them to. *)
Definition np_index {A} (axis : Z) (a : list A) (i : Z) : result A :=
  match py_index a i with
  | inr x => Ok x
  | inl _ =>
      Raise IndexError
            ("index " +:+ str_int i +:+ " is out of bounds for axis " +:+
             str_int axis +:+ " with size " +:+ str_int (len a))
  end.

(** [sorted(d.items())] for string keys: the keys are pairwise distinct,
    so the tuple order is the order of the keys. *)
Fixpoint insert_item (kv : string * pyval) (l : list (string * pyval)) :=
  match l with
  | [] => [kv]
  | kv' :: l' =>
      if String.leb kv.1 kv'.1 then kv :: l else kv' :: insert_item kv l'
  end.

Definition sorted_items (d : dict string pyval) : list (string * pyval) :=
  foldr insert_item [] d.

(** ** Output queues

    A payload is the [dict] that a call puts on its queue with the tag
    ["TOKEN"].  A token payload of the [ScoreStreamer] has no
    ["top_logprobs"] key. *)

Inductive payload : Type :=
| TokenPayload (token : Z) (stream_id : pyval) (logprob : Q)
    (finish_reason : option string) (top_logprobs : option (dict Z Q))
| ErrorPayload (stream_id : pyval) (error : string).

Definition message : Type := string * payload.

(** The queues of all sessions, by identity. *)
Abbreviation store := (gmap nat (list message)).

Definition payload_stream_id (p : payload) : pyval :=
  match p with
  | TokenPayload _ sid _ _ _ => sid
  | ErrorPayload sid _ => sid
  end.

(** Computations that change a state and may raise: effects made before
    an exception is raised persist. *)
Definition St (S A : Type) : Type := S -> S * result A.

Definition mret {S A} (a : A) : St S A := fun st => (st, Ok a).

Definition mbind {S A B} (m : St S A) (f : A -> St S B) : St S B :=
  fun st =>
    match m st with
    | (st', inl e) => (st', inl e)
    | (st', inr a) => f a st'
    end.

Definition lift {S A} (r : result A) : St S A := fun st => (st, r).

Definition mraise {S A} (c : pyexn_class) (msg : string) : St S A :=
  lift (Raise c msg).

(** Computations that write to the output queues. *)
Abbreviation M := (St store).

Notation "x <- m ;; k" := (mbind m (fun x => k))
  (at level 100, m at next level, right associativity, only parsing).
Notation "m ;;; k" := (mbind m (fun _ => k))
  (at level 100, right associativity, only parsing).

(** [q.put(msg)] on an unbounded [Queue] *)
Definition queue_put (q : nat) (msg : message) : M unit :=
  fun st => (<[q := st !!! q ++ [msg]]> st, Ok tt).

(** [for x in l: body(x)] *)
Fixpoint for_each {S A} (l : list A) (body : A -> St S unit) : St S unit :=
  match l with
  | [] => mret tt
  | a :: l' => body a ;;; for_each l' body
  end.

(** ** GenerateCall *)

Module GenerateCall.

Record t : Type := mk {
  prompt : list Z;
  logit_bias : option (dict Z pyval);
  kwargs : dict string pyval;
  stream_id : pyval;
  result_queue : nat;      (* identity of the session's output queue *)
  cancelled : bool
}.

Definition put (self : t) (token : payload) : M unit :=
  queue_put (result_queue self) ("TOKEN", token).

Definition cancel (self : t) : t :=
  mk (prompt self) (logit_bias self) (kwargs self) (stream_id self)
     (result_queue self) true.

Definition error (self : t) (msg : string) : M unit :=
  queue_put (result_queue self) ("TOKEN", ErrorPayload (stream_id self) msg).

(** [self.kwargs.get("score", False)], as a condition *)
Definition kw_score (self : t) : bool :=
  truthy (dict_get_default "score" (VBool false) (kwargs self)).

Definition generation_mode (self : t) : string :=
  if kw_score self then "score"
  else
    let key_args := kwargs self in
    let key_args := dict_pop "max_tokens" key_args in
    let key_args := dict_pop "top_logprobs" key_args in
    let key_args := dict_setdefault "temperature" (VFloat "0.0") key_args in
    "generate-" +:+
      String.concat "-"
        (map (fun kv => kv.1 +:+ "-" +:+ py_str kv.2) (sorted_items key_args)).

End GenerateCall.

(** ** GenerateBatch *)

Module GenerateBatch.

Record t : Type := mk {
  input_ids : list (list Z);
  attention_mask : list (list Z);
  temperature : pyval;
  max_tokens : Z;
  logit_biases : list (dict Z pyval);
  calls : list GenerateCall.t;
  is_score : bool;
  scoring_offsets : option (list Z);
  kwargs : dict string pyval
}.

Definition from_calls (calls : list GenerateCall.t) : result t :=
  let input_ids := map GenerateCall.prompt calls in
  max_len <~ py_max (map len input_ids);
  let attention_mask :=
    map (fun ids => repeat_z 0 (max_len - len ids) ++ repeat_z 1 (len ids))
        input_ids in
  let input_ids :=
    map (fun ids => repeat_z 0 (max_len - len ids) ++ ids) input_ids in
  c0 <~ py_index calls 0;
  let temperature :=
    dict_get_default "temperature" (VFloat "0.0") (GenerateCall.kwargs c0) in
  all_max_tokens <~
    rmapM (fun c => py_int (dict_get_default "max_tokens" (VInt 32)
                              (GenerateCall.kwargs c))) calls;
  max_tokens <~ py_max all_max_tokens;
  let logit_biases :=
    map (fun c => default [] (GenerateCall.logit_bias c)) calls in
  let is_score := existsb GenerateCall.kw_score calls in
  if is_score && negb (forallb GenerateCall.kw_score calls) then
    Raise AssertionError "cannot mix score and non-score calls in batch"
  else
    scoring_offsets <~
      (if is_score then
         offs <~ rmapM (fun c =>
                   off <~ py_int (dict_get_default "scoring_offset" (VInt 0)
                                    (GenerateCall.kwargs c));
                   let padding := max_len - len (GenerateCall.prompt c) in
                   Ok (off + padding)) calls;
         Ok (Some offs)
       else Ok None);
    (* other kwargs (e.g. top_k, repetition_penalty, etc.) *)
    let kwargs := GenerateCall.kwargs c0 in
    let kwargs := dict_pop "max_tokens" kwargs in
    let kwargs := dict_pop "top_logprobs" kwargs in
    let kwargs := dict_pop "temperature" kwargs in
    Ok (mk input_ids attention_mask temperature max_tokens logit_biases
           calls is_score scoring_offsets kwargs).

Definition cancelled (self : t) : bool :=
  negb (existsb (fun c => negb (GenerateCall.cancelled c)) (calls self)).

End GenerateBatch.

(** ** Streamers *)

(** Modelled from the spec: [nputil.topk(a, k, sorted=True, axis=-1)] lives
    in [lmql/utils/nputil.py], which is not among the sources.  Section 4.3
    asks for "a top-k selection (k = max_top) over each row's vocab
    distribution": for every row, the [k] largest scores in decreasing
    order, and the vocabulary indices they stand at. *)
Fixpoint insert_desc (x : Q * Z) (l : list (Q * Z)) : list (Q * Z) :=
  match l with
  | [] => [x]
  | y :: l' => if Qle_bool y.1 x.1 then x :: l else y :: insert_desc x l'
  end.

Definition topk_row (k : Z) (row : list Q) : list (Q * Z) :=
  take (Z.to_nat k)
       (foldr insert_desc [] (zip row (map Z.of_nat (seq 0 (length row))))).

Definition topk (a : list (list Q)) (k : Z) : list (list Q) * list (list Z) :=
  (map (fun row => map fst (topk_row k row)) a,
   map (fun row => map snd (topk_row k row)) a).

(** [l[:n]] *)
Definition py_slice_to {A} (n : Z) (l : list A) : list A :=
  if 0 <=? n then take (Z.to_nat n) l
  else take (Z.to_nat (Z.of_nat (length l) + n)) l.

Module ScoreStreamer.

Definition log_token (batch : GenerateBatch.t) (all_scores : list (list Q))
  : M unit :=
  let batch_size := length all_scores in
  for_each (seq 0 batch_size) (fun i =>
    offsets <- lift (match GenerateBatch.scoring_offsets batch with
                     | Some offs => Ok offs
                     | None => Raise TypeError
                                 "'NoneType' object is not subscriptable"
                     end);;
    offset <- lift (py_index offsets (Z.of_nat i));;
    row <- lift (np_index 0 all_scores (Z.of_nat i));;
    let scores := py_slice_from offset row in
    ids <- lift (py_index (GenerateBatch.input_ids batch) (Z.of_nat i));;
    let scored_ids := py_slice_from offset ids in
    call <- lift (py_index (GenerateBatch.calls batch) (Z.of_nat i));;
    for_each (imap pair (zip scores scored_ids)) (fun '(j, (score, token)) =>
      let token_payload :=
        TokenPayload token (GenerateCall.stream_id call) score
          (if decide (Z.of_nat j = len scores - 1)
           then Some "stop" else None)
          None in
      GenerateCall.put call token_payload)).

End ScoreStreamer.

Module TokenStreamer.

(** The [scheduler] field only feeds the rate meter
    ([Scheduler.measure_token]), which keeps floating-point statistics in
    fields of the scheduler, prints them, writes to no queue and raises
    nothing; it is left out. *)
Record t : Type := mk {
  batch : GenerateBatch.t;
  cancels : bool;
  eos_token_id : Z
}.

Definition kw_top_logprobs (c : GenerateCall.t) : result Z :=
  py_int (dict_get_default "top_logprobs" (VInt 1) (GenerateCall.kwargs c)).

(** [input_ids] is an array of token ids, one row per call; [scores] is a
    list of arrays of scores, one per step. *)
Definition log_token (self : t) (input_ids : list (list Z))
    (scores : list (list (list Q))) (last : bool) : M unit :=
  let batch_size := length input_ids in
  last_tokens <- lift (rmapM (fun row => np_index 1 row (-1)) input_ids);;
  last_scores <- lift (py_index scores (-1));;
  max_num_top_logprobs <-
    lift (tops <~ rmapM kw_top_logprobs (GenerateBatch.calls (batch self));
          py_max tops);;
  (* check for cancelled calls *)
  if GenerateBatch.cancelled (batch self) && cancels self then
    mraise InterruptedError "inference calls cancelled"
  else
    (* for each sample get top logprobs *)
    let '(all_logprobs, all_indices) := topk last_scores max_num_top_logprobs in
    for_each (seq 0 batch_size) (fun i =>
      logprobs <- lift (np_index 0 all_logprobs (Z.of_nat i));;
      tokens <- lift (np_index 0 all_indices (Z.of_nat i));;
      row_scores <- lift (np_index 0 last_scores (Z.of_nat i));;
      last_token <- lift (np_index 0 last_tokens (Z.of_nat i));;
      token_score <- lift (np_index 0 row_scores last_token);;
      let top_logprobs :=
        dict_update [(last_token, token_score)]
                    (dict_of_items (zip tokens logprobs)) in
      call <- lift (py_index (GenerateBatch.calls (batch self)) (Z.of_nat i));;
      num_top_logprobs <- lift (kw_top_logprobs call);;
      let logprobs := py_slice_to num_top_logprobs logprobs in
      let tokens := py_slice_to num_top_logprobs tokens in
      (* the sliced [logprobs] and [tokens] are not read again *)
      let token_payload :=
        TokenPayload last_token (GenerateCall.stream_id call) token_score
          (if decide (last_token = eos_token_id self) then Some "stop"
           else if last then Some "length" else None)
          (Some top_logprobs) in
      GenerateCall.put call token_payload).

(** [__call__] *)
Definition call (self : t) (input_ids : list (list Z))
    (scores : list (list (list Q))) : M bool :=
  log_token self input_ids scores false;;; mret false.

End TokenStreamer.

(** ** The model backend

    [LMTPModel] is an external collaborator.  What a run of [generate]
    does is described by the streamer invocations it makes, in order, and
    by how it ends; the conversion of [input_ids] and [attention_mask] to
    arrays just before the call can only raise, and is counted as part of
    the run.  An exception raised by the streamer leaves [generate]
    through the backend. *)

Inductive argval : Type :=
| ATensor (rows : list (list Z))
| ABias (biases : option (list (dict Z pyval)))
| AVal (v : pyval).

Record generate_result : Type := mkResult {
  sequences : list (list Z);
  scores : list (list (list Q))
}.

Record backend_run : Type := mkRun {
  steps : list (list (list Z) * list (list (list Q)));
  outcome : result generate_result
}.

Record LMTPModel : Type := mkModel {
  max_batch_size : Z;
  eos_token_id : Z;
  cancellable : bool;
  model_info : string;
  score : argval -> argval -> result (list (list Q));
  generate : dict string argval -> backend_run
}.

(** [GenerateBatch.generate_args] *)
Definition generate_args (self : GenerateBatch.t) : dict string argval :=
  dict_update
    [("input_ids", ATensor (GenerateBatch.input_ids self));
     ("attention_mask", ATensor (GenerateBatch.attention_mask self));
     ("temperature", AVal (GenerateBatch.temperature self));
     ("max_new_tokens", AVal (VInt (GenerateBatch.max_tokens self)));
     ("bias_tensor",
       ABias (if 0 <? len (GenerateBatch.logit_biases self)
              then Some (GenerateBatch.logit_biases self) else None))]
    (map (fun kv => (kv.1, AVal kv.2)) (GenerateBatch.kwargs self)).

(** [repr(k)] of a string without quotes or backslashes *)
Definition repr_str (k : string) : string := "'" +:+ k +:+ "'".

(** [d[k]]; [str] of a [KeyError] is the [repr] of the key. *)
Definition dict_item {V} (k : string) (d : dict string V) : result V :=
  match dict_get k d with
  | Some v => Ok v
  | None => Raise KeyError (repr_str k)
  end.

(** [await model.generate] with the keyword arguments [kwargs] and the
    streamer *)
Definition run_generate (model : LMTPModel) (kwargs : dict string argval)
    (streamer : TokenStreamer.t) : M generate_result :=
  let run := generate model kwargs in
  for_each (steps run) (fun step =>
    TokenStreamer.call streamer step.1 step.2;;; mret tt);;;
  lift (outcome run).

(** ** Scheduler *)

Module Scheduler.

Inductive thread : Type := Thread (name : string).

(** [worker_thread] is [None] when the attribute was never set
    ([sync = True]).  The rate-meter fields are left out, see
    [TokenStreamer.t]. *)
Record t : Type := mk {
  model_identifier : string;
  model_args : dict string pyval;
  queue : list GenerateCall.t;
  kill_event : bool;
  sync : bool;
  worker_thread : option thread;
  users : gset nat;
  last_use : Z;
  _model_info : string;
  active_batch_size : Z
}.

(** [__init__]; [now] is the reading of [time.time()] *)
Definition init (now : Z) (model_identifier : string)
    (model_args : option (dict string pyval)) (sync : bool) : t :=
  mk model_identifier
     (match model_args with None => [] | Some args => args end)
     [] false sync
     (if negb sync then Some (Thread "scheduler-worker") else None)
     ∅ now "<unavailable>" 0.

Definition set_queue (self : t) (q : list GenerateCall.t) : t :=
  mk (model_identifier self) (model_args self) q (kill_event self)
     (sync self) (worker_thread self) (users self) (last_use self)
     (_model_info self) (active_batch_size self).

Definition put (self : t) (call : GenerateCall.t) : t :=
  set_queue self (queue self ++ [call]).

(** [batches_by_mode.setdefault(mode, []).append(c)] *)
Definition setdefault_append (mode : string) (c : GenerateCall.t)
    (d : dict string (list GenerateCall.t)) : dict string (list GenerateCall.t) :=
  let d := dict_setdefault mode [] d in
  dict_set mode (dict_get_default mode [] d ++ [c]) d.

(** [range(0, n, step)] for [n >= 0]; a zero step is a [ValueError] *)
Definition py_range0 (n step : Z) : result (list Z) :=
  if step =? 0 then Raise ValueError "range() arg 3 must not be zero"
  else if step <? 0 then Ok []
  else Ok (map (fun k => Z.of_nat k * step)
               (seq 0 (Z.to_nat ((n + step - 1) / step)))).

(** [l[i:j]] for [0 <= i <= j] *)
Definition py_slice {A} (i j : Z) (l : list A) : list A :=
  take (Z.to_nat (j - i)) (drop (Z.to_nat i) l).

Definition split_group (max_batch_size : Z) (batches : list GenerateCall.t)
  : result (list (list GenerateCall.t)) :=
  if len batches >? max_batch_size then
    starts <~ py_range0 (len batches) max_batch_size;
    Ok (map (fun i => py_slice i (i + max_batch_size) batches) starts)
  else Ok [batches].

(** [batches]: the calls obtained from the queue within the 0.1 s window
    are its first [taken] entries, where [taken] is decided by the clock
    and by what the queue holds. *)
Definition batches (self : t) (taken : nat) (max_batch_size : Z)
  : t * result (list (list GenerateCall.t)) :=
  let calls := take taken (queue self) in
  let self := set_queue self (drop taken (queue self)) in
  (* group calls into batches *)
  let batches_by_mode :=
    fold_left (fun d c => setdefault_append (GenerateCall.generation_mode c) c d)
              calls [] in
  (* split batches that are too large *)
  (self,
   groups <~ rmapM (fun kv => split_group max_batch_size kv.2) batches_by_mode;
   Ok (concat groups)).

(** The body of the [try] in [process_batch] *)
Definition run_batch (model : LMTPModel) (batch : list GenerateCall.t)
  : M unit :=
  b <- lift (GenerateBatch.from_calls batch);;
  if GenerateBatch.is_score b then
    let kwargs := generate_args b in
    input_ids <- lift (dict_item "input_ids" kwargs);;
    attention_mask <- lift (dict_item "attention_mask" kwargs);;
    scores <- lift (score model input_ids attention_mask);;
    ScoreStreamer.log_token b scores
  else
    let streamer := TokenStreamer.mk b (cancellable model) (eos_token_id model) in
    let kwargs := generate_args b in
    result <- run_generate model kwargs streamer;;
    TokenStreamer.log_token streamer (sequences result) (scores result) true.

(** One iteration of the loop of [process_batch]: the [try] with its
    two handlers *)
Definition process_one (model : LMTPModel) (batch : list GenerateCall.t)
  : M unit :=
  fun st =>
    match run_batch model batch st with
    | (st', inr tt) => (st', Ok tt)
    | (st', inl e) =>
        if decide (exn_class e = InterruptedError) then
          for_each batch (fun c => GenerateCall.error c "lmtp.cancelled") st'
        else
          for_each batch (fun c =>
            GenerateCall.error c
              ("failed to generate tokens '" +:+ exn_msg e +:+ "'")) st'
    end.

Definition process_batch (self : t) (model : LMTPModel) (taken : nat)
    (st : store) : t * (store * result unit) :=
  let '(self, bs) := batches self taken (max_batch_size model) in
  (self, (bs <- lift bs;; for_each bs (process_one model)) st).

(** *** The registry [Scheduler._instances] *)

Abbreviation registry := (dict (string * string) t).

Definition unregister (now : Z) (self : t) (user : nat) : t :=
  if decide (user ∈ users self) then
    mk (model_identifier self) (model_args self) (queue self)
       (kill_event self) (sync self) (worker_thread self)
       (users self ∖ {[user]}) now
       (_model_info self) (active_batch_size self)
  else self.

Section Registry.

(** [pickle.dumps(model_args).hex()]: the encoding belongs to Python's
    library and is taken as a parameter here; [Pickle] below gives it
    on a fragment. *)
Variable pickle_dumps_hex : option (dict string pyval) -> string.

(** [str] of the [KeyError] for a missing identifier: the [repr] of the
    pair *)
Definition repr_identifier (identifier : string * string) : string :=
  "(" +:+ repr_str identifier.1 +:+ ", " +:+ repr_str identifier.2 +:+ ")".

(** [Scheduler._instances.pop(identifier)] *)
Definition registry_pop (identifier : string * string) : St registry t :=
  fun reg =>
    match dict_get identifier reg with
    | Some s => (dict_pop identifier reg, Ok s)
    | None => (reg, Raise KeyError (repr_identifier identifier))
    end.

(** [Scheduler._instances[identifier]] *)
Definition registry_get (identifier : string * string) : St registry t :=
  fun reg =>
    match dict_get identifier reg with
    | Some s => (reg, Ok s)
    | None => (reg, Raise KeyError (repr_identifier identifier))
    end.

Definition set_kill_event (self : t) : t :=
  mk (model_identifier self) (model_args self) (queue self) true
     (sync self) (worker_thread self) (users self) (last_use self)
     (_model_info self) (active_batch_size self).

(** [self.kill_event.set()] for the scheduler that the registry holds under
    [filed]: the event of this object is set, whether the registry still
    holds it or not. *)
Definition kill (filed : string * string) : St registry unit :=
  fun reg =>
    match dict_get filed reg with
    | Some s => (dict_set filed (set_kill_event s) reg, Ok tt)
    | None => (reg, Ok tt)
    end.

(** [dealloc] of the scheduler [self] that the registry holds under
    [filed].  The entry that is popped is the one under the identifier
    computed from the fields of [self], which need not be [filed]. *)
Definition dealloc (filed : string * string) (self : t) : St registry unit :=
  let identifier :=
    (model_identifier self, pickle_dumps_hex (Some (model_args self))) in
  registry_pop identifier;;;
  kill filed;;;
  match worker_thread self with
  | Some _ => mret tt       (* join() *)
  | None =>
      mraise AttributeError
             "'Scheduler' object has no attribute 'worker_thread'"
  end.

Definition gc (n : Z) : St registry unit :=
  fun reg =>
    let total := len reg in
    let not_needed :=
      map fst (filter (fun kv => size (users kv.2) = 0%nat) reg) in
    if total >=? n then
      for_each not_needed (fun k => s <- registry_get k;; dealloc k s) reg
    else (reg, Ok tt).

Definition touch (now : Z) (user : option nat) (self : t) : t :=
  mk (model_identifier self) (model_args self) (queue self)
     (kill_event self) (sync self) (worker_thread self)
     (match user with
      | Some u => users self ∪ {[u]}
      | None => users self
      end)
     now (_model_info self) (active_batch_size self).

Definition instance (now : Z) (model_identifier : string)
    (model_args : option (dict string pyval)) (user : option nat)
    (only_existing sync : bool) : St registry t :=
  let identifier := (model_identifier, pickle_dumps_hex model_args) in
  (fun reg =>
     match dict_get identifier reg with
     | Some _ => (reg, Ok tt)
     | None =>
         if only_existing then
           (reg, Raise LMTPCannotLoadModelByPolicy
                   ("Model '" +:+ model_identifier +:+
                    "' is not loaded and server is not configured to load it on demand."))
         else
           (dict_set identifier (init now model_identifier model_args sync) reg,
            Ok tt)
     end);;;
  s <- registry_get identifier;;
  let s := touch now user s in
  (fun reg => (dict_set identifier s reg, Ok tt));;;
  total <- (fun reg => (reg, Ok (len reg)));;
  gc 2;;;     (* unload any unused models *)
  (* [s] is the object filed under [identifier]: when [gc] went through
     the unused schedulers and [s] is one of them, its kill event is set *)
  mret (if (total >=? 2) && bool_decide (size (users s) = 0%nat)
        then set_kill_event s else s).

End Registry.

End Scheduler.

(** ** The registry key: [pickle.dumps(model_args).hex()]

    CPython's [pickle] at protocol 4, the default of Python 3.8 to 3.13, on
    the fragment where its output does not depend on object identity or on
    floating point: [None], or a [dict] of at most 1000 items whose keys are
    strings shorter than 256 bytes and whose values are [None], [bool] or
    [int] of 32 bits, pickled into a single frame.  [dumps] is [None]
    outside of the fragment. *)

Module Pickle.

Definition byte_of_Z (z : Z) : byte :=
  default x00 (Byte.of_N (Z.to_N (z mod 256))).

(** [n] bytes of [z], little-endian, two's complement *)
Fixpoint le_bytes (n : nat) (z : Z) : list byte :=
  match n with
  | O => []
  | S n' => byte_of_Z z :: le_bytes n' (z / 256)
  end.

Definition save_int (z : Z) : option (list byte) :=
  if (0 <=? z) && (z <? 256) then Some (x4b :: le_bytes 1 z)           (* BININT1 *)
  else if (0 <=? z) && (z <? 65536) then Some (x4d :: le_bytes 2 z)    (* BININT2 *)
  else if (-2147483648 <=? z) && (z <? 2147483648)
       then Some (x4a :: le_bytes 4 z)                                 (* BININT *)
  else None.

Definition save_value (v : pyval) : option (list byte) :=
  match v with
  | VNone => Some [x4e]              (* NONE *)
  | VBool true => Some [x88]         (* NEWTRUE *)
  | VBool false => Some [x89]        (* NEWFALSE *)
  | VInt z => save_int z
  | _ => None
  end.

(** SHORT_BINUNICODE, then MEMOIZE *)
Definition save_str (s : string) : option (list byte) :=
  let bs := list_byte_of_string s in
  if (length bs <? 256)%nat
  then Some (x8c :: byte_of_Z (Z.of_nat (length bs)) :: bs ++ [x94])
  else None.

Definition save_item (kv : string * pyval) : option (list byte) :=
  k ← save_str kv.1; v ← save_value kv.2; Some (k ++ v).

Definition save_items (d : dict string pyval) : option (list byte) :=
  (fun chunks => concat chunks) <$> mapM save_item d.

(** EMPTY_DICT, MEMOIZE, then the items: one item is followed by SETITEM,
    several are put between MARK and SETITEMS *)
Definition save_dict (d : dict string pyval) : option (list byte) :=
  if 1000 <? len d then None
  else
    body ← save_items d;
    Some ([x7d; x94] ++
          match d with
          | [] => []
          | [_] => body ++ [x73]
          | _ => [x28] ++ body ++ [x75]
          end).

(** FRAME and its length, for a payload of four bytes or more *)
Definition frame (payload : list byte) : list byte :=
  if (4 <=? length payload)%nat
  then x95 :: le_bytes 8 (Z.of_nat (length payload)) ++ payload
  else payload.

Definition dumps (obj : option (dict string pyval)) : option (list byte) :=
  match obj with
  | None => Some [x80; x04; x4e; x2e]
  | Some d =>
      p ← save_dict d;
      let payload := p ++ [x2e] in                    (* STOP *)
      if len payload <? 65536
      then Some ([x80; x04] ++ frame payload)         (* PROTO 4 *)
      else None
  end.

(** [bytes.hex()] *)
Definition hex_digit (n : N) : ascii :=
  nth (N.to_nat n)
      (list_ascii_of_string "0123456789abcdef") "0"%char.

Definition hex_byte (b : byte) : string :=
  let n := Byte.to_N b in
  String (hex_digit (n / 16)) (String (hex_digit (n mod 16)) EmptyString).

Fixpoint hex (bs : list byte) : string :=
  match bs with
  | [] => EmptyString
  | b :: bs' => hex_byte b +:+ hex bs'
  end.

(** The registry key of [Scheduler.instance] and [Scheduler.dealloc] *)
Definition dumps_hex (model_args : option (dict string pyval)) : option string :=
  hex <$> dumps model_args.

(** Equality of two dictionaries in Python: the same keys with the same
    values, whatever the insertion order *)
Definition same_items (d1 d2 : dict string pyval) : Prop :=
  forall k, dict_get k d1 = dict_get k d2.

End Pickle.

(** ** TokenSession *)

Module TokenSession.

(** [handle_id] is the identity of the session object, which is what the
    [users] of a scheduler hold; [output_stream] is the identity of its
    queue.  [active_stream] is a [WeakValueDictionary]: an entry may
    disappear once the scheduler has dropped the call, which no definition
    below depends on. *)
Record t : Type := mk {
  handle_id : nat;
  output_stream : nat;
  used_models : gset string;
  model_args : option (dict string pyval);
  static : bool;
  longrunning : bool;
  active_stream : dict pyval GenerateCall.t
}.

Definition add_used_model (model : string) (self : t) : t :=
  mk (handle_id self) (output_stream self) (used_models self ∪ {[model]})
     (model_args self) (static self) (longrunning self) (active_stream self).

Definition set_active_stream (stream_id : pyval) (call : GenerateCall.t)
    (self : t) : t :=
  mk (handle_id self) (output_stream self) (used_models self)
     (model_args self) (static self) (longrunning self)
     (dict_set stream_id call (active_stream self)).

(** [hash(v)] succeeds: a list cannot be a key of [active_stream]. *)
Definition hashable (v : pyval) : bool :=
  match v with
  | VList _ => false
  | _ => true
  end.

(** [kwargs.pop(k)]; [str] of a [KeyError] is the [repr] of the key. *)
Definition pop_item (k : string) (kwargs : dict string pyval)
  : result (pyval * dict string pyval) :=
  match dict_get k kwargs with
  | Some v => Ok (v, dict_pop k kwargs)
  | None => Raise KeyError (repr_str k)
  end.

(** [prompt + scored] on lists of token ids; other operands are reported
    as a [TypeError] *)
Definition py_add (a b : pyval) : result (list Z) :=
  match a, b with
  | VList la, VList lb => Ok (la ++ lb)
  | _, _ => Raise TypeError "unsupported operand type(s) for +"
  end.

(** [len(prompt)] *)
Definition py_len (a : pyval) : result Z :=
  match a with
  | VList l => Ok (len l)
  | VStr s => Ok (Z.of_nat (String.length s))
  | _ => Raise TypeError "object has no len()"
  end.

(** The call that the [SCORE] branch of [handle] builds from the
    arguments left in [kwargs] once ["model"] is popped *)
Definition score_call (self : t) (kwargs : dict string pyval)
  : result GenerateCall.t :=
  p <~ pop_item "prompt" kwargs;
  let '(prompt, kwargs) := p in
  p <~ pop_item "scored" kwargs;
  let '(scored, kwargs) := p in
  p <~ pop_item "stream_id" kwargs;
  let '(stream_id, kwargs) := p in
  let kwargs := dict_set "score" (VBool true) kwargs in
  (* full sequence to score *)
  full_ids <~ py_add prompt scored;
  (* determines the offset from which on the scoring starts in full_ids *)
  offset <~ py_len prompt;
  let kwargs := dict_set "scoring_offset" (VInt offset) kwargs in
  Ok (GenerateCall.mk full_ids (Some []) kwargs stream_id
                      (output_stream self) false).

Section Handle.

Variable pickle_dumps_hex : option (dict string pyval) -> string.

Definition on_session (f : t -> t) : St (t * Scheduler.registry) unit :=
  fun '(self, reg) => ((f self, reg), Ok tt).

Definition on_registry {A} (m : St Scheduler.registry A)
  : St (t * Scheduler.registry) A :=
  fun '(self, reg) => let '(reg, r) := m reg in ((self, reg), r).

Definition get_session : St (t * Scheduler.registry) t :=
  fun '(self, reg) => ((self, reg), Ok self).

(** [self.active_stream[stream_id] = call] *)
Definition store_active_stream (stream_id : pyval) (call : GenerateCall.t)
  : St (t * Scheduler.registry) unit :=
  if hashable stream_id then on_session (set_active_stream stream_id call)
  else mraise TypeError "unhashable type: 'list'".

(** [scheduler.put(call)] for the scheduler that [instance] returned: it is
    the object that the registry holds under [identifier] *)
Definition scheduler_put (identifier : string * string) (call : GenerateCall.t)
  : St Scheduler.registry unit :=
  fun reg =>
    match dict_get identifier reg with
    | Some s => (dict_set identifier (Scheduler.put s call) reg, Ok tt)
    | None => (reg, Ok tt)
    end.

(** The [SCORE] branch of [handle], inside the [try]; [kwargs] is what is
    left of the arguments once ["model"] is popped.  The state is the
    session and the registry. *)
Definition handle_SCORE (now : Z) (model : string)
    (kwargs : dict string pyval) : St (t * Scheduler.registry) unit :=
  lift (p <~ pop_item "prompt" kwargs;
        p <~ pop_item "scored" p.2;
        pop_item "stream_id" p.2);;;
  on_session (add_used_model model);;;
  self <- get_session;;
  call <- lift (score_call self kwargs);;
  on_registry (Scheduler.instance pickle_dumps_hex now model (model_args self)
                 (Some (handle_id self)) (static self) false);;;
  store_active_stream (GenerateCall.stream_id call) call;;;
  on_registry (scheduler_put (model, pickle_dumps_hex (model_args self)) call).

End Handle.

(** *** The commands of a session

    A command is handled in a state made of the session, the registry
    of schedulers and the queues.  The arguments of a command arrive as one
    [dict]; the entry ["model"], a string, and the entry ["logit_bias"], a
    mapping, are passed apart from the others here, [None] standing for a
    missing entry. *)

(** The token ids of a prompt.  A [GenerateCall] keeps whatever prompt it
    is given; a prompt that is not a list of token ids is reported as a
    [TypeError] here, the model is exact on prompts that are. *)
Definition py_ids (v : pyval) : result (list Z) :=
  match v with
  | VList l => Ok l
  | _ => Raise TypeError "a list of token ids is required"
  end.

Section Commands.

Variable pickle_dumps_hex : option (dict string pyval) -> string.

Definition on_core {A} (m : St (t * Scheduler.registry) A)
  : St (t * Scheduler.registry * store) A :=
  fun '(core, st) => let '(core', r) := m core in ((core', st), r).

(** [self.output_stream.put(msg)] *)
Definition output_put (msg : message) : St (t * Scheduler.registry * store) unit :=
  fun '((self, reg), st) =>
    let '(st', r) := queue_put (output_stream self) msg st in
    (((self, reg), st'), r).

(** The [GENERATE] branch of [handle], inside the [try] *)
Definition handle_GENERATE (now : Z) (model : string)
    (logit_bias : option (option (dict Z pyval))) (kwargs : dict string pyval)
  : St (t * Scheduler.registry) unit :=
  p <- lift (pop_item "prompt" kwargs);;
  let '(prompt, kwargs) := p in
  p <- lift (pop_item "stream_id" kwargs);;
  let '(stream_id, kwargs) := p in
  let logit_bias := default (Some []) logit_bias in
  on_session (add_used_model model);;;
  self <- get_session;;
  on_registry (Scheduler.instance pickle_dumps_hex now model (model_args self)
                 (Some (handle_id self)) (static self) false);;;
  prompt <- lift (py_ids prompt);;
  let call :=
    GenerateCall.mk prompt logit_bias kwargs stream_id (output_stream self) false in
  store_active_stream stream_id call;;;
  on_registry (scheduler_put (model, pickle_dumps_hex (model_args self)) call).

(** The branch of [handle] that [cmd] selects.  The branches [MODEL_INFO]
    and [CANCEL] answer with messages that are neither token nor error
    payloads; they are not covered ([None]). *)
Definition branch (now : Z) (cmd : string) (model : string)
    (logit_bias : option (option (dict Z pyval))) (kwargs : dict string pyval)
  : option (St (t * Scheduler.registry * store) unit) :=
  if String.eqb cmd "GENERATE" then
    Some (on_core (handle_GENERATE now model logit_bias kwargs))
  else if String.eqb cmd "SCORE" then
    Some (on_core (handle_SCORE pickle_dumps_hex now model kwargs))
  else if String.eqb cmd "MODEL_INFO" then None
  else if String.eqb cmd "CANCEL" then None
  else Some (mraise (OtherException "Exception") ("Unknown command: " +:+ cmd)).

(** The [try] statement of [handle] with its two handlers *)
Definition handle_try (stream_id : pyval)
    (body : St (t * Scheduler.registry * store) unit)
  : St (t * Scheduler.registry * store) unit :=
  fun w =>
    match body w with
    | (w', inr tt) => (w', Ok tt)
    | (w', inl e) =>
        if decide (exn_class e = LMTPCannotLoadModelByPolicy) then
          output_put
            ("MSG",
             ErrorPayload stream_id
               "The requested model is not loaded and the server is not configured to load it on demand.")
            w'
        else
          output_put ("MSG", ErrorPayload stream_id (exn_msg e)) w'
    end.

(** [handle]: ["model"] is popped before the [try]. *)
Definition handle (now : Z) (cmd : string) (model : option string)
    (logit_bias : option (option (dict Z pyval))) (kwargs : dict string pyval)
  : option (St (t * Scheduler.registry * store) unit) :=
  let stream_id := dict_get_default "stream_id" VNone kwargs in
  match model with
  | None => Some (mraise KeyError (repr_str "model"))
  | Some model =>
      body ← branch now cmd model logit_bias kwargs;
      Some (handle_try stream_id body)
  end.

(** [scheduler.unregister(self)] for the scheduler that [instance] returned:
    when the registry still holds it, it holds it under [identifier]. *)
Definition scheduler_unregister (now : Z) (identifier : string * string)
    (user : nat) : St Scheduler.registry unit :=
  fun reg =>
    match dict_get identifier reg with
    | Some s => (dict_set identifier (Scheduler.unregister now s user) reg, Ok tt)
    | None => (reg, Ok tt)
    end.

(** One iteration of the loop over [used_models] in [close]: the [try]
    with its handler.  [now] and [now'] are the two readings of the
    clock. *)
Definition close_model (now now' : Z) (m : string)
  : St (t * Scheduler.registry) unit :=
  fun '(self, reg) =>
    let body : St Scheduler.registry unit :=
      Scheduler.instance pickle_dumps_hex now m (model_args self) None
                         (static self) false;;;
      scheduler_unregister now' (m, pickle_dumps_hex (model_args self))
                           (handle_id self);;;
      (if longrunning self then Scheduler.gc pickle_dumps_hex 2
       else Scheduler.gc pickle_dumps_hex 0) in
    match body reg with
    | (reg', inr tt) => ((self, reg'), Ok tt)
    | (reg', inl e) =>
        if decide (exn_class e = LMTPCannotLoadModelByPolicy)
        then ((self, reg'), Ok tt)
        else ((self, reg'), inl e)
    end.

End Commands.

End TokenSession.

(** ** Vocabulary of the statements *)

(** The calls of a compatibility group *)
Definition same_mode (calls : list GenerateCall.t) : Prop :=
  forall c1 c2, c1 ∈ calls -> c2 ∈ calls ->
    GenerateCall.generation_mode c1 = GenerateCall.generation_mode c2.

Definition same_modeb (calls : list GenerateCall.t) : bool :=
  match calls with
  | [] => true
  | c :: cs =>
      forallb (fun c' => String.eqb (GenerateCall.generation_mode c')
                                    (GenerateCall.generation_mode c)) cs
  end.

(** The recognised integer options of a call have their declared type. *)
Definition int_option (k : string) (c : GenerateCall.t) : bool :=
  match dict_get k (GenerateCall.kwargs c) with
  | None | Some (VInt _) | Some (VBool _) => true
  | Some _ => false
  end.

Definition typed_call (c : GenerateCall.t) : bool :=
  int_option "max_tokens" c && int_option "scoring_offset" c.

(** The rows that [from_calls] builds for one prompt *)
Definition pad_row (max_len : Z) (ids : list Z) : list Z :=
  repeat_z 0 (max_len - len ids) ++ ids.

Definition mask_row (max_len : Z) (ids : list Z) : list Z :=
  repeat_z 0 (max_len - len ids)
  ++ repeat_z 1 (len ids).

Definition kw_scoring_offset (c : GenerateCall.t) : result Z :=
  py_int (dict_get_default "scoring_offset" (VInt 0) (GenerateCall.kwargs c)).

(** What a list of payloads, each produced for a row of the batch, adds to
    the queue [q] when every payload goes to the queue of its row's call *)
Definition delivered (calls : list GenerateCall.t) (q : nat)
    (emitted : list (nat * payload)) : list message :=
  flat_map (fun ip =>
              match calls !! ip.1 with
              | Some c => if decide (GenerateCall.result_queue c = q)
                          then [("TOKEN", ip.2)] else []
              | None => []
              end) emitted.

(** [m] ends with [r] after it has emitted [emitted], whatever the queues
    hold when it starts *)
Definition emits {A} (calls : list GenerateCall.t) (m : M A)
    (emitted : list (nat * payload)) (r : result A) : Prop :=
  forall st, exists st',
    m st = (st', r) /\
    forall q, st' !!! q = st !!! q ++ delivered calls q emitted.

(** The payloads of the rows [start], [start + 1], ..., in the order of
    emission, each with the row it was produced for *)
Definition row_events (start : nat) (rows : list (list payload))
  : list (nat * payload) :=
  concat (imap (fun i ps => map (pair (start + i)%nat) ps) rows).

(** A payload that was produced for the row [i] carries the stream id of
    the call of that row. *)
Definition row_payload_ok (calls : list GenerateCall.t) (i : nat) (p : payload)
  : Prop :=
  exists c, calls !! i = Some c /\ payload_stream_id p = GenerateCall.stream_id c.

(** The payloads of one row of a score batch: one per pair of a score and
    a scored token, ["stop"] on the last score *)
Definition score_payloads (call : GenerateCall.t) (scores : list Q)
    (scored_ids : list Z) : list payload :=
  imap (fun j st =>
          TokenPayload st.2 (GenerateCall.stream_id call) st.1
            (if decide (Z.of_nat j = len scores - 1)
             then Some "stop" else None)
            None)
       (zip scores scored_ids).

(** The error message that [process_batch] sends for the exception [e] *)
Definition failure_reason (e : pyexn) : string :=
  if decide (exn_class e = InterruptedError) then "lmtp.cancelled"
  else "failed to generate tokens '" +:+ exn_msg e +:+ "'".

(** The error payloads for the calls of [batch] whose queue is [q] *)
Definition error_messages (batch : list GenerateCall.t) (reason : string)
    (q : nat) : list message :=
  map (fun c => ("TOKEN", ErrorPayload (GenerateCall.stream_id c) reason))
      (filter (fun c => GenerateCall.result_queue c = q) batch).

(** The payloads of row [k] of a score batch *)
Definition score_row (b : GenerateBatch.t) (all_scores : list (list Q))
    (offs : list Z) (k : nat) : list payload :=
  match GenerateBatch.calls b !! k, offs !! k, all_scores !! k,
        GenerateBatch.input_ids b !! k with
  | Some c, Some off, Some row, Some ids =>
      score_payloads c (py_slice_from off row) (py_slice_from off ids)
  | _, _, _, _ => []
  end.

(** [all_scores] has the shape of [input_ids] *)
Definition same_shape (input_ids : list (list Z)) (all_scores : list (list Q))
  : Prop :=
  Forall2 (fun ids row => length row = length ids) input_ids all_scores.

(** The identifier under which [dealloc] looks for a scheduler *)
Definition identifier_of (pickle_dumps_hex : option (dict string pyval) -> string)
    (s : Scheduler.t) : string * string :=
  (Scheduler.model_identifier s,
   pickle_dumps_hex (Some (Scheduler.model_args s))).

(** Every scheduler of the registry is stored once, under its own
    identifier. *)
Definition registry_wf (pickle_dumps_hex : option (dict string pyval) -> string)
    (reg : Scheduler.registry) : Prop :=
  NoDup (map fst reg) /\
  Forall (fun kv => identifier_of pickle_dumps_hex kv.2 = kv.1) reg.

Definition unused (kv : (string * string) * Scheduler.t) : Prop :=
  size (Scheduler.users kv.2) = 0%nat.

(** ** Concrete inputs *)

(** The registry key on the fragment of [Pickle] *)
Definition pickle_key (model_args : option (dict string pyval)) : string :=
  default "" (Pickle.dumps_hex model_args).

(** A call that was cancelled before the scheduler looks at its queue *)
Definition cancelled_call : GenerateCall.t :=
  GenerateCall.mk [10; 11; 12] None [("max_tokens", VInt 3)] (VInt 1) 0 true.

Definition idle_scheduler : Scheduler.t :=
  Scheduler.init 5 "m" (Some []) false.

(** Two calls of one compatibility group: the first asks for one top
    log-probability (the default), the second for three. *)
Definition call_top1 : GenerateCall.t :=
  GenerateCall.mk [1; 2] None [] (VInt 1) 0 false.

Definition call_top3 : GenerateCall.t :=
  GenerateCall.mk [3; 4] None [("top_logprobs", VInt 3)] (VInt 2) 1 false.

Definition mixed_batch : GenerateBatch.t :=
  match GenerateBatch.from_calls [call_top1; call_top3] with
  | inr b => b
  | inl _ => GenerateBatch.mk [] [] VNone 0 [] [] false None []
  end.

Definition mixed_streamer : TokenStreamer.t := TokenStreamer.mk mixed_batch true 9.

(** One step over a vocabulary of four tokens: both rows emit token 0, the
    most likely one. *)
Definition mixed_input_ids : list (list Z) := [[1; 2; 0]; [3; 4; 0]].

Definition mixed_scores : list (list (list Q)) :=
  [[[-1 # 1; -2 # 1; -3 # 1; -4 # 1]; [-1 # 1; -2 # 1; -3 # 1; -4 # 1]]].

(** Two schedulers in [sync] mode that no session uses any more: the
    sessions 1 and 2 obtained one scheduler each, then unregistered. *)
Definition sync_registry : Scheduler.registry :=
  let reg := [] in
  let reg := (Scheduler.instance pickle_key 1 "m1" (Some []) (Some 1%nat)
                                 false true reg).1 in
  let reg := (Scheduler.instance pickle_key 2 "m2" (Some []) (Some 2%nat)
                                 false true reg).1 in
  map (fun kv =>
         (kv.1, Scheduler.unregister 3 kv.2
                  (if decide (kv.1.1 = "m1") then 1%nat else 2%nat))) reg.

(** The same model arguments, written in two orders *)
Definition args_ab : dict string pyval := [("a", VInt 1); ("b", VInt 2)].
Definition args_ba : dict string pyval := [("b", VInt 2); ("a", VInt 1)].

(** Two calls with the same sampling options and prompts of two and three
    tokens *)
Definition two_calls : list GenerateCall.t :=
  [GenerateCall.mk [1; 2] None [("max_tokens", VInt 3)] (VInt 1) 0 false;
   GenerateCall.mk [1; 2; 3] None [("max_tokens", VInt 5)] (VInt 1) 1 false].

(** A session and the arguments of a [SCORE] command, ["model"] popped *)
Definition score_session : TokenSession.t :=
  TokenSession.mk 1 0 ∅ (Some []) false false [].

Definition score_kwargs : dict string pyval :=
  [("stream_id", VInt 7); ("prompt", VList [1; 2]); ("scored", VList [3; 4; 5])].

(** A backend whose [generate] and [score] raise *)
Definition boom : pyexn := PyExn (OtherException "RuntimeError") "out of memory".

Definition failing_model : LMTPModel :=
  mkModel 8 0 true "failing"
          (fun _ _ => inl boom)
          (fun _ => mkRun [] (inl boom)).

(** ** Further vocabulary and inputs *)

(** The call [c] with the keyword arguments [kwargs] *)
Definition with_kwargs (c : GenerateCall.t) (kwargs : dict string pyval)
  : GenerateCall.t :=
  GenerateCall.mk (GenerateCall.prompt c) (GenerateCall.logit_bias c) kwargs
    (GenerateCall.stream_id c) (GenerateCall.result_queue c)
    (GenerateCall.cancelled c).

(** Items in the order of [sorted]: every key is below the keys after it. *)
Fixpoint sorted_by_key (l : list (string * pyval)) : Prop :=
  match l with
  | [] => True
  | kv :: l' =>
      Forall (fun kv' => String.leb kv.1 kv'.1 = true) l' /\ sorted_by_key l'
  end.

(** Two calls with the same sampling options, given in two orders *)
Definition call_topk_first : GenerateCall.t :=
  GenerateCall.mk [1; 2] None [("top_k", VInt 5); ("temperature", VFloat "0.7")]
                  (VInt 1) 0 false.

Definition call_temperature_first : GenerateCall.t :=
  GenerateCall.mk [3] None [("temperature", VFloat "0.7"); ("top_k", VInt 5)]
                  (VInt 2) 0 false.

(** A generate call and a score call *)
Definition score_call_3 : GenerateCall.t :=
  GenerateCall.mk [1; 2; 3] (Some [])
                  [("score", VBool true); ("scoring_offset", VInt 2)] (VInt 3) 0 false.

Definition mixed_mode_calls : list GenerateCall.t := [call_top1; score_call_3].

(** The batch of [two_calls] *)
Definition two_calls_batch : GenerateBatch.t :=
  GenerateBatch.mk [[0; 1; 2]; [1; 2; 3]] [[0; 1; 1]; [1; 1; 1]] (VFloat "0.0") 5
                   [[]; []] two_calls false None [].

(** A call whose options name an argument that [generate_args] sets *)
Definition override_call : GenerateCall.t :=
  GenerateCall.mk [1] None
                  [("max_tokens", VInt 4); ("max_new_tokens", VInt 100)]
                  (VInt 1) 0 false.

Definition override_batch : GenerateBatch.t :=
  GenerateBatch.mk [[1]] [[1]] (VFloat "0.0") 4 [[]] [override_call] false None
                   [("max_new_tokens", VInt 100)].

(** The calls of [calls] with the compatibility key [mode], in their order *)
Definition group_of (mode : string) (calls : list GenerateCall.t)
  : list GenerateCall.t :=
  filter (fun c => GenerateCall.generation_mode c = mode) calls.

(** [d] is [batches_by_mode] once the calls [seen] have been filed. *)
Definition grouped (d : dict string (list GenerateCall.t))
    (seen : list GenerateCall.t) : Prop :=
  NoDup (map fst d) /\
  forall mode,
    dict_get mode d = match group_of mode seen with [] => None | g => Some g end.

(** A scheduler with three waiting calls of two compatibility groups *)
Definition busy_scheduler : Scheduler.t :=
  Scheduler.put (Scheduler.put (Scheduler.put idle_scheduler call_top1) score_call_3)
                call_top3.

(** The payload that [TokenStreamer.log_token] builds for row [k]: the
    token is the last one of the row of [input_ids], the log-probability is
    its score in the row of the last scores, and [top_logprobs] has an
    entry for the token with this score. *)
Definition step_payload (self : TokenStreamer.t) (input_ids : list (list Z))
    (last_scores : list (list Q)) (is_last : bool) (k : nat) (p : payload)
  : Prop :=
  exists (ids : list Z) (tok : Z) (row : list Q) (sc : Q) (c : GenerateCall.t)
         (tl : dict Z Q),
    input_ids !! k = Some ids /\ last ids = Some tok /\
    last_scores !! k = Some row /\ py_index row tok = Ok sc /\
    GenerateBatch.calls (TokenStreamer.batch self) !! k = Some c /\
    p = TokenPayload tok (GenerateCall.stream_id c) sc
          (if decide (tok = TokenStreamer.eos_token_id self) then Some "stop"
           else if is_last then Some "length" else None)
          (Some tl) /\
    dict_get tok tl = Some sc.

(** The queues after the step of [mixed_streamer] *)
Definition mixed_store : store :=
  {[ 0%nat := [("TOKEN",
                TokenPayload 0 (VInt 1) (-1 # 1) None
                  (Some [(0, -1 # 1); (1, -2 # 1); (2, -3 # 1)]))];
     1%nat := [("TOKEN",
                TokenPayload 0 (VInt 2) (-1 # 1) None
                  (Some [(0, -1 # 1); (1, -2 # 1); (2, -3 # 1)]))] ]}.

(** A batch of one cancelled call, and a cancellable backend that calls
    the streamer once before it returns *)
Definition cancelled_batch : GenerateBatch.t :=
  GenerateBatch.mk [[10; 11; 12]] [[1; 1; 1]] (VFloat "0.0") 3 [[]]
                   [cancelled_call] false None [].

Definition stepping_model : LMTPModel :=
  mkModel 8 0 true "stepping"
          (fun _ _ => Ok [])
          (fun _ => mkRun [([[10; 11; 12; 1]], [[[-2 # 1; -1 # 1]]])]
                          (Ok (mkResult [[10; 11; 12; 1]] [[[-2 # 1; -1 # 1]]]))).

(** A registry with one scheduler that the session 1 uses and one that no
    session uses any more, both with a worker thread *)
Definition threaded_registry : Scheduler.registry :=
  let reg := [] in
  let reg := (Scheduler.instance pickle_key 1 "m1" (Some []) (Some 1%nat)
                                 false false reg).1 in
  let reg := (Scheduler.instance pickle_key 2 "m2" (Some []) (Some 2%nat)
                                 false false reg).1 in
  map (fun kv =>
         (kv.1, if decide (kv.1.1 = "m2") then Scheduler.unregister 3 kv.2 2%nat
                else kv.2)) reg.

(** The arguments of a [GENERATE] command, ["model"] and ["logit_bias"]
    apart, and a session that may not load models *)
Definition generate_kwargs : dict string pyval :=
  [("stream_id", VInt 7); ("prompt", VList [1; 2]); ("max_tokens", VInt 4)].

Definition static_session : TokenSession.t :=
  TokenSession.mk 1 0 ∅ (Some []) true false [].

(** The call [c] with its [cancelled] flag cleared, and the batch [b] with
    other call objects *)
Definition uncancel (c : GenerateCall.t) : GenerateCall.t :=
  GenerateCall.mk (GenerateCall.prompt c) (GenerateCall.logit_bias c)
    (GenerateCall.kwargs c) (GenerateCall.stream_id c)
    (GenerateCall.result_queue c) false.

Definition with_calls (b : GenerateBatch.t) (calls : list GenerateCall.t)
  : GenerateBatch.t :=
  GenerateBatch.mk (GenerateBatch.input_ids b) (GenerateBatch.attention_mask b)
    (GenerateBatch.temperature b) (GenerateBatch.max_tokens b)
    (GenerateBatch.logit_biases b) calls (GenerateBatch.is_score b)
    (GenerateBatch.scoring_offsets b) (GenerateBatch.kwargs b).

(** Two calls that differ in their [cancelled] flag at most *)
Definition same_request (c c' : GenerateCall.t) : Prop :=
  GenerateCall.prompt c = GenerateCall.prompt c' /\
  GenerateCall.logit_bias c = GenerateCall.logit_bias c' /\
  GenerateCall.kwargs c = GenerateCall.kwargs c' /\
  GenerateCall.stream_id c = GenerateCall.stream_id c' /\
  GenerateCall.result_queue c = GenerateCall.result_queue c'.

(** A backend that is not cancellable and returns one token for each row *)
Definition plain_model : LMTPModel :=
  mkModel 8 0 false "plain"
          (fun _ _ => Ok [])
          (fun _ => mkRun [] (Ok (mkResult [[10; 11; 12; 1]] [[[-2 # 1; -1 # 1]]]))).

(** Every scheduler of the registry is stored under its own identifier
    and runs a worker thread. *)
Definition threaded_wf (pickle_dumps_hex : option (dict string pyval) -> string)
    (reg : Scheduler.registry) : Prop :=
  registry_wf pickle_dumps_hex reg /\
  Forall (fun kv => Scheduler.worker_thread kv.2 <> None) reg.

(** What [gc(n)] leaves of such a registry *)
Definition collected (n : Z) (reg : Scheduler.registry) : Scheduler.registry :=
  if len reg >=? n then filter (fun kv => ~ unused kv) reg else reg.

(** A session that uses the first scheduler of [threaded_registry] *)
Definition closing_session : TokenSession.t :=
  TokenSession.mk 1 0 {[ "m1" ]} (Some []) false false [].

(** The payloads that [ScoreStreamer.log_token] builds in the iteration
    for row [k]: with the offset, the scores, the token ids and the call
    of that very row, one payload for each score behind the offset. *)
Definition score_row_payloads (b : GenerateBatch.t) (all_scores : list (list Q))
    (k : nat) (ps : list payload) : Prop :=
  exists (offs : list Z) (off : Z) (row : list Q) (ids : list Z)
         (c : GenerateCall.t),
    GenerateBatch.scoring_offsets b = Some offs /\ offs !! k = Some off /\
    all_scores !! k = Some row /\
    GenerateBatch.input_ids b !! k = Some ids /\
    GenerateBatch.calls b !! k = Some c /\
    ps = score_payloads c (py_slice_from off row) (py_slice_from off ids).

(** The streamer invocations that [model.generate] makes for the batch [b] *)
Definition streamer_steps (model : LMTPModel) (b : GenerateBatch.t) : M unit :=
  for_each (steps (generate model (generate_args b)))
    (fun step =>
       TokenStreamer.call
         (TokenStreamer.mk b (cancellable model) (eos_token_id model))
         step.1 step.2;;; mret tt).

(** [model.score] or [model.generate] raises [e] when [process_batch] calls
    it for the batch [b] with the queues [st]; [st'] is what the queues
    hold at that moment.  [score] is given the entries ["input_ids"] and
    ["attention_mask"] of the arguments and writes to no queue.
    [generate] raises either at its end, after its streamer invocations,
    or because one of these invocations raises, which is how the
    cancellation signal of the streamer reaches [process_batch]. *)
Definition backend_raises (model : LMTPModel) (b : GenerateBatch.t)
    (st st' : store) (e : pyexn) : Prop :=
  if GenerateBatch.is_score b then
    st' = st /\
    exists input_ids attention_mask,
      dict_get "input_ids" (generate_args b) = Some input_ids /\
      dict_get "attention_mask" (generate_args b) = Some attention_mask /\
      score model input_ids attention_mask = inl e
  else
    (streamer_steps model b st = (st', Ok tt) /\
     outcome (generate model (generate_args b)) = inl e) \/
    streamer_steps model b st = (st', inl e).

(** The registry with every kill event set: what is left of a registry
    when the kill events are disregarded *)
Definition killed (reg : Scheduler.registry) : Scheduler.registry :=
  map (fun kv => (kv.1, Scheduler.set_kill_event kv.2)) reg.

(** Two schedulers of one model that no session uses any more.  The first
    was obtained without model arguments: it is filed under the key of
    [None], and its own identifier is the one of the empty arguments,
    under which the second is filed. *)
Definition misfiled_registry : Scheduler.registry :=
  let reg := [] in
  let reg := (Scheduler.instance pickle_key 1 "m" None (Some 1%nat)
                                 false false reg).1 in
  let reg := (Scheduler.instance pickle_key 2 "m" (Some []) (Some 2%nat)
                                 false false reg).1 in
  map (fun kv =>
         (kv.1, Scheduler.unregister 3 kv.2
                  (if decide (kv.1.2 = pickle_key None) then 1%nat else 2%nat)))
      reg.

(** * Properties *)

(** ** Auxiliary facts on the Python primitives *)

Lemma fold_left_max_spec (xs : list Z) (x : Z) :
  let m := fold_left Z.max xs x in
  (m = x \/ m ∈ xs) /\ x <= m /\ (forall y, y ∈ xs -> y <= m).
Proof.
  revert x. induction xs as [|a xs IH]; intros x; simpl.
  - split; [by left|]. split; [lia|]. intros y Hy. by apply elem_of_nil in Hy.
  - destruct (IH (Z.max x a)) as (Hin & Hle & Hall).
    split; [|split].
    + destruct Hin as [Heq|Hin].
      * rewrite Heq. destruct (Z.max_spec x a) as [[_ ->]|[_ ->]].
        -- right. apply elem_of_cons. by left.
        -- by left.
      * right. apply elem_of_cons. by right.
    + lia.
    + intros y Hy. apply elem_of_cons in Hy as [->|Hy]; [lia|by apply Hall].
Qed.

Lemma py_max_spec (xs : list Z) (m : Z) :
  py_max xs = Ok m -> m ∈ xs /\ (forall y, y ∈ xs -> y <= m).
Proof.
  destruct xs as [|x xs]; simpl; [discriminate|].
  intros [= <-]. destruct (fold_left_max_spec xs x) as (Hin & Hle & Hall).
  split.
  - apply elem_of_cons. destruct Hin; auto.
  - intros y Hy. apply elem_of_cons in Hy as [->|Hy]; auto.
Qed.

Lemma py_max_ok (xs : list Z) : xs <> [] -> exists m, py_max xs = Ok m.
Proof. destruct xs; [done|]. intros _. simpl. eauto. Qed.

Lemma rmapM_ok {A B} (f : A -> result B) (g : A -> B) (l : list A) :
  (forall a, a ∈ l -> f a = Ok (g a)) -> rmapM f l = Ok (map g l).
Proof.
  induction l as [|a l IH]; intros Hf; simpl; [done|].
  rewrite (Hf a) by (apply elem_of_cons; auto). simpl.
  rewrite IH; [done|]. intros b Hb. apply Hf, elem_of_cons. auto.
Qed.

Lemma rmapM_length {A B} (f : A -> result B) (l : list A) (bs : list B) :
  rmapM f l = Ok bs -> length bs = length l.
Proof.
  revert bs. induction l as [|a l IH]; intros bs; simpl.
  - by intros [= <-].
  - destruct (f a) as [e|b]; simpl; [discriminate|].
    destruct (rmapM f l) as [e|bs']; simpl; [discriminate|].
    intros [= <-]. simpl. f_equal. by apply IH.
Qed.

Lemma py_index_nat {A} (l : list A) (i : nat) (a : A) :
  l !! i = Some a -> py_index l (Z.of_nat i) = Ok a.
Proof.
  intros H. unfold py_index.
  pose proof (lookup_lt_Some _ _ _ H) as Hlt.
  assert ((0 <=? Z.of_nat i) = true) as Hle by (apply Z.leb_le; lia).
  assert ((Z.of_nat i <? Z.of_nat (length l)) = true) as Hlt' by (apply Z.ltb_lt; lia).
  cbv zeta. rewrite !Hle, Hlt'. simpl. by rewrite Nat2Z.id, H.
Qed.

Lemma np_index_ok {A} (axis : Z) (l : list A) (i : Z) (a : A) :
  np_index axis l i = Ok a <-> py_index l i = Ok a.
Proof. unfold np_index. by destruct (py_index l i). Qed.

Lemma np_index_nat {A} (axis : Z) (l : list A) (i : nat) (a : A) :
  l !! i = Some a -> np_index axis l (Z.of_nat i) = Ok a.
Proof. intros H. by apply np_index_ok, py_index_nat. Qed.

Lemma np_index_error {A} (axis : Z) (l : list A) (i : Z) (e : pyexn) :
  np_index axis l i = inl e -> exn_class e = IndexError.
Proof.
  unfold np_index. destruct (py_index l i); [|discriminate].
  by intros [= <-].
Qed.

Lemma rmapM_ok_ext {A B} (f g : A -> result B) (l : list A) (bs : list B) :
  (forall a b, f a = Ok b <-> g a = Ok b) ->
  rmapM f l = Ok bs <-> rmapM g l = Ok bs.
Proof.
  intros Hfg. revert bs. induction l as [|a l IH]; intros bs; simpl; [done|].
  destruct (f a) as [e|b] eqn:Ef.
  - destruct (g a) as [e'|b'] eqn:Eg; simpl; [done|].
    apply Hfg in Eg. rewrite Ef in Eg. discriminate.
  - apply Hfg in Ef. rewrite Ef. simpl.
    destruct (rmapM f l) as [e|bs1] eqn:E1, (rmapM g l) as [e'|bs2] eqn:E2;
      simpl; try done.
    + assert (inl e = Ok bs2) by (by apply IH). done.
    + assert (inl e' = Ok bs1) by (by apply IH). done.
    + assert (@inr pyexn _ bs1 = Ok bs2) as [= ->] by (by apply IH). done.
Qed.

(** ** Compatibility keys *)

Lemma generation_mode_score (c : GenerateCall.t) :
  GenerateCall.generation_mode c = "score" <-> GenerateCall.kw_score c = true.
Proof.
  unfold GenerateCall.generation_mode.
  destruct (GenerateCall.kw_score c); split; try done.
Qed.

Lemma same_mode_uniform (calls : list GenerateCall.t) :
  same_mode calls ->
  existsb GenerateCall.kw_score calls = true ->
  forallb GenerateCall.kw_score calls = true.
Proof.
  intros Hsame Hany. apply existsb_exists in Hany as (c & Hc & Hscore).
  apply forallb_forall. intros c' Hc'.
  apply generation_mode_score.
  rewrite <- (Hsame c c') by (by apply list_elem_of_In).
  by apply generation_mode_score.
Qed.

Lemma same_modeb_sound (calls : list GenerateCall.t) :
  same_modeb calls = true -> same_mode calls.
Proof.
  destruct calls as [|c cs]; simpl; intros H c1 c2 H1 H2.
  - by apply elem_of_nil in H1.
  - assert (forall c', c' ∈ c :: cs ->
              GenerateCall.generation_mode c' = GenerateCall.generation_mode c)
      as Hc.
    { intros c' Hc'. apply elem_of_cons in Hc' as [->|Hc']; [done|].
      rewrite forallb_forall in H. apply String.eqb_eq, H.
      by apply list_elem_of_In. }
    by rewrite (Hc c1), (Hc c2).
Qed.

Lemma rmapM_error {A B} (f : A -> result B) (l : list A) (e : pyexn) :
  rmapM f l = inl e -> exists a, a ∈ l /\ f a = inl e.
Proof.
  induction l as [|a l IH]; simpl; [discriminate|].
  destruct (f a) as [e'|b] eqn:Hfa; simpl.
  - intros [= ->]. exists a. split; [apply elem_of_cons; auto|done].
  - destruct (rmapM f l) as [e'|bs]; simpl; [|discriminate].
    intros [= ->]. destruct IH as (a' & Ha' & Hfa'); [done|].
    exists a'. split; [apply elem_of_cons; auto|done].
Qed.

Lemma py_int_error (v : pyval) (e : pyexn) :
  py_int v = inl e -> exn_class e = TypeError.
Proof. destruct v; simpl; try discriminate; by intros [= <-]. Qed.

Lemma py_max_error (xs : list Z) (e : pyexn) :
  py_max xs = inl e -> exn_class e = ValueError.
Proof. destruct xs; simpl; [by intros [= <-]|discriminate]. Qed.

Lemma py_index_error {A} (l : list A) (i : Z) (e : pyexn) :
  py_index l i = inl e -> exn_class e = IndexError.
Proof.
  unfold py_index. cbv zeta.
  repeat case_match; try discriminate; by intros [= <-].
Qed.

Lemma from_calls_assertion (calls : list GenerateCall.t) (e : pyexn) :
  GenerateBatch.from_calls calls = inl e ->
  exn_class e = AssertionError ->
  existsb GenerateCall.kw_score calls = true /\
  forallb GenerateCall.kw_score calls = false.
Proof.
  unfold GenerateBatch.from_calls. intros H Hclass.
  destruct (py_max _) as [e1|max_len] eqn:E1; simpl in H.
  { injection H as ->. apply py_max_error in E1. congruence. }
  destruct (py_index calls 0) as [e2|c0] eqn:E2; simpl in H.
  { injection H as ->. apply py_index_error in E2. congruence. }
  destruct (rmapM _ calls) as [e3|mts] eqn:E3 in H; simpl in H.
  { injection H as ->. apply rmapM_error in E3 as (a & _ & E3).
    apply py_int_error in E3. congruence. }
  destruct (py_max mts) as [e4|mt] eqn:E4; simpl in H.
  { injection H as ->. apply py_max_error in E4. congruence. }
  destruct (existsb GenerateCall.kw_score calls) eqn:Hany; simpl in H.
  - destruct (forallb GenerateCall.kw_score calls) eqn:Hall; simpl in H; [|done].
    destruct (rmapM _ calls) as [e5|offs] eqn:E5 in H; simpl in H; [|discriminate].
    injection H as ->. apply rmapM_error in E5 as (a & _ & E5).
    destruct (py_int _) as [e6|off] eqn:E6 in E5; simpl in E5; [|discriminate].
    injection E5 as ->. apply py_int_error in E6. congruence.
  - discriminate.
Qed.

(** C6: for calls that share one [generation_mode], the assertion
    "cannot mix score and non-score calls in batch" of
    [GenerateBatch.from_calls] cannot fail: if one call of the list has a
    truthy [score] option then all have, since [generation_mode] is
    ["score"] exactly for those calls and starts with ["generate-"]
    otherwise. *)
Theorem from_calls_never_mixes (calls : list GenerateCall.t) :
  calls <> [] ->
  same_mode calls ->
  (forall c, if GenerateCall.kw_score c
             then GenerateCall.generation_mode c = "score"
             else exists key, GenerateCall.generation_mode c = "generate-" +:+ key) /\
  (existsb GenerateCall.kw_score calls = true ->
   forallb GenerateCall.kw_score calls = true) /\
  (forall e, GenerateBatch.from_calls calls = inl e ->
             exn_class e <> AssertionError).
Proof.
  intros _ Hsame. split; [|split].
  - intros c. unfold GenerateCall.generation_mode.
    destruct (GenerateCall.kw_score c); eauto.
  - by apply same_mode_uniform.
  - intros e He Hclass.
    destruct (from_calls_assertion calls e He Hclass) as [Hany Hall].
    rewrite (same_mode_uniform calls Hsame Hany) in Hall. discriminate.
Qed.

Lemma from_calls_never_mixes_witness :
  two_calls <> [] /\ same_mode two_calls /\
  (forall c, if GenerateCall.kw_score c
             then GenerateCall.generation_mode c = "score"
             else exists key, GenerateCall.generation_mode c = "generate-" +:+ key) /\
  (existsb GenerateCall.kw_score two_calls = true ->
   forallb GenerateCall.kw_score two_calls = true) /\
  (forall e, GenerateBatch.from_calls two_calls = inl e ->
             exn_class e <> AssertionError).
Proof.
  assert (two_calls <> []) as H1 by discriminate.
  assert (same_mode two_calls) as H2 by (apply same_modeb_sound; reflexivity).
  split; [exact H1|]. split; [exact H2|].
  exact (from_calls_never_mixes two_calls H1 H2).
Defined.



(** ** Batch construction *)

Lemma from_calls_inv (calls : list GenerateCall.t) (b : GenerateBatch.t) :
  GenerateBatch.from_calls calls = Ok b ->
  exists max_len,
    py_max (map len (map GenerateCall.prompt calls)) = Ok max_len /\
    GenerateBatch.input_ids b = map (pad_row max_len) (map GenerateCall.prompt calls) /\
    GenerateBatch.attention_mask b = map (mask_row max_len) (map GenerateCall.prompt calls) /\
    GenerateBatch.calls b = calls /\
    GenerateBatch.is_score b = existsb GenerateCall.kw_score calls /\
    (GenerateBatch.is_score b = true ->
     exists offs,
       GenerateBatch.scoring_offsets b = Some offs /\
       rmapM (fun c => off <~ kw_scoring_offset c;
                       Ok (off + (max_len - len (GenerateCall.prompt c))))
             calls = Ok offs).
Proof.
  unfold GenerateBatch.from_calls. intros H.
  destruct (py_max _) as [e1|max_len] eqn:E1; simpl in H; [discriminate|].
  exists max_len. split; [done|].
  destruct (py_index calls 0) as [e2|c0] eqn:E2; simpl in H; [discriminate|].
  destruct (rmapM _ calls) as [e3|mts] eqn:E3 in H; simpl in H; [discriminate|].
  destruct (py_max mts) as [e4|mt] eqn:E4; simpl in H; [discriminate|].
  destruct (existsb GenerateCall.kw_score calls) eqn:Hany; simpl in H.
  - destruct (forallb GenerateCall.kw_score calls) eqn:Hall; simpl in H; [|done].
    destruct (rmapM _ calls) as [e5|offs] eqn:E5 in H; simpl in H; [discriminate|].
    injection H as <-. simpl. repeat split; try done.
    intros _. exists offs. split; [done|]. exact E5.
  - injection H as <-. simpl. repeat split; try done.
Qed.

Lemma int_option_ok (k : string) (dflt : Z) (c : GenerateCall.t) :
  int_option k c = true ->
  exists n, py_int (dict_get_default k (VInt dflt) (GenerateCall.kwargs c)) = Ok n.
Proof.
  unfold int_option, dict_get_default.
  destruct (dict_get k (GenerateCall.kwargs c)) as [[]|]; simpl;
    try discriminate; eauto.
Qed.

Lemma rmapM_ok_ex {A B} (f : A -> result B) (l : list A) :
  (forall a, a ∈ l -> exists b, f a = Ok b) -> exists bs, rmapM f l = Ok bs.
Proof.
  induction l as [|a l IH]; intros Hf; simpl; [eauto|].
  destruct (Hf a) as [b ->]; [apply elem_of_cons; auto|]. simpl.
  destruct IH as [bs ->]; [|simpl; eauto].
  intros a' Ha'. apply Hf, elem_of_cons. auto.
Qed.

Lemma typed_call_inv (c : GenerateCall.t) :
  typed_call c = true ->
  int_option "max_tokens" c = true /\ int_option "scoring_offset" c = true.
Proof. unfold typed_call. intros H. by apply andb_prop in H. Qed.

Lemma from_calls_succeeds (calls : list GenerateCall.t) :
  calls <> [] ->
  same_mode calls ->
  forallb typed_call calls = true ->
  exists b, GenerateBatch.from_calls calls = Ok b.
Proof.
  intros Hne Hsame Htyped. rewrite forallb_forall in Htyped.
  unfold GenerateBatch.from_calls.
  destruct (py_max_ok (map len (map GenerateCall.prompt calls)))
    as [max_len ->]; [by destruct calls|]. simpl.
  assert (exists c0, py_index calls 0 = Ok c0) as [c0 ->].
  { destruct calls as [|c0 calls']; [done|]. by exists c0. }
  simpl rbind.
  destruct (rmapM_ok_ex
              (fun c => py_int (dict_get_default "max_tokens" (VInt 32)
                                  (GenerateCall.kwargs c))) calls) as [mts Hmts].
  { intros c Hc. apply int_option_ok.
    by apply typed_call_inv, Htyped, list_elem_of_In. }
  rewrite Hmts. simpl rbind.
  destruct (py_max_ok mts) as [mt ->].
  { apply rmapM_length in Hmts. destruct mts; [|done].
    destruct calls; [done|discriminate]. }
  simpl rbind.
  destruct (existsb GenerateCall.kw_score calls) eqn:Hany.
  - rewrite (same_mode_uniform calls Hsame Hany). simpl andb. cbv iota.
    destruct (rmapM_ok_ex
                (fun c => off <~ py_int (dict_get_default "scoring_offset" (VInt 0)
                                           (GenerateCall.kwargs c));
                          Ok (off + (max_len - len (GenerateCall.prompt c))))
                calls) as [offs Hoffs].
    { intros c Hc.
      destruct (int_option_ok "scoring_offset" 0 c) as [n ->]; [|simpl; eauto].
      by apply typed_call_inv, Htyped, list_elem_of_In. }
    rewrite Hoffs. simpl. eauto.
  - simpl. eauto.
Qed.

Section Rows.
Variables (Lmax : nat) (ids : list Z).
Hypothesis Hfit : (length ids <= Lmax)%nat.

Let pad : nat := (Lmax - length ids)%nat.

Lemma repeat_z_pad (x : Z) :
  repeat_z x (Z.of_nat Lmax - len ids) = replicate pad x.
Proof using Hfit.
  unfold repeat_z, len, pad. f_equal. lia.
Qed.

Lemma repeat_z_len (x : Z) :
  repeat_z x (len ids) = replicate (length ids) x.
Proof.
  unfold repeat_z, len. f_equal. lia.
Qed.

Lemma pad_row_length : length (pad_row (Z.of_nat Lmax) ids) = Lmax.
Proof using Hfit.
  unfold pad_row. rewrite repeat_z_pad, length_app, length_replicate.
  unfold pad. lia.
Qed.

Lemma mask_row_length : length (mask_row (Z.of_nat Lmax) ids) = Lmax.
Proof using Hfit.
  unfold mask_row.
  rewrite repeat_z_pad, repeat_z_len, length_app, !length_replicate.
  unfold pad. lia.
Qed.

Lemma pad_row_padding (j : nat) :
  (j < pad)%nat -> pad_row (Z.of_nat Lmax) ids !! j = Some 0.
Proof using Hfit.
  intros Hj. unfold pad_row. rewrite repeat_z_pad.
  rewrite lookup_app_l by (rewrite length_replicate; lia).
  by apply lookup_replicate_2.
Qed.

Lemma mask_row_padding (j : nat) :
  (j < pad)%nat -> mask_row (Z.of_nat Lmax) ids !! j = Some 0.
Proof using Hfit.
  intros Hj. unfold mask_row. rewrite repeat_z_pad.
  rewrite lookup_app_l by (rewrite length_replicate; lia).
  by apply lookup_replicate_2.
Qed.

Lemma pad_row_tokens (j : nat) :
  pad_row (Z.of_nat Lmax) ids !! (pad + j)%nat = ids !! j.
Proof using Hfit.
  unfold pad_row. rewrite repeat_z_pad.
  rewrite lookup_app_r by (rewrite length_replicate; lia).
  rewrite length_replicate. f_equal. lia.
Qed.

Lemma mask_row_tokens (j : nat) :
  (j < length ids)%nat -> mask_row (Z.of_nat Lmax) ids !! (pad + j)%nat = Some 1.
Proof using Hfit.
  intros Hj. unfold mask_row. rewrite repeat_z_pad, repeat_z_len.
  rewrite lookup_app_r by (rewrite length_replicate; lia).
  rewrite length_replicate. apply lookup_replicate_2. lia.
Qed.

Lemma sum_replicate (n : nat) (x : Z) :
  foldr Z.add 0 (replicate n x) = Z.of_nat n * x.
Proof. induction n as [|n IH]; simpl; [done|]. rewrite IH. lia. Qed.

Lemma mask_row_sum :
  foldr Z.add 0 (mask_row (Z.of_nat Lmax) ids) = Z.of_nat (length ids).
Proof using Hfit.
  unfold mask_row. rewrite repeat_z_pad, repeat_z_len, foldr_app.
  rewrite (sum_replicate (length ids) 1).
  assert (forall n a, foldr Z.add a (replicate n 0) = a) as H0.
  { induction n as [|n IH]; intros a; simpl; [done|]. by rewrite IH. }
  rewrite H0. lia.
Qed.

End Rows.

(** C1: for a non-empty list of calls that share one [generation_mode],
    [GenerateBatch.from_calls] builds one row of [input_ids] and one row of
    [attention_mask] per call, all of the length [Lmax] of the longest
    prompt; a row starts with [Lmax - len(prompt)] zeros and ends with the
    prompt; the mask is 0 over that padding and 1 over the prompt, so that
    it sums to [len(prompt)]. *)
Theorem from_calls_left_padded (calls : list GenerateCall.t) :
  calls <> [] ->
  same_mode calls ->
  forallb typed_call calls = true ->
  exists (b : GenerateBatch.t) (Lmax : nat),
    GenerateBatch.from_calls calls = Ok b /\
    GenerateBatch.calls b = calls /\
    (forall c, c ∈ calls -> (length (GenerateCall.prompt c) <= Lmax)%nat) /\
    (exists c, c ∈ calls /\ length (GenerateCall.prompt c) = Lmax) /\
    length (GenerateBatch.input_ids b) = length calls /\
    length (GenerateBatch.attention_mask b) = length calls /\
    forall (i : nat) (c : GenerateCall.t),
      calls !! i = Some c ->
      let n := length (GenerateCall.prompt c) in
      exists row mask : list Z,
        GenerateBatch.input_ids b !! i = Some row /\
        GenerateBatch.attention_mask b !! i = Some mask /\
        length row = Lmax /\ length mask = Lmax /\
        (forall j, (j < Lmax - n)%nat -> row !! j = Some 0 /\ mask !! j = Some 0) /\
        (forall j, (j < n)%nat ->
           row !! (Lmax - n + j)%nat = GenerateCall.prompt c !! j /\
           mask !! (Lmax - n + j)%nat = Some 1) /\
        foldr Z.add 0 mask = Z.of_nat n.
Proof.
  intros Hne Hsame Htyped.
  destruct (from_calls_succeeds calls Hne Hsame Htyped) as [b Hb].
  destruct (from_calls_inv calls b Hb) as (max_len & Hmax & Hids & Hmask & Hcalls & _).
  apply py_max_spec in Hmax as [Hin Hle].
  assert (exists c, c ∈ calls /\ max_len = Z.of_nat (length (GenerateCall.prompt c)))
    as (cmax & Hcmax & Hlen).
  { apply list_elem_of_fmap in Hin as (ids & -> & Hin).
    apply list_elem_of_fmap in Hin as (c & -> & Hin). by exists c. }
  set (Lmax := length (GenerateCall.prompt cmax)). fold Lmax in Hlen. subst max_len.
  assert (forall c, c ∈ calls -> (length (GenerateCall.prompt c) <= Lmax)%nat) as Hfit.
  { intros c Hc.
    assert (len (GenerateCall.prompt c) <= Z.of_nat Lmax) as H.
    { apply Hle. apply list_elem_of_fmap. eexists. split; [done|].
      apply list_elem_of_fmap. by exists c. }
    unfold len in H. lia. }
  exists b, Lmax. split; [done|]. split; [done|]. split; [done|].
  split; [by exists cmax|].
  split; [by rewrite Hids, !length_map|].
  split; [by rewrite Hmask, !length_map|].
  intros i c Hi n.
  assert (c ∈ calls) as Hc by (by eapply list_elem_of_lookup_2).
  specialize (Hfit c Hc).
  exists (pad_row (Z.of_nat Lmax) (GenerateCall.prompt c)),
         (mask_row (Z.of_nat Lmax) (GenerateCall.prompt c)).
  split; [by rewrite Hids, !list_lookup_fmap, Hi|].
  split; [by rewrite Hmask, !list_lookup_fmap, Hi|].
  split; [by apply pad_row_length|].
  split; [by apply mask_row_length|].
  split; [|split].
  - intros j Hj. split; [by apply pad_row_padding|by apply mask_row_padding].
  - intros j Hj. split; [by apply pad_row_tokens|by apply mask_row_tokens].
  - by apply mask_row_sum.
Qed.

Lemma from_calls_left_padded_witness :
  two_calls <> [] /\ same_mode two_calls /\ forallb typed_call two_calls = true /\
  exists (b : GenerateBatch.t) (Lmax : nat),
    GenerateBatch.from_calls two_calls = Ok b /\
    GenerateBatch.calls b = two_calls /\
    (forall c, c ∈ two_calls -> (length (GenerateCall.prompt c) <= Lmax)%nat) /\
    (exists c, c ∈ two_calls /\ length (GenerateCall.prompt c) = Lmax) /\
    length (GenerateBatch.input_ids b) = length two_calls /\
    length (GenerateBatch.attention_mask b) = length two_calls /\
    forall (i : nat) (c : GenerateCall.t),
      two_calls !! i = Some c ->
      let n := length (GenerateCall.prompt c) in
      exists row mask : list Z,
        GenerateBatch.input_ids b !! i = Some row /\
        GenerateBatch.attention_mask b !! i = Some mask /\
        length row = Lmax /\ length mask = Lmax /\
        (forall j, (j < Lmax - n)%nat -> row !! j = Some 0 /\ mask !! j = Some 0) /\
        (forall j, (j < n)%nat ->
           row !! (Lmax - n + j)%nat = GenerateCall.prompt c !! j /\
           mask !! (Lmax - n + j)%nat = Some 1) /\
        foldr Z.add 0 mask = Z.of_nat n.
Proof.
  assert (two_calls <> []) as H1 by discriminate.
  assert (same_mode two_calls) as H2 by (apply same_modeb_sound; reflexivity).
  assert (forallb typed_call two_calls = true) as H3 by reflexivity.
  split; [exact H1|]. split; [exact H2|]. split; [exact H3|].
  exact (from_calls_left_padded two_calls H1 H2 H3).
Defined.


(** ** Batch assembly *)

Lemma chunks_concat {A} (m n : nat) (g : list A) :
  concat (map (fun k => take m (drop (k * m) g)) (seq 0 n)) = take (n * m) g.
Proof.
  induction n as [|n IH]; [by rewrite take_0|].
  rewrite seq_S, map_app, concat_app, IH. simpl.
  rewrite app_nil_r, take_take_drop. f_equal. lia.
Qed.

Lemma split_group_concat (max_batch_size : Z) (g : list GenerateCall.t) :
  0 < max_batch_size ->
  exists chunks,
    Scheduler.split_group max_batch_size g = Ok chunks /\ concat chunks = g.
Proof.
  intros Hpos. unfold Scheduler.split_group.
  destruct (len g >? max_batch_size) eqn:Hlen.
  - unfold Scheduler.py_range0.
    assert ((max_batch_size =? 0) = false) as -> by (apply Z.eqb_neq; lia).
    assert ((max_batch_size <? 0) = false) as -> by (apply Z.ltb_ge; lia).
    simpl. eexists. split; [done|].
    rewrite map_map.
    set (m := Z.to_nat max_batch_size).
    set (n := Z.to_nat ((len g + max_batch_size - 1) / max_batch_size)).
    rewrite (map_ext _ (fun k => take m (drop (k * m) g))).
    + rewrite chunks_concat. apply take_ge.
      pose proof (Z.mul_succ_div_gt (len g + max_batch_size - 1)
                    max_batch_size Hpos) as Hdiv.
      assert (0 <= (len g + max_batch_size - 1) / max_batch_size)
        as Hq by (apply Z.div_pos; unfold len; lia).
      unfold len in *. subst n m. nia.
    + intros k. unfold Scheduler.py_slice. subst m. f_equal; [f_equal; lia|].
      f_equal. rewrite Z2Nat.inj_mul, Nat2Z.id by lia. done.
  - exists [g]. split; [done|]. simpl. by rewrite app_nil_r.
Qed.

Lemma dict_set_concat {V} (m : string) (l : list V) (c : V)
    (d : dict string (list V)) :
  dict_get m d = Some l ->
  concat (map snd (dict_set m (l ++ [c]) d)) ≡ₚ concat (map snd d) ++ [c].
Proof.
  induction d as [|[k v] d IH]; simpl; [discriminate|].
  destruct (decide (k = m)) as [->|Hne].
  - intros [= ->]. simpl.
    rewrite <- !app_assoc. apply Permutation_app_head, Permutation_app_comm.
  - intros Hget. simpl. rewrite IH by done. by rewrite app_assoc.
Qed.

Lemma dict_get_app_fresh {V} (m : string) (v : V) (d : dict string V) :
  dict_get m d = None -> dict_get m (d ++ [(m, v)]) = Some v.
Proof.
  induction d as [|[k w] d IH]; simpl.
  - intros _. by rewrite decide_True.
  - destruct (decide (k = m)); [discriminate|]. apply IH.
Qed.

Lemma setdefault_append_concat (m : string) (c : GenerateCall.t)
    (d : dict string (list GenerateCall.t)) :
  concat (map snd (Scheduler.setdefault_append m c d)) ≡ₚ concat (map snd d) ++ [c].
Proof.
  unfold Scheduler.setdefault_append, dict_setdefault, dict_get_default.
  destruct (dict_get m d) as [l|] eqn:Hget.
  - rewrite Hget. simpl. by apply dict_set_concat.
  - rewrite (dict_get_app_fresh m [] d Hget). simpl.
    rewrite (dict_set_concat m [] c (d ++ [(m, [])]))
      by (by apply dict_get_app_fresh).
    by rewrite map_app, concat_app, app_nil_r.
Qed.

Lemma group_by_mode_concat (calls : list GenerateCall.t)
    (d : dict string (list GenerateCall.t)) :
  concat (map snd
    (fold_left (fun d c =>
       Scheduler.setdefault_append (GenerateCall.generation_mode c) c d) calls d))
  ≡ₚ concat (map snd d) ++ calls.
Proof.
  revert d. induction calls as [|c calls IH]; intros d; simpl.
  - by rewrite app_nil_r.
  - rewrite IH, setdefault_append_concat. by rewrite <- app_assoc.
Qed.

Lemma split_groups_concat (max_batch_size : Z)
    (d : dict string (list GenerateCall.t)) :
  0 < max_batch_size ->
  exists groups,
    rmapM (fun kv => Scheduler.split_group max_batch_size kv.2) d = Ok groups /\
    concat (concat groups) = concat (map snd d).
Proof.
  intros Hpos. induction d as [|[k g] d IH]; simpl.
  - by exists [].
  - destruct (split_group_concat max_batch_size g Hpos) as (chunks & -> & Hchunks).
    destruct IH as (groups & -> & Hgroups). simpl.
    eexists. split; [done|]. simpl. by rewrite concat_app, Hchunks, Hgroups.
Qed.

Lemma batches_all_calls (self : Scheduler.t) (taken : nat) (max_batch_size : Z) :
  0 < max_batch_size ->
  exists bs,
    Scheduler.batches self taken max_batch_size =
      (Scheduler.set_queue self (drop taken (Scheduler.queue self)), Ok bs) /\
    concat bs ≡ₚ take taken (Scheduler.queue self).
Proof.
  intros Hpos. unfold Scheduler.batches.
  match goal with
  | |- context [rmapM _ ?d] =>
      destruct (split_groups_concat max_batch_size d Hpos) as (groups & -> & Hg)
  end.
  simpl. eexists. split; [done|].
  rewrite Hg, group_by_mode_concat. done.
Qed.

(** C3, as the code has it: [Scheduler.put] appends the call to the queue
    whatever its [cancelled] flag, and [Scheduler.batches] does not read it:
    for a positive [max_batch_size], the batches hold exactly the calls that
    were taken from the queue, each of them once, so a call that was put
    is in a batch as soon as the drain reaches it, cancelled or not. *)
Theorem batches_keep_cancelled_calls (self : Scheduler.t) (call : GenerateCall.t)
    (taken : nat) (max_batch_size : Z) :
  0 < max_batch_size ->
  Scheduler.queue (Scheduler.put self call) = Scheduler.queue self ++ [call] /\
  exists bs,
    (Scheduler.batches (Scheduler.put self call) taken max_batch_size).2 = Ok bs /\
    concat bs ≡ₚ take taken (Scheduler.queue self ++ [call]) /\
    ((length (Scheduler.queue self) < taken)%nat ->
     exists b, b ∈ bs /\ call ∈ b).
Proof.
  intros Hpos. split; [done|].
  destruct (batches_all_calls (Scheduler.put self call) taken max_batch_size Hpos)
    as (bs & Hbs & Hperm).
  exists bs. rewrite Hbs. split; [done|]. split; [done|].
  intros Htaken.
  assert (call ∈ concat bs) as Hin.
  { rewrite Hperm. simpl.
    rewrite take_app_ge by lia. apply elem_of_app. right.
    destruct (taken - length (Scheduler.queue self))%nat eqn:E; [lia|].
    simpl. apply elem_of_cons. by left. }
  apply list_elem_of_In, in_concat in Hin as (b & Hb & Hcb).
  exists b. split; by apply list_elem_of_In.
Qed.

Lemma batches_keep_cancelled_calls_witness :
  0 < 8 /\
  Scheduler.queue (Scheduler.put idle_scheduler cancelled_call)
    = Scheduler.queue idle_scheduler ++ [cancelled_call] /\
  exists bs,
    (Scheduler.batches (Scheduler.put idle_scheduler cancelled_call) 1 8).2 = Ok bs /\
    concat bs ≡ₚ take 1 (Scheduler.queue idle_scheduler ++ [cancelled_call]) /\
    ((length (Scheduler.queue idle_scheduler) < 1)%nat ->
     exists b, b ∈ bs /\ cancelled_call ∈ b).
Proof.
  assert (0 < 8) as H by lia.
  split; [exact H|].
  exact (batches_keep_cancelled_calls idle_scheduler cancelled_call 1 8 H).
Defined.


(** C3, as stated, fails: a call whose [cancelled] flag is set when it is
    put is returned by [Scheduler.batches] in a batch. *)
Lemma cancelled_call_is_batched :
  ~ (forall (self : Scheduler.t) (call : GenerateCall.t) (taken : nat)
            (max_batch_size : Z) (bs : list (list GenerateCall.t)),
       GenerateCall.cancelled call = true ->
       (Scheduler.batches (Scheduler.put self call) taken max_batch_size).2 = Ok bs ->
       forall b, b ∈ bs -> call ∉ b).
Proof.
  intros H.
  apply (H idle_scheduler cancelled_call 1%nat 8 [[cancelled_call]]
           eq_refl eq_refl [cancelled_call]).
  - apply elem_of_cons. by left.
  - apply elem_of_cons. by left.
Qed.

(** ** The registry *)

(** C9, as the code has it: [Scheduler.unregister(user)] changes the
    scheduler only when [user] is in its [users]: it then removes the user and sets
    [last_use] to the current time; for a user that is not registered the
    scheduler, [last_use] included, is left as it is.  The queue, the model
    identifier, the model arguments and the kill signal are never
    touched. *)
Theorem unregister_effect (now : Z) (self : Scheduler.t) (user : nat) :
  let s := Scheduler.unregister now self user in
  (user ∈ Scheduler.users self ->
     Scheduler.users s = Scheduler.users self ∖ {[user]} /\
     Scheduler.last_use s = now) /\
  (user ∉ Scheduler.users self -> s = self) /\
  (user ∉ Scheduler.users s) /\
  Scheduler.queue s = Scheduler.queue self /\
  Scheduler.model_identifier s = Scheduler.model_identifier self /\
  Scheduler.model_args s = Scheduler.model_args self /\
  Scheduler.kill_event s = Scheduler.kill_event self /\
  Scheduler.sync s = Scheduler.sync self /\
  Scheduler.worker_thread s = Scheduler.worker_thread self /\
  Scheduler._model_info s = Scheduler._model_info self /\
  Scheduler.active_batch_size s = Scheduler.active_batch_size self.
Proof.
  unfold Scheduler.unregister.
  destruct (decide (user ∈ Scheduler.users self)) as [Hin|Hnin]; simpl.
  - repeat split; try done.
    intros [_ Hn]%elem_of_difference. apply Hn. by apply elem_of_singleton.
  - repeat split; done.
Qed.

(** C9, as stated, fails: unregistering a user that the scheduler does not
    hold leaves [last_use] at its old value. *)
Lemma unregister_unknown_user_keeps_last_use :
  ~ (forall (now : Z) (self : Scheduler.t) (user : nat),
       Scheduler.last_use (Scheduler.unregister now self user) = now).
Proof.
  intros H. pose proof (H 9 idle_scheduler 1%nat) as H9.
  vm_compute in H9. discriminate H9.
Qed.

(** ** Routing of payloads *)

Lemma bind_lift_ok {S A B} (a : A) (f : A -> St S B) :
  mbind (lift (Ok a)) f = f a.
Proof. reflexivity. Qed.

Lemma bind_lift_err {S A B} (e : pyexn) (f : A -> St S B) :
  mbind (lift (inl e)) f = lift (inl e).
Proof. reflexivity. Qed.

Lemma delivered_app calls q tr1 tr2 :
  delivered calls q (tr1 ++ tr2) = delivered calls q tr1 ++ delivered calls q tr2.
Proof. unfold delivered. apply flat_map_app. Qed.

Lemma emits_lift {A} calls (r : result A) : emits calls (lift r) [] r.
Proof. intros st. exists st. split; [done|]. intros q. by rewrite app_nil_r. Qed.

Lemma emits_put calls (i : nat) (c : GenerateCall.t) (p : payload) :
  calls !! i = Some c ->
  emits calls (GenerateCall.put c p) [(i, p)] (Ok tt).
Proof.
  intros Hi st. eexists. split; [done|]. intros q.
  unfold delivered. simpl. rewrite Hi, app_nil_r.
  destruct (decide (GenerateCall.result_queue c = q)) as [->|Hne].
  - by rewrite lookup_total_insert_eq.
  - by rewrite lookup_total_insert_ne, app_nil_r.
Qed.

Lemma emits_bind_ok {A B} calls (m : M A) (f : A -> M B) tr1 tr2 a r :
  emits calls m tr1 (Ok a) -> emits calls (f a) tr2 r ->
  emits calls (mbind m f) (tr1 ++ tr2) r.
Proof.
  intros Hm Hf st. destruct (Hm st) as (st1 & E1 & H1).
  destruct (Hf st1) as (st2 & E2 & H2).
  exists st2. unfold mbind. rewrite E1. split; [done|].
  intros q. by rewrite H2, H1, delivered_app, app_assoc.
Qed.

Lemma emits_bind_err {A B} calls (m : M A) (f : A -> M B) tr e :
  emits calls m tr (inl e) -> emits calls (mbind m f) tr (inl e).
Proof.
  intros Hm st. destruct (Hm st) as (st1 & E1 & H1).
  exists st1. unfold mbind. by rewrite E1.
Qed.

Lemma row_events_cons start ps rows :
  row_events start (ps :: rows) = map (pair start) ps ++ row_events (S start) rows.
Proof.
  unfold row_events. simpl. rewrite Nat.add_0_r. f_equal. f_equal.
  apply imap_ext. intros i x _. simpl. f_equal. f_equal. lia.
Qed.

(** A loop over rows whose body emits, for the row [i], payloads [ps] with
    [Q i ps r], where [r] is how the body ends *)
Lemma emits_rows calls (n start : nat) (body : nat -> M unit)
    (Q : nat -> list payload -> result unit -> Prop) :
  (forall i, (start <= i < start + n)%nat ->
     exists ps r, emits calls (body i) (map (pair i) ps) r /\ Q i ps r) ->
  exists rows r,
    emits calls (for_each (seq start n) body) (row_events start rows) r /\
    (length rows <= n)%nat /\
    (r = Ok tt -> length rows = n) /\
    (forall k ps, rows !! k = Some ps ->
       exists r', Q (start + k)%nat ps r' /\ (r = Ok tt -> r' = Ok tt)).
Proof.
  revert start. induction n as [|n IH]; intros start Hbody.
  - exists [], (Ok tt). split; [apply (emits_lift calls (Ok tt))|].
    split; [done|]. split; [done|]. intros k ps Hk. by destruct k.
  - destruct (Hbody start) as (ps & r & Hx & HQ); [lia|].
    destruct r as [e|[]].
    + exists [ps], (inl e). rewrite row_events_cons. simpl seq.
      split; [|split; [simpl; lia|split; [discriminate|]]].
      * change (row_events (S start) []) with (@nil (nat * payload)).
        rewrite app_nil_r. by apply emits_bind_err.
      * intros [|k] ps' Hk; [|by destruct k].
        injection Hk as <-. exists (inl e). rewrite Nat.add_0_r. split; [done|discriminate].
    + destruct (IH (S start)) as (rows & r & Hl & Hle & Hlen & Hrows).
      { intros i Hi. apply Hbody. lia. }
      exists (ps :: rows), r. rewrite row_events_cons. simpl seq.
      split; [by eapply emits_bind_ok|].
      split; [simpl; lia|]. split; [intros Hr; simpl; by rewrite Hlen|].
      intros [|k] ps' Hk.
      * injection Hk as <-. exists (Ok tt). by rewrite Nat.add_0_r.
      * destruct (Hrows k ps' Hk) as (r' & HQ' & Hr').
        exists r'. by rewrite Nat.add_succ_r.
Qed.

Lemma emits_rows_ok calls (n start : nat) (body : nat -> M unit)
    (f : nat -> list payload) :
  (forall i, (start <= i < start + n)%nat ->
     emits calls (body i) (map (pair i) (f i)) (Ok tt)) ->
  emits calls (for_each (seq start n) body)
        (row_events start (map f (seq start n))) (Ok tt).
Proof.
  revert start. induction n as [|n IH]; intros start Hbody.
  - apply (emits_lift calls (Ok tt)).
  - simpl seq. simpl map. rewrite row_events_cons.
    eapply emits_bind_ok; [apply Hbody; lia|]. apply IH. intros i Hi. apply Hbody. lia.
Qed.

Lemma py_index_nat_inv {A} (l : list A) (i : nat) (a : A) :
  py_index l (Z.of_nat i) = Ok a -> l !! i = Some a.
Proof.
  unfold py_index. cbv zeta.
  assert ((0 <=? Z.of_nat i) = true) as Hle by (apply Z.leb_le; lia).
  rewrite !Hle. destruct (_ && _); [|discriminate].
  rewrite Nat2Z.id. destruct (l !! i); [|discriminate]. by intros [= ->].
Qed.

Lemma np_index_nat_inv {A} (axis : Z) (l : list A) (i : nat) (a : A) :
  np_index axis l (Z.of_nat i) = Ok a -> l !! i = Some a.
Proof. intros H. by apply py_index_nat_inv, (np_index_ok axis). Qed.

Ltac lift_step :=
  match goal with
  | |- context [mbind (lift ?r) _] =>
      let E := fresh "E" in
      destruct r eqn:E;
      [rewrite bind_lift_err | rewrite bind_lift_ok; cbv beta]
  end.

Lemma for_each_ext {S X} (l : list X) (f g : X -> St S unit) :
  (forall x, f x = g x) -> for_each l f = for_each l g.
Proof.
  intros Hfg. induction l as [|x l IH]; simpl; [done|]. by rewrite Hfg, IH.
Qed.

Lemma emits_put_all {X} calls (i : nat) (c : GenerateCall.t) (l : list X)
    (g : X -> payload) :
  calls !! i = Some c ->
  emits calls (for_each l (fun x => GenerateCall.put c (g x)))
        (map (pair i) (map g l)) (Ok tt).
Proof.
  intros Hi. induction l as [|x l IH]; simpl.
  - apply (emits_lift calls (Ok tt)).
  - change ((i, g x) :: map (pair i) (map g l))
      with ([(i, g x)] ++ map (pair i) (map g l)).
    eapply emits_bind_ok; [by apply emits_put|exact IH].
Qed.

Lemma score_row_emits calls (i : nat) (call : GenerateCall.t)
    (scores : list Q) (scored_ids : list Z) :
  calls !! i = Some call ->
  emits calls
    (for_each (imap pair (zip scores scored_ids))
       (fun '(j, (score, token)) =>
          GenerateCall.put call
            (TokenPayload token (GenerateCall.stream_id call) score
               (if decide (Z.of_nat j = len scores - 1)
                then Some "stop" else None) None)))
    (map (pair i) (score_payloads call scores scored_ids)) (Ok tt).
Proof.
  intros Hi.
  set (g := fun x : nat * (Q * Z) =>
              TokenPayload x.2.2 (GenerateCall.stream_id call) x.2.1
                (if decide (Z.of_nat x.1 = len scores - 1)
                 then Some "stop" else None) None).
  rewrite (for_each_ext _ _ (fun x => GenerateCall.put call (g x)))
    by (by intros [j [score token]]).
  replace (score_payloads call scores scored_ids)
    with (map g (imap pair (zip scores scored_ids))).
  - by apply emits_put_all.
  - unfold score_payloads. rewrite fmap_imap. by apply imap_ext.
Qed.

Lemma score_payloads_ok calls (i : nat) (call : GenerateCall.t)
    (scores : list Q) (scored_ids : list Z) :
  calls !! i = Some call ->
  Forall (row_payload_ok calls i) (score_payloads call scores scored_ids).
Proof.
  intros Hi. apply Forall_forall. intros p Hp.
  unfold score_payloads in Hp. apply list_elem_of_lookup in Hp as [j Hj].
  rewrite list_lookup_imap in Hj.
  destruct (zip scores scored_ids !! j) as [st|]; [|discriminate].
  injection Hj as <-. by exists call.
Qed.

Lemma score_streamer_emits (batch : GenerateBatch.t) (all_scores : list (list Q)) :
  let calls := GenerateBatch.calls batch in
  exists rows r,
    emits calls (ScoreStreamer.log_token batch all_scores) (row_events 0 rows) r /\
    (length rows <= length all_scores)%nat /\
    (r = Ok tt -> length rows = length all_scores) /\
    (forall k ps, rows !! k = Some ps ->
       Forall (row_payload_ok calls k) ps /\
       (ps = [] \/ score_row_payloads batch all_scores k ps) /\
       (r = Ok tt -> score_row_payloads batch all_scores k ps)).
Proof.
  intros calls. unfold ScoreStreamer.log_token.
  match goal with
  | |- context [for_each _ ?body] =>
      destruct (emits_rows calls (length all_scores) 0 body
                  (fun i ps r =>
                     Forall (row_payload_ok calls i) ps /\
                     (ps = [] \/ score_row_payloads batch all_scores i ps) /\
                     (r = Ok tt -> score_row_payloads batch all_scores i ps)))
        as (rows & r & Hemits & Hle & Hlen & Hrows)
  end.
  - intros i _.
    assert (forall e, exists ps r,
              emits calls (lift (inl e) : M unit) (map (pair i) ps) r /\
              Forall (row_payload_ok calls i) ps /\
              (ps = [] \/ score_row_payloads batch all_scores i ps) /\
              (r = Ok tt -> score_row_payloads batch all_scores i ps)) as Herr.
    { intros e. exists [], (inl e). split; [apply emits_lift|].
      split; [constructor|]. split; [by left|discriminate]. }
    lift_step; [apply Herr|]. rename E into Hoffs.
    match type of Hoffs with _ = inr ?x => rename x into offs end.
    lift_step; [apply Herr|]. rename E into Hoff.
    match type of Hoff with _ = inr ?x => rename x into off end.
    lift_step; [apply Herr|]. rename E into Hrow.
    match type of Hrow with _ = inr ?x => rename x into row end.
    lift_step; [apply Herr|]. rename E into Hids.
    match type of Hids with _ = inr ?x => rename x into ids end.
    lift_step; [apply Herr|]. rename E into Hcall.
    match type of Hcall with _ = inr ?x => rename x into c end.
    apply py_index_nat_inv in Hoff, Hids, Hcall. apply np_index_nat_inv in Hrow.
    assert (score_row_payloads batch all_scores i
              (score_payloads c (py_slice_from off row) (py_slice_from off ids)))
      as Hcontent.
    { exists offs, off, row, ids, c.
      destruct (GenerateBatch.scoring_offsets batch) as [offs'|]; [|discriminate].
      injection Hoffs as ->. done. }
    eexists _, (Ok tt). split; [by apply score_row_emits|].
    split; [by apply score_payloads_ok|]. split; [by right|done].
  - exists rows, r. split; [exact Hemits|]. split; [done|]. split; [done|].
    intros k ps Hk. destruct (Hrows k ps Hk) as (r' & (H1 & H2 & H3) & Hr').
    split; [done|]. split; [done|]. intros Hr. by apply H3, Hr'.
Qed.

(** ** Failures of a batch *)

Lemma error_all (batch : list GenerateCall.t) (reason : string) (st : store) :
  exists st',
    for_each batch (fun c => GenerateCall.error c reason) st = (st', Ok tt) /\
    forall q, st' !!! q = st !!! q ++ error_messages batch reason q.
Proof.
  revert st. induction batch as [|c batch IH]; intros st.
  - exists st. split; [done|]. intros q. by rewrite app_nil_r.
  - simpl. unfold mbind. simpl.
    destruct (IH (<[GenerateCall.result_queue c :=
                     st !!! GenerateCall.result_queue c ++
                     [("TOKEN", ErrorPayload (GenerateCall.stream_id c) reason)]]> st))
      as (st' & Hrun & Hst').
    exists st'. split; [exact Hrun|]. intros q. rewrite Hst'.
    unfold error_messages. rewrite filter_cons.
    destruct (decide (GenerateCall.result_queue c = q)) as [->|Hne].
    + rewrite lookup_total_insert_eq. simpl. by rewrite <- app_assoc.
    + by rewrite lookup_total_insert_ne.
Qed.

(** ** Scoring *)

Section DictFacts.
Context {K V : Type} `{EqDecision K}.
Implicit Types (d : dict K V) (k : K) (v : V).

Lemma dict_get_set_eq d k v : dict_get k (dict_set k v d) = Some v.
Proof.
  induction d as [|[k' v'] d IH]; simpl.
  - by rewrite decide_True.
  - destruct (decide (k' = k)) as [->|Hne]; simpl.
    + by rewrite decide_True.
    + by rewrite decide_False.
Qed.

Lemma dict_get_set_ne d k k' v :
  k <> k' -> dict_get k' (dict_set k v d) = dict_get k' d.
Proof.
  intros Hne. induction d as [|[k0 v0] d IH]; simpl.
  - by rewrite decide_False.
  - destruct (decide (k0 = k)) as [->|Hne0]; simpl.
    + by rewrite !decide_False.
    + by rewrite IH.
Qed.

Lemma dict_get_pop_ne d k k' :
  k <> k' -> dict_get k' (dict_pop k d) = dict_get k' d.
Proof.
  intros Hne. induction d as [|[k0 v0] d IH]; simpl; [done|].
  destruct (decide (k0 = k)) as [->|Hne0]; simpl.
  - by rewrite decide_False.
  - by rewrite IH.
Qed.

Lemma dict_get_elem d k v :
  dict_get k d = Some v -> (k, v) ∈ d.
Proof.
  induction d as [|[k' v'] d IH]; simpl; [done|].
  destruct (decide (k' = k)) as [->|Hne].
  - intros [= ->]. apply elem_of_cons. by left.
  - intros H. apply elem_of_cons. right. by apply IH.
Qed.

Lemma dict_get_of_elem d k v :
  NoDup (map fst d) -> (k, v) ∈ d -> dict_get k d = Some v.
Proof.
  induction d as [|[k' v'] d IH]; simpl; intros Hnd Hin.
  - by apply elem_of_nil in Hin.
  - apply NoDup_cons in Hnd as [Hk' Hnd].
    apply elem_of_cons in Hin as [[= -> ->]|Hin].
    + by rewrite decide_True.
    + rewrite decide_False; [by apply IH|].
      intros ->. apply Hk'. apply list_elem_of_fmap. by exists (k, v).
Qed.

Lemma dict_pop_sublist d k :
  dict_pop k d `sublist_of` d.
Proof.
  induction d as [|[k' v'] d IH]; simpl; [done|].
  destruct (decide (k' = k)); [by apply sublist_cons|by apply sublist_skip].
Qed.

Lemma dict_pop_NoDup d k : NoDup (map fst d) -> NoDup (map fst (dict_pop k d)).
Proof.
  intros Hnd. eapply sublist_NoDup; [exact Hnd|].
  apply fmap_sublist, dict_pop_sublist.
Qed.

Lemma dict_get_pop_eq d k :
  NoDup (map fst d) -> dict_get k (dict_pop k d) = None.
Proof.
  induction d as [|[k' v'] d IH]; simpl; intros Hnd; [done|].
  apply NoDup_cons in Hnd as [Hk' Hnd].
  destruct (decide (k' = k)) as [->|Hne]; simpl.
  - destruct (dict_get k d) as [v|] eqn:E; [|done].
    destruct Hk'. apply list_elem_of_fmap. exists (k, v).
    split; [done|by apply dict_get_elem].
  - rewrite decide_False by done. by apply IH.
Qed.

End DictFacts.

Lemma score_call_spec (self : TokenSession.t) (kwargs : dict string pyval)
    (p s : list Z) (sid : pyval) :
  dict_get "prompt" kwargs = Some (VList p) ->
  dict_get "scored" kwargs = Some (VList s) ->
  dict_get "stream_id" kwargs = Some sid ->
  exists call,
    TokenSession.score_call self kwargs = Ok call /\
    GenerateCall.prompt call = p ++ s /\
    GenerateCall.stream_id call = sid /\
    GenerateCall.result_queue call = TokenSession.output_stream self /\
    GenerateCall.cancelled call = false /\
    dict_get "score" (GenerateCall.kwargs call) = Some (VBool true) /\
    dict_get "scoring_offset" (GenerateCall.kwargs call)
      = Some (VInt (Z.of_nat (length p))).
Proof.
  intros Hp Hs Hsid. unfold TokenSession.score_call, TokenSession.pop_item.
  rewrite Hp. simpl rbind.
  rewrite dict_get_pop_ne, Hs by done. simpl rbind.
  rewrite !dict_get_pop_ne, Hsid by done. simpl rbind.
  eexists. split; [reflexivity|]. simpl.
  repeat split.
  - by rewrite dict_get_set_ne, dict_get_set_eq.
  - by rewrite dict_get_set_eq.
Qed.

Lemma rmapM_lookup {A B} (f : A -> result B) (l : list A) (bs : list B)
    (i : nat) (a : A) :
  rmapM f l = Ok bs -> l !! i = Some a ->
  exists b, f a = Ok b /\ bs !! i = Some b.
Proof.
  revert bs i. induction l as [|x l IH]; intros bs i; simpl; [by destruct i|].
  destruct (f x) as [e|b] eqn:Hfx; simpl; [discriminate|].
  destruct (rmapM f l) as [e|bs'] eqn:Hl; simpl; [discriminate|].
  intros [= <-]. destruct i as [|i]; simpl.
  - intros [= <-]. eauto.
  - intros Hi. by apply (IH bs' i).
Qed.

Lemma py_slice_from_nat {A} (n : nat) (l : list A) :
  py_slice_from (Z.of_nat n) l = drop n l.
Proof.
  unfold py_slice_from.
  assert ((0 <=? Z.of_nat n) = true) as -> by (apply Z.leb_le; lia).
  by rewrite Nat2Z.id.
Qed.

Lemma score_streamer_succeeds (b : GenerateBatch.t) (all_scores : list (list Q))
    (offs : list Z) :
  GenerateBatch.scoring_offsets b = Some offs ->
  length offs = length (GenerateBatch.calls b) ->
  length (GenerateBatch.input_ids b) = length (GenerateBatch.calls b) ->
  length all_scores = length (GenerateBatch.calls b) ->
  emits (GenerateBatch.calls b) (ScoreStreamer.log_token b all_scores)
        (row_events 0 (map (score_row b all_scores offs)
                           (seq 0 (length all_scores))))
        (Ok tt).
Proof.
  intros Hoffs Hlo Hli Hls. unfold ScoreStreamer.log_token.
  apply emits_rows_ok. intros k [_ Hk]. simpl in Hk.
  rewrite Hoffs, bind_lift_ok.
  destruct (lookup_lt_is_Some_2 offs k) as [off Hoff]; [lia|].
  destruct (lookup_lt_is_Some_2 all_scores k) as [row Hrow]; [lia|].
  destruct (lookup_lt_is_Some_2 (GenerateBatch.input_ids b) k) as [ids Hids]; [lia|].
  destruct (lookup_lt_is_Some_2 (GenerateBatch.calls b) k) as [c Hc]; [lia|].
  rewrite (py_index_nat _ _ _ Hoff), bind_lift_ok.
  rewrite (np_index_nat _ _ _ _ Hrow), bind_lift_ok.
  rewrite (py_index_nat _ _ _ Hids), bind_lift_ok.
  rewrite (py_index_nat _ _ _ Hc), bind_lift_ok.
  unfold score_row. rewrite Hc, Hoff, Hrow, Hids.
  by apply score_row_emits.
Qed.

(** ** Top log-probabilities *)

Lemma insert_desc_perm (x : Q * Z) (l : list (Q * Z)) :
  insert_desc x l ≡ₚ x :: l.
Proof.
  induction l as [|y l IH]; simpl; [done|].
  destruct (Qle_bool y.1 x.1); [done|]. rewrite IH. apply Permutation_swap.
Qed.

Lemma sort_desc_perm (l : list (Q * Z)) : foldr insert_desc [] l ≡ₚ l.
Proof.
  induction l as [|x l IH]; simpl; [done|]. by rewrite insert_desc_perm, IH.
Qed.

Lemma topk_row_length (k : Z) (row : list Q) :
  length (topk_row k row) = Nat.min (Z.to_nat k) (length row).
Proof.
  unfold topk_row. rewrite length_take, sort_desc_perm, length_zip.
  rewrite length_map, length_seq. lia.
Qed.

Lemma topk_row_NoDup (k : Z) (row : list Q) : NoDup (map snd (topk_row k row)).
Proof.
  unfold topk_row.
  eapply sublist_NoDup; [|apply fmap_sublist, sublist_take].
  rewrite sort_desc_perm.
  rewrite snd_zip by (rewrite length_map, length_seq; lia).
  apply NoDup_fmap_2; [intros a b; lia|apply NoDup_seq].
Qed.

Section DictSize.
Context {K V : Type} `{EqDecision K}.
Implicit Types (d l : list (K * V)).

Lemma dict_set_length d k v :
  length (dict_set k v d) = (length d + if decide (k ∈ map fst d) then 0 else 1)%nat.
Proof.
  induction d as [|[k' v'] d IH].
  - rewrite decide_False; [done|]. apply not_elem_of_nil.
  - cbn [dict_set map fst length].
    destruct (decide (k' = k)) as [->|Hne]; cbn [length].
    + rewrite decide_True; [lia|]. apply elem_of_cons. by left.
    + rewrite IH. destruct (decide (k ∈ map fst d)) as [Hin|Hnin].
      * rewrite decide_True; [lia|]. apply elem_of_cons. by right.
      * rewrite decide_False; [lia|]. by intros [->|Hin]%elem_of_cons.
Qed.

Lemma dict_set_keys d k v :
  map fst (dict_set k v d) = map fst d ++ (if decide (k ∈ map fst d) then [] else [k]).
Proof.
  induction d as [|[k' v'] d IH].
  - rewrite decide_False; [done|]. apply not_elem_of_nil.
  - cbn [dict_set map fst].
    destruct (decide (k' = k)) as [->|Hne]; cbn [map fst].
    + rewrite decide_True; [by rewrite app_nil_r|]. apply elem_of_cons. by left.
    + rewrite IH. cbn [app]. f_equal. destruct (decide (k ∈ map fst d)) as [Hin|Hnin].
      * rewrite decide_True; [done|]. apply elem_of_cons. by right.
      * rewrite decide_False; [done|]. by intros [->|Hin]%elem_of_cons.
Qed.

Lemma filter_ext_in {A} (P Q : A -> Prop) `{!forall x, Decision (P x)}
    `{!forall x, Decision (Q x)} (l : list A) :
  (forall x, x ∈ l -> (P x <-> Q x)) -> filter P l = filter Q l.
Proof.
  induction l as [|a l IH]; intros Hext; [done|].
  rewrite !filter_cons.
  assert (filter P l = filter Q l) as ->
    by (apply IH; intros x Hx; apply Hext, elem_of_cons; auto).
  destruct (decide (P a)) as [HP|HP], (decide (Q a)) as [HQ|HQ]; try done;
    exfalso; [apply HQ|apply HP]; by apply (Hext a); [apply elem_of_cons; left|].
Qed.

Lemma dict_update_length d l :
  NoDup (map fst l) ->
  length (dict_update d l)
  = (length d + length (filter (fun k => k ∉ map fst d) (map fst l)))%nat.
Proof.
  unfold dict_update. revert d. induction l as [|[k v] l IH]; intros d Hnd.
  - cbn. lia.
  - cbn [map fst] in Hnd. apply NoDup_cons in Hnd as [Hk Hnd].
    cbn [fold_left map fst].
    rewrite IH by done. rewrite dict_set_length, dict_set_keys, filter_cons.
    destruct (decide (k ∈ map fst d)) as [Hin|Hnin].
    + rewrite app_nil_r. rewrite decide_False by (by intros H'; apply H').
      lia.
    + rewrite decide_True by done. cbn [length].
      rewrite (filter_ext_in (fun k0 => k0 ∉ map fst d ++ [k])
                             (fun k0 => k0 ∉ map fst d)); [lia|].
      intros k0 Hk0. split.
      * intros H' Hin. apply H', elem_of_app. by left.
      * intros H' [Hin|Hin]%elem_of_app; [done|].
        apply list_elem_of_singleton in Hin as ->. done.
Qed.

Lemma dict_of_items_NoDup l : NoDup (map fst l) -> dict_of_items l = l.
Proof.
  unfold dict_of_items, dict_update.
  assert (forall d, NoDup (map fst (d ++ l)) ->
            fold_left (fun acc kv => dict_set kv.1 kv.2 acc) l d = d ++ l) as Hgen.
  { induction l as [|[k v] l IH]; intros d Hnd; cbn [fold_left fst snd].
    - by rewrite app_nil_r.
    - assert (dict_set k v d = d ++ [(k, v)]) as ->.
      { rewrite map_app in Hnd. apply NoDup_app in Hnd as (_ & Hdis & _).
        clear IH. induction d as [|[k' v'] d IHd]; [done|].
        cbn [dict_set]. rewrite decide_False.
        - cbn. f_equal. apply IHd. intros x Hx. apply Hdis, elem_of_cons. by right.
        - intros ->. apply (Hdis k); [apply elem_of_cons; by left|].
          apply elem_of_cons. by left. }
      rewrite IH; [by rewrite <- app_assoc|]. by rewrite <- app_assoc. }
  intros Hnd. by apply (Hgen []).
Qed.

End DictSize.

(** What [log_token] puts in ["top_logprobs"]: for a row with scores [row]
    and emitted token [tok], the mapping has one entry for each of the [k]
    best tokens of the row, where [k] is the largest [top_logprobs] of the
    batch, and one more when [tok] is not among them. *)
Lemma top_logprobs_size (k : Z) (row : list Q) (tok : Z) (sc : Q) :
  let top := topk_row k row in
  length (dict_update [(tok, sc)] (dict_of_items (zip (map snd top) (map fst top))))
  = (Nat.min (Z.to_nat k) (length row)
     + if decide (tok ∈ map snd top) then 0 else 1)%nat.
Proof.
  intros top.
  assert (map fst (zip (map snd top) (map fst top)) = map snd top) as Hkeys
    by (apply fst_zip; by rewrite !length_map).
  rewrite dict_of_items_NoDup by (rewrite Hkeys; apply topk_row_NoDup).
  rewrite dict_update_length by (rewrite Hkeys; apply topk_row_NoDup).
  rewrite Hkeys. cbn [map fst length].
  pose proof (topk_row_length k row) as Hlen. fold top in Hlen.
  pose proof (topk_row_NoDup k row) as Hnd. fold top in Hnd.
  rewrite <- Hlen, <- (length_map snd top).
  clear Hkeys Hlen. revert Hnd. generalize (map snd top). clear. intros keys Hnd.
  induction keys as [|j keys IH]; [done|].
  apply NoDup_cons in Hnd as [Hj Hnd]. rewrite filter_cons.
  specialize (IH Hnd).
  destruct (decide (j = tok)) as [->|Hne].
  - rewrite decide_False by (intros H'; apply H', elem_of_cons; by left).
    rewrite decide_True by (apply elem_of_cons; by left).
    rewrite decide_False in IH by done. cbn [length]. lia.
  - rewrite decide_True by (by intros ?%list_elem_of_singleton).
    cbn [length]. destruct (decide (tok ∈ keys)) as [Hin|Hnin].
    + rewrite decide_True by (apply elem_of_cons; by right). lia.
    + rewrite decide_False by (by intros [?|?]%elem_of_cons). lia.
Qed.

Lemma dict_get_update {K V} `{EqDecision K} (d l : list (K * V)) (k : K) :
  NoDup (map fst l) ->
  dict_get k (dict_update d l)
  = match dict_get k l with Some v => Some v | None => dict_get k d end.
Proof.
  unfold dict_update. revert d. induction l as [|[k' v'] l IH]; intros d Hnd; [done|].
  cbn [map fst] in Hnd. apply NoDup_cons in Hnd as [Hk' Hnd].
  cbn [fold_left fst snd dict_get]. rewrite IH by done.
  destruct (decide (k' = k)) as [->|Hne].
  - destruct (dict_get k l) as [v|] eqn:Hget; [|apply dict_get_set_eq].
    destruct Hk'. apply list_elem_of_fmap. exists (k, v). split; [done|].
    by apply dict_get_elem.
  - by rewrite dict_get_set_ne.
Qed.

Lemma topk_row_elem (k : Z) (row : list Q) (x : Q) (j : Z) :
  (x, j) ∈ topk_row k row -> 0 <= j /\ row !! Z.to_nat j = Some x.
Proof.
  unfold topk_row. intros Hin.
  assert ((x, j) ∈ zip row (map Z.of_nat (seq 0 (length row)))) as Hzip.
  { rewrite <- sort_desc_perm. eapply elem_of_sublist; [exact Hin|apply sublist_take]. }
  apply list_elem_of_lookup in Hzip as [i Hi].
  apply lookup_zip_with_Some in Hi as (x' & j' & [= <- <-] & Hx & Hj).
  rewrite list_lookup_fmap in Hj.
  destruct (seq 0 (length row) !! i) as [i'|] eqn:Hseq; [|discriminate].
  apply lookup_seq in Hseq as [-> _]. injection Hj as <-.
  split; [lia|]. by rewrite Nat2Z.id.
Qed.

(** The entry of the emitted token is its own score. *)
Lemma top_logprobs_entry (k : Z) (row : list Q) (tok : Z) (sc : Q) :
  py_index row tok = Ok sc ->
  let top := topk_row k row in
  dict_get tok (dict_update [(tok, sc)]
                  (dict_of_items (zip (map snd top) (map fst top))))
  = Some sc.
Proof.
  intros Hsc top.
  assert (map fst (zip (map snd top) (map fst top)) = map snd top) as Hkeys
    by (apply fst_zip; by rewrite !length_map).
  rewrite dict_of_items_NoDup by (rewrite Hkeys; apply topk_row_NoDup).
  rewrite dict_get_update by (rewrite Hkeys; apply topk_row_NoDup).
  destruct (dict_get tok _) as [x|] eqn:Hget;
    [|cbn [dict_get]; by rewrite decide_True].
  apply dict_get_elem, list_elem_of_lookup in Hget as [i Hi].
  apply lookup_zip_with_Some in Hi as (j & x' & [= <- <-] & Hj & Hx).
  rewrite list_lookup_fmap in Hj. rewrite list_lookup_fmap in Hx.
  destruct (top !! i) as [[x0 j0]|] eqn:Htop; [|discriminate].
  injection Hj as <-. injection Hx as <-.
  destruct (topk_row_elem k row x0 j0) as [Hpos Hrow];
    [by eapply list_elem_of_lookup_2|].
  rewrite <- (Z2Nat.id j0 Hpos) in Hsc. apply py_index_nat_inv in Hsc.
  rewrite Hrow in Hsc. by injection Hsc as ->.
Qed.

(** C2 fails on the code: in a batch of a call that asks for one top
    log-probability and a call that asks for three, the payload of the
    first call has three entries in [top_logprobs], although its token is
    the most likely one.  [log_token] builds the mapping from the top-k of
    the whole batch and slices to the call's own [top_logprobs] only
    afterwards, in two variables that are not read again. *)
Theorem top_logprobs_of_mixed_batch :
  GenerateCall.generation_mode call_top1 = GenerateCall.generation_mode call_top3 /\
  TokenStreamer.kw_top_logprobs call_top1 = Ok 1 /\
  TokenStreamer.log_token mixed_streamer mixed_input_ids mixed_scores false ∅
  = ({[ 0%nat := [("TOKEN",
                   TokenPayload 0 (VInt 1) (-1 # 1) None
                     (Some [(0, -1 # 1); (1, -2 # 1); (2, -3 # 1)]))];
        1%nat := [("TOKEN",
                   TokenPayload 0 (VInt 2) (-1 # 1) None
                     (Some [(0, -1 # 1); (1, -2 # 1); (2, -3 # 1)]))] ]},
     Ok tt).
Proof. split; [|split]; by vm_compute. Qed.

(** *** Garbage collection *)

Section Gc.
Variable pickle_dumps_hex : option (dict string pyval) -> string.

Let dealloc_at (k : string * string) : St Scheduler.registry unit :=
  s <- Scheduler.registry_get k;; Scheduler.dealloc pickle_dumps_hex k s.

Let pops (ks : list (string * string)) (reg : Scheduler.registry) :=
  fold_left (fun r k => dict_pop k r) ks reg.

Lemma gc_below_threshold (n : Z) (reg : Scheduler.registry) :
  len reg < n ->
  Scheduler.gc pickle_dumps_hex n reg = (reg, Ok tt).
Proof.
  intros Hlt. unfold Scheduler.gc.
  assert ((len reg >=? n) = false) as -> by lia. done.
Qed.

(** [dealloc] of a scheduler that the registry holds under its own
    identifier, once: its entry is popped, and the kill event is set on an
    object that the registry holds no more. *)
Lemma dealloc_own (k : string * string) (s : Scheduler.t)
    (reg : Scheduler.registry) :
  NoDup (map fst reg) ->
  identifier_of pickle_dumps_hex s = k ->
  dict_get k reg = Some s ->
  Scheduler.dealloc pickle_dumps_hex k s reg
  = (dict_pop k reg,
     match Scheduler.worker_thread s with
     | Some _ => Ok tt
     | None => Raise AttributeError
                     "'Scheduler' object has no attribute 'worker_thread'"
     end).
Proof.
  intros Hnd Hid Hget.
  unfold Scheduler.dealloc, Scheduler.registry_pop, Scheduler.kill, mbind.
  fold (identifier_of pickle_dumps_hex s).
  rewrite Hid, Hget. cbv beta iota delta [Ok].
  rewrite dict_get_pop_eq by done.
  by destruct (Scheduler.worker_thread s).
Qed.

Lemma dealloc_at_ok (k : string * string) (s : Scheduler.t)
    (th : Scheduler.thread) (reg : Scheduler.registry) :
  NoDup (map fst reg) ->
  dict_get k reg = Some s ->
  identifier_of pickle_dumps_hex s = k ->
  Scheduler.worker_thread s = Some th ->
  dealloc_at k reg = (dict_pop k reg, Ok tt).
Proof.
  intros Hnd Hget Hid Hth.
  unfold dealloc_at, Scheduler.registry_get, mbind.
  rewrite Hget. cbv beta iota delta [Ok].
  by rewrite (dealloc_own k s reg Hnd Hid Hget), Hth.
Qed.

Lemma dealloc_all_ok (ks : list (string * string)) (reg : Scheduler.registry) :
  NoDup ks ->
  NoDup (map fst reg) ->
  (forall k, k ∈ ks ->
     exists s th, dict_get k reg = Some s /\
                  identifier_of pickle_dumps_hex s = k /\
                  Scheduler.worker_thread s = Some th) ->
  for_each ks dealloc_at reg = (pops ks reg, Ok tt).
Proof.
  revert reg. induction ks as [|k ks IH]; intros reg Hnd Hreg Hks; [done|].
  apply NoDup_cons in Hnd as [Hk Hnd].
  destruct (Hks k) as (s & th & Hget & Hid & Hth); [apply elem_of_cons; auto|].
  simpl. unfold mbind at 1. rewrite (dealloc_at_ok k s th reg Hreg Hget Hid Hth).
  apply IH; [done|by apply dict_pop_NoDup|]. intros k' Hk'.
  destruct (Hks k') as (s' & th' & Hget' & Hid' & Hth'); [apply elem_of_cons; auto|].
  exists s', th'. split; [|done].
  rewrite dict_get_pop_ne; [done|]. by intros ->.
Qed.

Lemma pops_cons_fresh (ks : list (string * string)) (k : string * string)
    (s : Scheduler.t) (reg : Scheduler.registry) :
  k ∉ ks -> pops ks ((k, s) :: reg) = (k, s) :: pops ks reg.
Proof.
  revert reg. induction ks as [|k' ks IH]; intros reg Hk; [done|].
  apply not_elem_of_cons in Hk as [Hne Hk]. unfold pops in *. simpl.
  rewrite decide_False by done. by apply IH.
Qed.

Lemma pops_unused (reg : Scheduler.registry) :
  NoDup (map fst reg) ->
  pops (map fst (filter unused reg)) reg = filter (fun kv => ~ unused kv) reg.
Proof.
  induction reg as [|[k s] reg IH]; intros Hnd; [done|].
  simpl in Hnd. apply NoDup_cons in Hnd as [Hk Hnd].
  rewrite !filter_cons.
  destruct (decide (unused (k, s))) as [Hu|Hu].
  - rewrite decide_False by (by intros H; apply H).
    unfold pops in *. simpl. rewrite decide_True by done. by apply IH.
  - rewrite decide_True by done.
    rewrite pops_cons_fresh; [by rewrite IH|].
    intros Hin. apply Hk. apply list_elem_of_fmap in Hin as (kv & -> & Hin).
    apply list_elem_of_fmap. exists kv. split; [done|].
    by apply list_elem_of_filter in Hin as [_ Hin].
Qed.

(** With schedulers that run a worker thread, stored under their own
    identifier, [gc(n)] removes exactly the unused schedulers as soon as
    [n] schedulers are loaded. *)
Lemma gc_removes_unused (n : Z) (reg : Scheduler.registry) :
  registry_wf pickle_dumps_hex reg ->
  n <= len reg ->
  Forall (fun kv => unused kv -> Scheduler.worker_thread kv.2 <> None) reg ->
  Scheduler.gc pickle_dumps_hex n reg
  = (filter (fun kv => ~ unused kv) reg, Ok tt).
Proof.
  intros [Hnd Hid] Hn Hth. unfold Scheduler.gc.
  assert ((len reg >=? n) = true) as -> by lia.
  fold unused. change (for_each ?ks _ reg) with (for_each ks dealloc_at reg).
  rewrite dealloc_all_ok.
  - by rewrite pops_unused.
  - eapply sublist_NoDup; [exact Hnd|]. apply fmap_sublist, sublist_filter.
  - exact Hnd.
  - intros k Hk. apply list_elem_of_fmap in Hk as ([k' s] & -> & Hin).
    apply list_elem_of_filter in Hin as [Hu Hin].
    rewrite Forall_forall in Hid, Hth.
    destruct (Scheduler.worker_thread s) as [th|] eqn:Eth;
      [|by destruct (Hth _ Hin Hu)].
    exists s, th. split; [by apply dict_get_of_elem|]. split; [|done].
    exact (Hid _ Hin).
Qed.

Lemma dealloc_each_keeps (ks : list (string * string)) (reg : Scheduler.registry)
    (k0 : string * string) (s0 : Scheduler.t) :
  NoDup (map fst reg) ->
  Forall (fun kv => identifier_of pickle_dumps_hex kv.2 = kv.1) reg ->
  k0 ∉ ks ->
  dict_get k0 reg = Some s0 ->
  dict_get k0 (for_each ks dealloc_at reg).1 = Some s0.
Proof.
  revert reg. induction ks as [|k ks IH]; intros reg Hnd Hid Hk0 Hget; [done|].
  apply not_elem_of_cons in Hk0 as [Hne Hk0].
  simpl. unfold mbind at 1.
  unfold dealloc_at at 1, Scheduler.registry_get, mbind.
  destruct (dict_get k reg) as [s|] eqn:Hk; [|done].
  cbv beta iota delta [Ok].
  assert (identifier_of pickle_dumps_hex s = k) as Hown.
  { rewrite Forall_forall in Hid. exact (Hid _ (dict_get_elem _ _ _ Hk)). }
  rewrite (dealloc_own k s reg Hnd Hown Hk).
  assert (dict_get k0 (dict_pop k reg) = Some s0) as Hget'
    by (by rewrite dict_get_pop_ne).
  destruct (Scheduler.worker_thread s); simpl; [|done].
  apply IH; [by apply dict_pop_NoDup| |done|done].
  apply Forall_forall. intros kv Hkv. rewrite Forall_forall in Hid.
  apply Hid. eapply elem_of_sublist; [exact Hkv|apply dict_pop_sublist].
Qed.

Lemma dealloc_each_sublist (ks : list (string * string))
    (reg : Scheduler.registry) :
  NoDup (map fst reg) ->
  Forall (fun kv => identifier_of pickle_dumps_hex kv.2 = kv.1) reg ->
  (for_each ks dealloc_at reg).1 `sublist_of` reg.
Proof.
  revert reg. induction ks as [|k ks IH]; intros reg Hnd Hid; [done|].
  simpl. unfold mbind at 1.
  unfold dealloc_at at 1, Scheduler.registry_get, mbind.
  destruct (dict_get k reg) as [s|] eqn:Hk; [|done].
  cbv beta iota delta [Ok].
  assert (identifier_of pickle_dumps_hex s = k) as Hown.
  { rewrite Forall_forall in Hid. exact (Hid _ (dict_get_elem _ _ _ Hk)). }
  rewrite (dealloc_own k s reg Hnd Hown Hk).
  destruct (Scheduler.worker_thread s); simpl; [|apply dict_pop_sublist].
  etrans; [|apply dict_pop_sublist].
  apply IH; [by apply dict_pop_NoDup|].
  apply Forall_forall. intros kv Hkv. rewrite Forall_forall in Hid.
  apply Hid. eapply elem_of_sublist; [exact Hkv|apply dict_pop_sublist].
Qed.

(** In a registry whose schedulers are stored under their own identifier,
    [gc(n)] only removes entries, however it ends. *)
Lemma gc_sublist (n : Z) (reg : Scheduler.registry) :
  registry_wf pickle_dumps_hex reg ->
  (Scheduler.gc pickle_dumps_hex n reg).1 `sublist_of` reg.
Proof.
  intros [Hnd Hid]. unfold Scheduler.gc. destruct (len reg >=? n); [|done].
  change (for_each ?ks _ reg) with (for_each ks dealloc_at reg).
  by apply dealloc_each_sublist.
Qed.

(** Whatever [n] is and however [gc(n)] ends, a scheduler with users stays
    in a registry whose schedulers are stored under their own identifier. *)
Lemma gc_keeps_used (n : Z) (reg : Scheduler.registry)
    (k0 : string * string) (s0 : Scheduler.t) :
  registry_wf pickle_dumps_hex reg ->
  dict_get k0 reg = Some s0 ->
  ~ unused (k0, s0) ->
  dict_get k0 (Scheduler.gc pickle_dumps_hex n reg).1 = Some s0.
Proof.
  intros [Hnd Hid] Hget Hused. unfold Scheduler.gc.
  destruct (len reg >=? n); [|done].
  fold unused. change (for_each ?ks _ reg) with (for_each ks dealloc_at reg).
  apply dealloc_each_keeps; [done|done| |done].
  intros Hin. apply list_elem_of_fmap in Hin as ([k s] & -> & Hin).
  apply list_elem_of_filter in Hin as [Hu Hin]. simpl in *.
  rewrite (dict_get_of_elem _ _ _ Hnd Hin) in Hget. injection Hget as ->.
  by apply Hused.
Qed.

End Gc.

(** C8 fails on the code: with two schedulers in [sync] mode and no user,
    [gc(0)] removes the first one and then raises [AttributeError] in
    [dealloc], because a [sync] scheduler has no [worker_thread] to join;
    the second scheduler stays in the registry with an empty [users]. *)
Theorem gc_stops_at_sync_scheduler :
  map (fun kv => (kv.1.1, Scheduler.sync kv.2, size (Scheduler.users kv.2)))
      sync_registry
  = [("m1", true, 0%nat); ("m2", true, 0%nat)] /\
  Scheduler.gc pickle_key 0 sync_registry
  = ([(("m2", pickle_key (Some [])),
       Scheduler.mk "m2" [] [] false true None ∅ 3 "<unavailable>" 0)],
     Raise AttributeError "'Scheduler' object has no attribute 'worker_thread'").
Proof. split; by vm_compute. Qed.

(** ** The registry key *)

Lemma byte_of_Z_to_N (z : Z) :
  Z.of_N (Byte.to_N (Pickle.byte_of_Z z)) = z mod 256.
Proof.
  unfold Pickle.byte_of_Z.
  pose proof (Z.mod_pos_bound z 256 ltac:(lia)) as Hb.
  pose proof (Byte.to_of_N_option_map (Z.to_N (z mod 256))) as H.
  destruct (Byte.of_N (Z.to_N (z mod 256))) as [b|]; simpl in *.
  - destruct (N.leb _ 255); [|discriminate]. injection H as ->. lia.
  - destruct (N.leb _ 255) eqn:E; [discriminate|]. apply N.leb_gt in E. lia.
Qed.

Lemma byte_of_Z_inj (z1 z2 : Z) :
  Pickle.byte_of_Z z1 = Pickle.byte_of_Z z2 -> z1 mod 256 = z2 mod 256.
Proof. intros H. by rewrite <- !byte_of_Z_to_N, H. Qed.

Lemma le_bytes_length (n : nat) (z : Z) : length (Pickle.le_bytes n z) = n.
Proof. revert z. induction n as [|n IH]; intros z; simpl; [done|]. by rewrite IH. Qed.

Lemma le_bytes_inj (n : nat) (z1 z2 : Z) :
  Pickle.le_bytes n z1 = Pickle.le_bytes n z2 ->
  z1 mod 256 ^ Z.of_nat n = z2 mod 256 ^ Z.of_nat n.
Proof.
  revert z1 z2. induction n as [|n IH]; intros z1 z2 H.
  - by rewrite !Z.mod_1_r.
  - simpl in H. injection H as H0 Hrest.
    apply byte_of_Z_inj in H0. apply IH in Hrest.
    rewrite Nat2Z.inj_succ, Z.pow_succ_r by lia.
    rewrite !Z.rem_mul_r by lia. by rewrite H0, Hrest.
Qed.

Lemma le_bytes_prefix_inj (n : nat) (z1 z2 : Z) (r1 r2 : list byte) :
  Pickle.le_bytes n z1 ++ r1 = Pickle.le_bytes n z2 ++ r2 ->
  z1 mod 256 ^ Z.of_nat n = z2 mod 256 ^ Z.of_nat n /\ r1 = r2.
Proof.
  intros H. apply app_inj_1 in H as [H ->]; [|by rewrite !le_bytes_length].
  split; [by apply le_bytes_inj|done].
Qed.

Lemma cons_app_inv {A} (x : A) (l1 l2 r1 r2 : list A) :
  (x :: l1) ++ r1 = (x :: l2) ++ r2 -> l1 ++ r1 = l2 ++ r2.
Proof. simpl. by intros [= ->]. Qed.

Opaque Pickle.le_bytes.

Lemma save_int_inj (z1 z2 : Z) (b1 b2 r1 r2 : list byte) :
  Pickle.save_int z1 = Some b1 -> Pickle.save_int z2 = Some b2 ->
  b1 ++ r1 = b2 ++ r2 -> z1 = z2 /\ r1 = r2.
Proof.
  unfold Pickle.save_int.
  destruct ((0 <=? z1) && (z1 <? 256)) eqn:A1;
    [|destruct ((0 <=? z1) && (z1 <? 65536)) eqn:B1;
      [|destruct ((-2147483648 <=? z1) && (z1 <? 2147483648)) eqn:C1; [|done]]];
  (destruct ((0 <=? z2) && (z2 <? 256)) eqn:A2;
    [|destruct ((0 <=? z2) && (z2 <? 65536)) eqn:B2;
      [|destruct ((-2147483648 <=? z2) && (z2 <? 2147483648)) eqn:C2; [|done]]]);
  intros [= <-] [= <-] H; try discriminate H;
  apply cons_app_inv, le_bytes_prefix_inj in H as [H ->];
  (split; [|done]);
  repeat match goal with
         | E : (_ && _) = true |- _ => apply andb_prop in E as [? ?]
         | E : (_ && _) = false |- _ => apply andb_false_iff in E as [?|?]
         | E : (_ <=? _) = true |- _ => apply Z.leb_le in E
         | E : (_ <? _) = true |- _ => apply Z.ltb_lt in E
         | E : (_ <=? _) = false |- _ => apply Z.leb_gt in E
         | E : (_ <? _) = false |- _ => apply Z.ltb_ge in E
         end;
  change (256 ^ Z.of_nat 1) with 256 in H;
  change (256 ^ Z.of_nat 2) with 65536 in H;
  change (256 ^ Z.of_nat 4) with 4294967296 in H;
  Z.div_mod_to_equations; lia.
Qed.

Transparent Pickle.le_bytes.

Lemma save_value_inj (v1 v2 : pyval) (b1 b2 r1 r2 : list byte) :
  Pickle.save_value v1 = Some b1 -> Pickle.save_value v2 = Some b2 ->
  b1 ++ r1 = b2 ++ r2 -> v1 = v2 /\ r1 = r2.
Proof.
  assert (forall z b, Pickle.save_int z = Some b ->
            exists op rest, b = op :: rest /\ (op = x4b \/ op = x4d \/ op = x4a))
    as Hop.
  { intros z b. unfold Pickle.save_int.
    repeat case_match; try discriminate; intros [= <-]; eauto 6. }
  destruct v1 as [|[]|z1| | |], v2 as [|[]|z2| | |]; simpl;
    try discriminate;
    try (intros [= <-] [= <-] [= <-]; done);
    try (intros [= <-] H2 H; destruct (Hop _ _ H2) as (op & rest & -> & [->|[->| ->]]);
         discriminate H);
    try (intros H1 [= <-] H; destruct (Hop _ _ H1) as (op & rest & -> & [->|[->| ->]]);
         discriminate H).
  intros H1 H2 H. destruct (save_int_inj z1 z2 b1 b2 r1 r2 H1 H2 H) as [-> ->]. done.
Qed.

Lemma save_str_inj (s1 s2 : string) (b1 b2 r1 r2 : list byte) :
  Pickle.save_str s1 = Some b1 -> Pickle.save_str s2 = Some b2 ->
  b1 ++ r1 = b2 ++ r2 -> s1 = s2 /\ r1 = r2.
Proof.
  unfold Pickle.save_str.
  destruct (length (list_byte_of_string s1) <? 256)%nat eqn:L1; [|done].
  destruct (length (list_byte_of_string s2) <? 256)%nat eqn:L2; [|done].
  apply Nat.ltb_lt in L1, L2.
  intros [= <-] [= <-] H. simpl in H. injection H as Hlen H.
  apply byte_of_Z_inj in Hlen. rewrite !Z.mod_small in Hlen by lia.
  rewrite <- !app_assoc in H.
  apply app_inj_1 in H as [Hbs H]; [|lia].
  injection H as ->. split; [|done].
  by rewrite <- (string_of_list_byte_of_string s1),
             <- (string_of_list_byte_of_string s2), Hbs.
Qed.

Lemma save_str_head (s : string) (b : list byte) :
  Pickle.save_str s = Some b -> exists b', b = x8c :: b'.
Proof.
  unfold Pickle.save_str. case_match; [|done]. intros [= <-]. eauto.
Qed.

Lemma save_item_inv (kv : string * pyval) (b : list byte) :
  Pickle.save_item kv = Some b ->
  exists k v, Pickle.save_str kv.1 = Some k /\ Pickle.save_value kv.2 = Some v /\
              b = k ++ v.
Proof.
  unfold Pickle.save_item.
  destruct (Pickle.save_str kv.1) as [k|]; simpl; [|done].
  destruct (Pickle.save_value kv.2) as [v|]; simpl; [|done].
  intros [= <-]. eauto.
Qed.

Lemma save_item_head (kv : string * pyval) (b : list byte) :
  Pickle.save_item kv = Some b -> exists b', b = x8c :: b'.
Proof.
  intros H. apply save_item_inv in H as (k & v & Hk & _ & ->).
  apply save_str_head in Hk as [k' ->]. simpl. eauto.
Qed.

Lemma save_item_inj (kv1 kv2 : string * pyval) (b1 b2 r1 r2 : list byte) :
  Pickle.save_item kv1 = Some b1 -> Pickle.save_item kv2 = Some b2 ->
  b1 ++ r1 = b2 ++ r2 -> kv1 = kv2 /\ r1 = r2.
Proof.
  intros H1 H2 H.
  apply save_item_inv in H1 as (k1 & v1 & Hk1 & Hv1 & ->).
  apply save_item_inv in H2 as (k2 & v2 & Hk2 & Hv2 & ->).
  rewrite <- !app_assoc in H.
  destruct (save_str_inj _ _ _ _ _ _ Hk1 Hk2 H) as [Hk H'].
  destruct (save_value_inj _ _ _ _ _ _ Hv1 Hv2 H') as [Hv ->].
  split; [|done]. destruct kv1, kv2; simpl in *. by subst.
Qed.

Lemma save_items_inj (d1 d2 : dict string pyval) (b1 b2 r1 r2 : list byte)
    (stop : byte) :
  stop <> x8c ->
  Pickle.save_items d1 = Some b1 -> Pickle.save_items d2 = Some b2 ->
  b1 ++ stop :: r1 = b2 ++ stop :: r2 -> d1 = d2.
Proof.
  intros Hstop. unfold Pickle.save_items.
  revert d2 b1 b2. induction d1 as [|kv1 d1 IH]; intros d2 b1 b2.
  - destruct d2 as [|kv2 d2]; [done|]. simpl.
    destruct (Pickle.save_item kv2) as [i2|] eqn:E2; simpl; [|done].
    destruct (mapM Pickle.save_item d2) as [bs2|]; simpl; [|done].
    intros [= <-] [= <-] H. apply save_item_head in E2 as [i2' ->].
    simpl in H. by injection H.
  - simpl.
    destruct (Pickle.save_item kv1) as [i1|] eqn:E1; simpl; [|done].
    destruct (mapM Pickle.save_item d1) as [bs1|] eqn:M1; simpl; [|done].
    destruct d2 as [|kv2 d2]; simpl.
    + intros [= <-] [= <-] H. apply save_item_head in E1 as [i1' ->].
      simpl in H. injection H as H _. by destruct Hstop.
    + destruct (Pickle.save_item kv2) as [i2|] eqn:E2; simpl; [|done].
      destruct (mapM Pickle.save_item d2) as [bs2|] eqn:M2; simpl; [|done].
      intros [= <-] [= <-] H. rewrite <- !app_assoc in H.
      destruct (save_item_inj _ _ _ _ _ _ E1 E2 H) as [-> H'].
      f_equal. apply (IH d2 (concat bs1) (concat bs2)); [done| |done].
      by rewrite M2.
Qed.

Lemma save_dict_inj (d1 d2 : dict string pyval) (p1 p2 : list byte) :
  Pickle.save_dict d1 = Some p1 -> Pickle.save_dict d2 = Some p2 ->
  p1 = p2 -> d1 = d2.
Proof.
  unfold Pickle.save_dict.
  destruct (1000 <? len d1); [done|].
  destruct (1000 <? len d2); [done|].
  destruct (Pickle.save_items d1) as [b1|] eqn:E1; simpl; [|done].
  destruct (Pickle.save_items d2) as [b2|] eqn:E2; simpl; [|done].
  intros [= <-] [= <-] H. injection H as H.
  assert (forall kv b, Pickle.save_items [kv] = Some b -> Pickle.save_item kv = Some b)
    as Hone.
  { intros kv b. unfold Pickle.save_items. simpl.
    destruct (Pickle.save_item kv); simpl; [|done]. by rewrite app_nil_r. }
  destruct d1 as [|kv1 [|kv1' d1]], d2 as [|kv2 [|kv2' d2]]; try done.
  - by destruct b2.
  - by destruct b1.
  - apply Hone in E1, E2.
    by destruct (save_item_inj _ _ _ _ _ _ E1 E2 H) as [-> _].
  - apply Hone, save_item_head in E1 as [b' ->]. discriminate H.
  - apply Hone, save_item_head in E2 as [b' ->]. discriminate H.
  - injection H as H. by apply (save_items_inj _ _ b1 b2 [] [] x75).
Qed.

Lemma frame_inj (p1 p2 : list byte) :
  Pickle.frame (x7d :: p1) = Pickle.frame (x7d :: p2) -> p1 = p2.
Proof.
  unfold Pickle.frame.
  destruct (4 <=? length (x7d :: p1))%nat, (4 <=? length (x7d :: p2))%nat;
    intros H; try discriminate H.
  - apply cons_app_inv in H.
    apply app_inj_1 in H as [_ H]; [|by rewrite !le_bytes_length].
    by injection H.
  - by injection H.
Qed.

Lemma save_dict_head (d : dict string pyval) (p : list byte) :
  Pickle.save_dict d = Some p -> exists p', p = x7d :: p'.
Proof.
  unfold Pickle.save_dict. case_match; [done|].
  destruct (Pickle.save_items d); simpl; [|done]. intros [= <-]. eauto.
Qed.

Lemma dumps_inj (d1 d2 : dict string pyval) (bs : list byte) :
  Pickle.dumps (Some d1) = Some bs -> Pickle.dumps (Some d2) = Some bs -> d1 = d2.
Proof.
  unfold Pickle.dumps.
  destruct (Pickle.save_dict d1) as [p1|] eqn:E1; simpl; [|done].
  destruct (Pickle.save_dict d2) as [p2|] eqn:E2; simpl; [|done].
  repeat case_match; try done. intros [= <-] [= Heq].
  destruct (save_dict_head _ _ E1) as [p1' ->].
  destruct (save_dict_head _ _ E2) as [p2' ->].
  symmetry in Heq. apply frame_inj, app_inj_tail in Heq as [Heq _].
  eapply save_dict_inj; [exact E1|exact E2|by rewrite Heq].
Qed.

Lemma hex_digit_inj (n m : N) :
  (n < 16)%N -> (m < 16)%N -> Pickle.hex_digit n = Pickle.hex_digit m -> n = m.
Proof.
  intros Hn Hm.
  assert (forall k, (k < 16)%N -> exists i, (i < 16)%nat /\ k = N.of_nat i) as Hnat.
  { intros k Hk. exists (N.to_nat k). split; lia. }
  destruct (Hnat n Hn) as (i & Hi & ->), (Hnat m Hm) as (j & Hj & ->).
  do 16 (destruct i as [|i]; [do 16 (destruct j as [|j]; [by vm_compute|]); lia|]).
  lia.
Qed.

Lemma hex_byte_inj (b1 b2 : byte) : Pickle.hex_byte b1 = Pickle.hex_byte b2 -> b1 = b2.
Proof.
  unfold Pickle.hex_byte. intros [= Hhi Hlo].
  pose proof (Byte.to_N_bounded b1). pose proof (Byte.to_N_bounded b2).
  apply hex_digit_inj in Hhi; [|apply N.Div0.div_lt_upper_bound; lia..].
  apply hex_digit_inj in Hlo; [|apply N.mod_lt; lia..].
  assert (Byte.to_N b1 = Byte.to_N b2) as Heq.
  { rewrite (N.div_mod' (Byte.to_N b1) 16), (N.div_mod' (Byte.to_N b2) 16).
    by rewrite Hhi, Hlo. }
  apply (f_equal Byte.of_N) in Heq. rewrite !Byte.of_to_N in Heq. by injection Heq.
Qed.

Lemma hex_inj (bs1 bs2 : list byte) : Pickle.hex bs1 = Pickle.hex bs2 -> bs1 = bs2.
Proof.
  revert bs2. induction bs1 as [|b1 bs1 IH]; intros [|b2 bs2]; simpl; try done.
  intros [= Hhi Hlo Hrest]. f_equal; [|by apply IH].
  apply hex_byte_inj. unfold Pickle.hex_byte. by rewrite Hhi, Hlo.
Qed.

Lemma dumps_hex_inj (a1 a2 : option (dict string pyval)) (key : string) :
  Pickle.dumps_hex a1 = Some key -> Pickle.dumps_hex a2 = Some key -> a1 = a2.
Proof.
  unfold Pickle.dumps_hex.
  destruct (Pickle.dumps a1) as [bs1|] eqn:E1; simpl; [|done].
  destruct (Pickle.dumps a2) as [bs2|] eqn:E2; simpl; [|done].
  intros [= <-] [= H]. apply hex_inj in H as ->.
  assert (forall d bs, Pickle.dumps (Some d) = Some bs ->
            exists b rest, bs = x80 :: x04 :: b :: rest /\ b <> x4e) as Hdict.
  { intros d bs. unfold Pickle.dumps.
    destruct (Pickle.save_dict d) as [p|] eqn:E; simpl; [|done].
    apply save_dict_head in E as [p' ->]. case_match; [|done].
    intros [= <-]. unfold Pickle.frame. case_match; simpl; eauto. }
  destruct a1 as [d1|], a2 as [d2|]; [| | |done].
  - f_equal. by eapply dumps_inj.
  - destruct (Hdict _ _ E1) as (b & rest & -> & Hb). simpl in E2. by injection E2.
  - destruct (Hdict _ _ E2) as (b & rest & -> & Hb). simpl in E1. by injection E1.
Qed.

(** C5, as the code has it: on model arguments that [Pickle] covers, the
    registry key of [Scheduler.instance] and [Scheduler.dealloc] is the same for two
    argument values if and only if they are the same value, that is the
    same key-value pairs in the same insertion order.  Equal mappings that
    were filled in a different order, which compare equal in Python, get
    different keys and so different scheduler entries. *)
Theorem registry_key_eq_iff (a1 a2 : option (dict string pyval)) (k1 k2 : string) :
  Pickle.dumps_hex a1 = Some k1 ->
  Pickle.dumps_hex a2 = Some k2 ->
  (k1 = k2 <-> a1 = a2).
Proof.
  intros H1 H2. split.
  - intros <-. by eapply dumps_hex_inj.
  - intros <-. rewrite H1 in H2. by injection H2.
Qed.

Lemma registry_key_eq_iff_witness :
  Pickle.dumps_hex (Some args_ab)
    = Some "80049511000000000000007d94288c0161944b018c0162944b02752e" /\
  Pickle.dumps_hex (Some args_ba)
    = Some "80049511000000000000007d94288c0162944b028c0161944b01752e" /\
  ("80049511000000000000007d94288c0161944b018c0162944b02752e"
   = "80049511000000000000007d94288c0162944b028c0161944b01752e"
   <-> Some args_ab = Some args_ba).
Proof.
  split; [reflexivity|]. split; [reflexivity|].
  exact (registry_key_eq_iff (Some args_ab) (Some args_ba) _ _ eq_refl eq_refl).
Defined.


(** C5, as stated, fails: [{"a": 1, "b": 2}] and [{"b": 2, "a": 1}] hold the
    same key-value pairs and are pickled to different bytes. *)
Lemma registry_key_depends_on_order :
  ~ (forall (d1 d2 : dict string pyval) (k1 k2 : string),
       Pickle.dumps_hex (Some d1) = Some k1 ->
       Pickle.dumps_hex (Some d2) = Some k2 ->
       (k1 = k2 <-> Pickle.same_items d1 d2)).
Proof.
  intros H.
  destruct (H args_ab args_ba
              "80049511000000000000007d94288c0161944b018c0162944b02752e"
              "80049511000000000000007d94288c0162944b028c0161944b01752e"
              eq_refl eq_refl) as [_ Hkey].
  assert (Pickle.same_items args_ab args_ba) as Hsame.
  { intros k. unfold args_ab, args_ba. simpl.
    destruct (decide ("a" = k)) as [<-|]; [done|].
    by destruct (decide ("b" = k)). }
  discriminate (Hkey Hsame).
Qed.

(** With these two values of the same arguments, [Scheduler.instance]
    creates two schedulers for one model. *)
Lemma reordered_args_two_schedulers :
  let reg := (Scheduler.instance pickle_key 1 "m" (Some args_ab) (Some 1%nat)
                                 false false []).1 in
  let reg := (Scheduler.instance pickle_key 2 "m" (Some args_ba) (Some 2%nat)
                                 false false reg).1 in
  map (fun kv => (kv.1.1, Scheduler.model_args kv.2)) reg
  = [("m", args_ab); ("m", args_ba)].
Proof. by vm_compute. Qed.

(** * Further properties *)

(** ** Compatibility keys and the order of the options *)

Lemma string_leb_trans (s1 s2 s3 : string) :
  String.leb s1 s2 = true -> String.leb s2 s3 = true -> String.leb s1 s3 = true.
Proof.
  unfold String.leb.
  assert (forall a b c,
            String.compare a b <> Gt -> String.compare b c <> Gt ->
            String.compare a c <> Gt) as Htrans.
  { induction a as [|x a IH]; intros [|y b] [|z c]; simpl; try done.
    unfold Ascii.compare.
    destruct (N.compare_spec (N_of_ascii x) (N_of_ascii y)) as [Hxy|Hxy|Hxy];
      destruct (N.compare_spec (N_of_ascii y) (N_of_ascii z)) as [Hyz|Hyz|Hyz];
      destruct (N.compare_spec (N_of_ascii x) (N_of_ascii z)) as [Hxz|Hxz|Hxz];
      try done; try lia.
    apply IH. }
  intros H12 H23. specialize (Htrans s1 s2 s3).
  destruct (String.compare s1 s2), (String.compare s2 s3), (String.compare s1 s3);
    try done; exfalso; by apply Htrans.
Qed.

Lemma insert_item_perm (kv : string * pyval) (l : list (string * pyval)) :
  insert_item kv l ≡ₚ kv :: l.
Proof.
  induction l as [|kv' l IH]; simpl; [done|].
  destruct (String.leb kv.1 kv'.1); [done|]. rewrite IH. apply Permutation_swap.
Qed.

Lemma sorted_items_perm (d : dict string pyval) : sorted_items d ≡ₚ d.
Proof.
  unfold sorted_items. induction d as [|kv d IH]; simpl; [done|].
  by rewrite insert_item_perm, IH.
Qed.

Lemma insert_item_sorted (kv : string * pyval) (l : list (string * pyval)) :
  sorted_by_key l -> sorted_by_key (insert_item kv l).
Proof.
  induction l as [|kv' l IH]; simpl; [done|]. intros [Hall Hl].
  destruct (String.leb kv.1 kv'.1) eqn:Hle; simpl.
  - split; [|done]. constructor; [done|].
    eapply Forall_impl; [exact Hall|]. simpl. intros x Hx.
    by eapply string_leb_trans.
  - split; [|by apply IH]. rewrite insert_item_perm. constructor; [|done].
    destruct (String.leb_total kv.1 kv'.1) as [H|H]; [congruence|done].
Qed.

Lemma sorted_items_sorted (d : dict string pyval) : sorted_by_key (sorted_items d).
Proof.
  unfold sorted_items. induction d as [|kv d IH]; simpl; [done|].
  by apply insert_item_sorted.
Qed.

Lemma sorted_by_key_unique (l1 l2 : list (string * pyval)) :
  sorted_by_key l1 -> sorted_by_key l2 -> l1 ≡ₚ l2 -> NoDup (map fst l1) ->
  l1 = l2.
Proof.
  revert l2. induction l1 as [|a l1 IH]; intros l2 H1 H2 Hperm Hnd.
  - by apply Permutation_nil in Hperm.
  - destruct l2 as [|b l2]; [by apply Permutation_sym, Permutation_nil in Hperm|].
    simpl in H1, H2, Hnd. destruct H1 as [Ha H1], H2 as [Hb H2].
    apply NoDup_cons in Hnd as [Hk Hnd].
    assert (a = b) as <-.
    { assert (a ∈ b :: l2) as Hin2 by (rewrite <- Hperm; apply elem_of_cons; auto).
      assert (b ∈ a :: l1) as Hin1 by (rewrite Hperm; apply elem_of_cons; auto).
      apply elem_of_cons in Hin2 as [->|Hin2]; [done|].
      apply elem_of_cons in Hin1 as [->|Hin1]; [done|].
      rewrite Forall_forall in Ha, Hb.
      destruct Hk. apply list_elem_of_fmap. exists b. split; [|done].
      apply String.leb_antisym; [by apply Ha|by apply Hb]. }
    f_equal. apply IH; try done. by eapply Permutation_cons_inv.
Qed.

Lemma sorted_items_permutation (d1 d2 : dict string pyval) :
  NoDup (map fst d1) -> d1 ≡ₚ d2 -> sorted_items d1 = sorted_items d2.
Proof.
  intros Hnd Hperm. apply sorted_by_key_unique; try apply sorted_items_sorted.
  - by rewrite !sorted_items_perm.
  - by rewrite sorted_items_perm.
Qed.

Lemma filter_all {A} (P : A -> Prop) `{!forall x, Decision (P x)} (l : list A) :
  Forall P l -> filter P l = l.
Proof.
  induction 1 as [|x l Hx Hl IH]; [done|].
  by rewrite filter_cons, decide_True, IH.
Qed.

Section DictOrder.
Context {K V : Type} `{EqDecision K}.
Implicit Types (d : list (K * V)) (k : K) (v : V).

Lemma dict_get_None d k : dict_get k d = None <-> k ∉ map fst d.
Proof.
  induction d as [|[k' v'] d IH]; simpl.
  - split; [intros _; apply not_elem_of_nil|done].
  - destruct (decide (k' = k)) as [->|Hne].
    + split; [done|]. intros H. destruct H. apply elem_of_cons. by left.
    + rewrite IH. split.
      * intros H [?|?]%elem_of_cons; [congruence|done].
      * intros H Hin. apply H, elem_of_cons. by right.
Qed.

Lemma dict_get_perm d1 d2 k :
  NoDup (map fst d1) -> d1 ≡ₚ d2 -> dict_get k d1 = dict_get k d2.
Proof.
  intros Hnd Hperm.
  assert (NoDup (map fst d2)) as Hnd2 by (by rewrite <- Hperm).
  destruct (dict_get k d1) as [v|] eqn:H1.
  - symmetry. apply dict_get_of_elem; [done|]. rewrite <- Hperm.
    by apply dict_get_elem.
  - symmetry. apply dict_get_None. rewrite <- Hperm. by apply dict_get_None.
Qed.

Lemma dict_pop_filter d k :
  NoDup (map fst d) -> dict_pop k d = filter (fun kv => kv.1 <> k) d.
Proof.
  induction d as [|[k' v'] d IH]; intros Hnd; [done|].
  cbn [map fst] in Hnd. apply NoDup_cons in Hnd as [Hk Hnd].
  cbn [dict_pop]. rewrite filter_cons. cbn [fst].
  destruct (decide (k' = k)) as [->|Hne].
  - rewrite decide_False by (by intros H'; apply H').
    symmetry. apply filter_all. apply Forall_forall. intros [k0 v0] Hin Heq.
    simpl in Heq. subst k0.
    apply Hk. apply list_elem_of_fmap. by exists (k, v0).
  - rewrite decide_True by done. by rewrite IH.
Qed.

Lemma dict_pop_perm d1 d2 k :
  NoDup (map fst d1) -> d1 ≡ₚ d2 -> dict_pop k d1 ≡ₚ dict_pop k d2.
Proof.
  intros Hnd Hperm.
  rewrite !dict_pop_filter by (by rewrite <- ?Hperm). by rewrite Hperm.
Qed.

Lemma dict_setdefault_perm d1 d2 k v :
  NoDup (map fst d1) -> d1 ≡ₚ d2 ->
  dict_setdefault k v d1 ≡ₚ dict_setdefault k v d2.
Proof.
  intros Hnd Hperm. unfold dict_setdefault.
  rewrite <- (dict_get_perm d1 d2 k Hnd Hperm).
  destruct (dict_get k d1); [done|]. by rewrite Hperm.
Qed.

Lemma dict_setdefault_NoDup d k v :
  NoDup (map fst d) -> NoDup (map fst (dict_setdefault k v d)).
Proof.
  intros Hnd. unfold dict_setdefault.
  destruct (dict_get k d) eqn:Hget; [done|].
  rewrite map_app. apply NoDup_app. split; [done|]. split.
  - intros x Hx [->|[]%elem_of_nil]%elem_of_cons. by apply dict_get_None in Hget.
  - apply NoDup_singleton.
Qed.

Lemma dict_pop_set_eq d k v : dict_pop k (dict_set k v d) = dict_pop k d.
Proof.
  induction d as [|[k' v'] d IH]; simpl.
  - by rewrite decide_True.
  - destruct (decide (k' = k)) as [->|Hne]; simpl.
    + by rewrite decide_True.
    + by rewrite decide_False, IH.
Qed.

Lemma dict_pop_set_ne d k k' v :
  k <> k' -> dict_pop k (dict_set k' v d) = dict_set k' v (dict_pop k d).
Proof.
  intros Hne. induction d as [|[k0 v0] d IH]; simpl.
  - by rewrite decide_False.
  - destruct (decide (k0 = k')) as [->|Hne']; simpl.
    + rewrite !decide_False by done. simpl. by rewrite decide_True.
    + destruct (decide (k0 = k)) as [->|Hne0]; [done|].
      simpl. by rewrite decide_False, IH.
Qed.

Lemma dict_set_fresh d k v : dict_get k d = None -> dict_set k v d = d ++ [(k, v)].
Proof.
  induction d as [|[k' v'] d IH]; simpl; [done|].
  destruct (decide (k' = k)); [done|]. intros H. by rewrite IH.
Qed.

Lemma dict_pop_app_ne d k k' v :
  k <> k' -> dict_pop k (d ++ [(k', v)]) = dict_pop k d ++ [(k', v)].
Proof.
  intros Hne. induction d as [|[k0 v0] d IH]; simpl.
  - by rewrite decide_False.
  - destruct (decide (k0 = k)); [done|]. by rewrite IH.
Qed.

End DictOrder.

(** [generation_mode] does not read [max_tokens] and [top_logprobs]: a call
    keeps its compatibility key when one of the two options is set to any
    value, be it new or already present.  Calls that differ in these two
    options only share a batch. *)
Theorem generation_mode_ignores_limits (c : GenerateCall.t) (v : pyval) :
  GenerateCall.generation_mode
    (with_kwargs c (dict_set "max_tokens" v (GenerateCall.kwargs c)))
  = GenerateCall.generation_mode c /\
  GenerateCall.generation_mode
    (with_kwargs c (dict_set "top_logprobs" v (GenerateCall.kwargs c)))
  = GenerateCall.generation_mode c.
Proof.
  unfold GenerateCall.generation_mode, GenerateCall.kw_score, dict_get_default.
  simpl. split.
  - rewrite dict_get_set_ne by done. by rewrite dict_pop_set_eq.
  - rewrite dict_get_set_ne by done.
    by rewrite dict_pop_set_ne, dict_pop_set_eq.
Qed.

(** [generation_mode] sorts the options before it joins them: two calls
    whose keyword arguments hold the same items, in whatever insertion
    order, have the same compatibility key (unlike the registry key of the
    model arguments, which depends on the order). *)
Theorem generation_mode_order_independent (c1 c2 : GenerateCall.t) :
  NoDup (map fst (GenerateCall.kwargs c1)) ->
  GenerateCall.kwargs c1 ≡ₚ GenerateCall.kwargs c2 ->
  GenerateCall.generation_mode c1 = GenerateCall.generation_mode c2.
Proof.
  intros Hnd Hperm.
  unfold GenerateCall.generation_mode, GenerateCall.kw_score, dict_get_default.
  rewrite <- (dict_get_perm _ _ "score" Hnd Hperm).
  destruct (truthy _); [done|]. do 3 f_equal.
  apply sorted_items_permutation.
  - by apply dict_setdefault_NoDup, dict_pop_NoDup, dict_pop_NoDup.
  - apply dict_setdefault_perm; [by apply dict_pop_NoDup, dict_pop_NoDup|].
    apply dict_pop_perm; [by apply dict_pop_NoDup|]. by apply dict_pop_perm.
Qed.

Lemma generation_mode_order_independent_witness :
  NoDup (map fst (GenerateCall.kwargs call_topk_first)) /\
  GenerateCall.kwargs call_topk_first ≡ₚ GenerateCall.kwargs call_temperature_first /\
  GenerateCall.generation_mode call_topk_first
  = GenerateCall.generation_mode call_temperature_first.
Proof.
  assert (NoDup (map fst (GenerateCall.kwargs call_topk_first))) as H1
    by (apply (bool_decide_unpack _); reflexivity).
  assert (GenerateCall.kwargs call_topk_first
          ≡ₚ GenerateCall.kwargs call_temperature_first) as H2
    by apply Permutation_swap.
  split; [exact H1|]. split; [exact H2|].
  exact (generation_mode_order_independent call_topk_first call_temperature_first
           H1 H2).
Defined.

(** A call without [temperature] and the same call with the default
    [temperature = 0.0] written out have the same compatibility key. *)
Theorem generation_mode_default_temperature (c : GenerateCall.t) :
  dict_get "temperature" (GenerateCall.kwargs c) = None ->
  GenerateCall.generation_mode
    (with_kwargs c (dict_set "temperature" (VFloat "0.0") (GenerateCall.kwargs c)))
  = GenerateCall.generation_mode c.
Proof.
  intros Hnone.
  unfold GenerateCall.generation_mode, GenerateCall.kw_score, dict_get_default.
  simpl. rewrite dict_get_set_ne by done.
  destruct (truthy _); [done|]. do 3 f_equal.
  rewrite (dict_set_fresh _ _ _ Hnone), !dict_pop_app_ne by done.
  assert (dict_get "temperature"
            (dict_pop "top_logprobs" (dict_pop "max_tokens" (GenerateCall.kwargs c)))
          = None) as Hpops by (by rewrite !dict_get_pop_ne).
  unfold dict_setdefault.
  by rewrite (dict_get_app_fresh _ _ _ Hpops), Hpops.
Qed.

Lemma generation_mode_default_temperature_witness :
  dict_get "temperature" (GenerateCall.kwargs call_top3) = None /\
  GenerateCall.generation_mode
    (with_kwargs call_top3
       (dict_set "temperature" (VFloat "0.0") (GenerateCall.kwargs call_top3)))
  = GenerateCall.generation_mode call_top3.
Proof.
  split; [reflexivity|].
  exact (generation_mode_default_temperature call_top3 eq_refl).
Defined.

(** ** What a batch is built from *)

(** On calls whose integer options are ints, [GenerateBatch.from_calls]
    fails in two cases only: on an empty list, with the [ValueError] of
    [max], and on a list that holds score calls and other calls, with the
    [AssertionError] "cannot mix score and non-score calls in batch".  On
    every other list it returns a batch of these calls, which is a score
    batch exactly when all of them are score calls. *)
Theorem from_calls_outcome (calls : list GenerateCall.t) :
  forallb typed_call calls = true ->
  match GenerateBatch.from_calls calls with
  | inl e =>
      (calls = [] /\ exn_class e = ValueError) \/
      (calls <> [] /\
       existsb GenerateCall.kw_score calls = true /\
       forallb GenerateCall.kw_score calls = false /\
       e = PyExn AssertionError "cannot mix score and non-score calls in batch")
  | inr b =>
      calls <> [] /\
      GenerateBatch.calls b = calls /\
      GenerateBatch.is_score b = forallb GenerateCall.kw_score calls /\
      existsb GenerateCall.kw_score calls = forallb GenerateCall.kw_score calls
  end.
Proof.
  intros Htyped.
  destruct (decide (calls = [])) as [->|Hne]; [left; by split|].
  rewrite forallb_forall in Htyped.
  unfold GenerateBatch.from_calls.
  destruct (py_max_ok (map len (map GenerateCall.prompt calls)))
    as [max_len ->]; [by destruct calls|].
  assert (exists c0, py_index calls 0 = Ok c0) as [c0 ->].
  { destruct calls as [|c0 calls']; [done|]. by exists c0. }
  simpl rbind.
  destruct (rmapM_ok_ex
              (fun c => py_int (dict_get_default "max_tokens" (VInt 32)
                                  (GenerateCall.kwargs c))) calls) as [mts Hmts].
  { intros c Hc. apply int_option_ok.
    by apply typed_call_inv, Htyped, list_elem_of_In. }
  rewrite Hmts. simpl rbind.
  destruct (py_max_ok mts) as [mt ->].
  { apply rmapM_length in Hmts. destruct mts; [|done].
    destruct calls; [done|discriminate]. }
  simpl rbind.
  destruct (existsb GenerateCall.kw_score calls) eqn:Hany;
    destruct (forallb GenerateCall.kw_score calls) eqn:Hall; simpl andb; cbv iota.
  - destruct (rmapM_ok_ex
                (fun c => off <~ py_int (dict_get_default "scoring_offset" (VInt 0)
                                           (GenerateCall.kwargs c));
                          Ok (off + (max_len - len (GenerateCall.prompt c))))
                calls) as [offs ->].
    { intros c Hc.
      destruct (int_option_ok "scoring_offset" 0 c) as [n ->]; [|simpl; eauto].
      by apply typed_call_inv, Htyped, list_elem_of_In. }
    simpl. done.
  - right. done.
  - exfalso. destruct calls as [|c calls']; [done|].
    simpl in Hany, Hall. apply andb_prop in Hall as [H0 _].
    rewrite H0 in Hany. discriminate.
  - simpl. done.
Qed.

Lemma from_calls_outcome_witness :
  forallb typed_call mixed_mode_calls = true /\
  match GenerateBatch.from_calls mixed_mode_calls with
  | inl e =>
      (mixed_mode_calls = [] /\ exn_class e = ValueError) \/
      (mixed_mode_calls <> [] /\
       existsb GenerateCall.kw_score mixed_mode_calls = true /\
       forallb GenerateCall.kw_score mixed_mode_calls = false /\
       e = PyExn AssertionError "cannot mix score and non-score calls in batch")
  | inr b =>
      mixed_mode_calls <> [] /\
      GenerateBatch.calls b = mixed_mode_calls /\
      GenerateBatch.is_score b = forallb GenerateCall.kw_score mixed_mode_calls /\
      existsb GenerateCall.kw_score mixed_mode_calls
      = forallb GenerateCall.kw_score mixed_mode_calls
  end.
Proof.
  split; [reflexivity|].
  exact (from_calls_outcome mixed_mode_calls eq_refl).
Defined.

(** The token limit of a batch is the largest [max_tokens] of its calls,
    32 standing for a call that gives none: it is the limit of one of the
    calls and no call has a larger one, so a call can run for more tokens
    than it asked for.  The temperature is that of the first call only,
    0.0 when it gives none, and there is one logit bias per call, empty
    for a call without one. *)
Theorem from_calls_shared_options (calls : list GenerateCall.t)
    (b : GenerateBatch.t) :
  GenerateBatch.from_calls calls = Ok b ->
  (exists c, c ∈ calls /\
     py_int (dict_get_default "max_tokens" (VInt 32) (GenerateCall.kwargs c))
     = Ok (GenerateBatch.max_tokens b)) /\
  (forall c, c ∈ calls ->
     exists n,
       py_int (dict_get_default "max_tokens" (VInt 32) (GenerateCall.kwargs c))
       = Ok n /\ n <= GenerateBatch.max_tokens b) /\
  (exists c0, head calls = Some c0 /\
     GenerateBatch.temperature b
     = dict_get_default "temperature" (VFloat "0.0") (GenerateCall.kwargs c0)) /\
  GenerateBatch.logit_biases b
  = map (fun c => default [] (GenerateCall.logit_bias c)) calls.
Proof.
  unfold GenerateBatch.from_calls. intros H.
  destruct (py_max _) as [e1|max_len] eqn:E1; simpl in H; [discriminate|].
  destruct (py_index calls 0) as [e2|c0] eqn:E2; simpl in H; [discriminate|].
  destruct (rmapM _ calls) as [e3|mts] eqn:E3 in H; simpl in H; [discriminate|].
  destruct (py_max mts) as [e4|mt] eqn:E4; simpl in H; [discriminate|].
  assert (GenerateBatch.max_tokens b = mt /\
          GenerateBatch.temperature b
          = dict_get_default "temperature" (VFloat "0.0") (GenerateCall.kwargs c0) /\
          GenerateBatch.logit_biases b
          = map (fun c => default [] (GenerateCall.logit_bias c)) calls)
    as (-> & Htemp & Hbias).
  { destruct (existsb GenerateCall.kw_score calls); simpl in H.
    - destruct (forallb GenerateCall.kw_score calls); simpl in H; [|done].
      destruct (rmapM _ calls) as [e5|offs] in H; simpl in H; [discriminate|].
      by injection H as <-.
    - by injection H as <-. }
  clear H. apply py_max_spec in E4 as [Hin Hle].
  split; [|split; [|split; [|done]]].
  - apply list_elem_of_lookup in Hin as [i Hi].
    destruct (lookup_lt_is_Some_2 calls i) as [c Hc].
    { rewrite <- (rmapM_length _ _ _ E3). by eapply lookup_lt_Some. }
    destruct (rmapM_lookup _ _ _ _ _ E3 Hc) as (n & Hn & Hi').
    exists c. split; [by eapply list_elem_of_lookup_2|]. congruence.
  - intros c Hc. apply list_elem_of_lookup in Hc as [i Hi].
    destruct (rmapM_lookup _ _ _ _ _ E3 Hi) as (n & Hn & Hi').
    exists n. split; [done|]. apply Hle. by eapply list_elem_of_lookup_2.
  - exists c0. split; [|done]. change 0 with (Z.of_nat 0) in E2.
    apply py_index_nat_inv in E2. by destruct calls.
Qed.

Lemma from_calls_shared_options_witness :
  GenerateBatch.from_calls two_calls = Ok two_calls_batch /\
  (exists c, c ∈ two_calls /\
     py_int (dict_get_default "max_tokens" (VInt 32) (GenerateCall.kwargs c))
     = Ok (GenerateBatch.max_tokens two_calls_batch)) /\
  (forall c, c ∈ two_calls ->
     exists n,
       py_int (dict_get_default "max_tokens" (VInt 32) (GenerateCall.kwargs c))
       = Ok n /\ n <= GenerateBatch.max_tokens two_calls_batch) /\
  (exists c0, head two_calls = Some c0 /\
     GenerateBatch.temperature two_calls_batch
     = dict_get_default "temperature" (VFloat "0.0") (GenerateCall.kwargs c0)) /\
  GenerateBatch.logit_biases two_calls_batch
  = map (fun c => default [] (GenerateCall.logit_bias c)) two_calls.
Proof.
  split; [reflexivity|].
  exact (from_calls_shared_options two_calls two_calls_batch eq_refl).
Defined.

Lemma dict_get_fmap_val {K A B} `{EqDecision K} (f : A -> B)
    (d : list (K * A)) (k : K) :
  dict_get k (map (fun kv => (kv.1, f kv.2)) d) = f <$> dict_get k d.
Proof.
  induction d as [|[k' a] d IH]; simpl; [done|].
  by destruct (decide (k' = k)).
Qed.

Lemma from_calls_kwargs (calls : list GenerateCall.t) (b : GenerateBatch.t) :
  GenerateBatch.from_calls calls = Ok b ->
  exists c0,
    head calls = Some c0 /\
    GenerateBatch.kwargs b
    = dict_pop "temperature"
        (dict_pop "top_logprobs" (dict_pop "max_tokens" (GenerateCall.kwargs c0))).
Proof.
  unfold GenerateBatch.from_calls. intros H.
  destruct (py_max _) as [e1|max_len] eqn:E1; simpl in H; [discriminate|].
  destruct (py_index calls 0) as [e2|c0] eqn:E2; simpl in H; [discriminate|].
  destruct (rmapM _ calls) as [e3|mts] eqn:E3 in H; simpl in H; [discriminate|].
  destruct (py_max mts) as [e4|mt] eqn:E4; simpl in H; [discriminate|].
  exists c0. split.
  { change 0 with (Z.of_nat 0) in E2. apply py_index_nat_inv in E2.
    by destruct calls. }
  destruct (existsb GenerateCall.kw_score calls); simpl in H.
  - destruct (forallb GenerateCall.kw_score calls); simpl in H; [|done].
    destruct (rmapM _ calls) as [e5|offs] in H; simpl in H; [discriminate|].
    by injection H as <-.
  - by injection H as <-.
Qed.

(** The keyword arguments of [model.generate] for a batch.  The options
    left in [kwargs] are those of the first call without [max_tokens],
    [top_logprobs] and [temperature]; each of them is passed on with the
    value that the client gave, also under the names that
    [generate_args] sets itself ([input_ids], [attention_mask],
    [max_new_tokens], [bias_tensor]), since [kwargs] is unpacked last;
    every other name has the value computed for the batch.  The
    temperature is always the one of the batch. *)
Theorem generate_args_entries (calls : list GenerateCall.t)
    (b : GenerateBatch.t) (c0 : GenerateCall.t) :
  GenerateBatch.from_calls calls = Ok b ->
  head calls = Some c0 ->
  NoDup (map fst (GenerateCall.kwargs c0)) ->
  (forall k,
     dict_get k (GenerateBatch.kwargs b)
     = if decide (k ∈ ["max_tokens"; "top_logprobs"; "temperature"]) then None
       else dict_get k (GenerateCall.kwargs c0)) /\
  (forall k v,
     dict_get k (GenerateBatch.kwargs b) = Some v ->
     dict_get k (generate_args b) = Some (AVal v)) /\
  (forall k,
     dict_get k (GenerateBatch.kwargs b) = None ->
     dict_get k (generate_args b)
     = dict_get k
         [("input_ids", ATensor (GenerateBatch.input_ids b));
          ("attention_mask", ATensor (GenerateBatch.attention_mask b));
          ("temperature", AVal (GenerateBatch.temperature b));
          ("max_new_tokens", AVal (VInt (GenerateBatch.max_tokens b)));
          ("bias_tensor",
            ABias (if 0 <? len (GenerateBatch.logit_biases b)
                   then Some (GenerateBatch.logit_biases b) else None))]) /\
  dict_get "temperature" (generate_args b)
  = Some (AVal (GenerateBatch.temperature b)).
Proof.
  intros Hb Hhead Hnd.
  destruct (from_calls_kwargs calls b Hb) as (c0' & Hhead' & Hkw).
  assert (c0' = c0) as -> by congruence.
  assert (NoDup (map fst (GenerateBatch.kwargs b))) as Hndb.
  { rewrite Hkw. by do 3 apply dict_pop_NoDup. }
  assert (forall k,
            dict_get k (generate_args b)
            = match dict_get k (GenerateBatch.kwargs b) with
              | Some v => Some (AVal v)
              | None =>
                  dict_get k
                    [("input_ids", ATensor (GenerateBatch.input_ids b));
                     ("attention_mask", ATensor (GenerateBatch.attention_mask b));
                     ("temperature", AVal (GenerateBatch.temperature b));
                     ("max_new_tokens", AVal (VInt (GenerateBatch.max_tokens b)));
                     ("bias_tensor",
                       ABias (if 0 <? len (GenerateBatch.logit_biases b)
                              then Some (GenerateBatch.logit_biases b) else None))]
              end) as Hargs.
  { intros k. unfold generate_args. rewrite dict_get_update.
    - rewrite dict_get_fmap_val. by destruct (dict_get k (GenerateBatch.kwargs b)).
    - rewrite map_map. simpl. done. }
  assert (forall k,
            dict_get k (GenerateBatch.kwargs b)
            = if decide (k ∈ ["max_tokens"; "top_logprobs"; "temperature"]) then None
              else dict_get k (GenerateCall.kwargs c0)) as Hres.
  { intros k. rewrite Hkw. destruct (decide (k ∈ _)) as [Hin|Hnin].
    - repeat apply elem_of_cons in Hin as [->|Hin]; [| | |by apply elem_of_nil in Hin].
      + rewrite !dict_get_pop_ne by done. by apply dict_get_pop_eq.
      + rewrite dict_get_pop_ne by done.
        by apply dict_get_pop_eq, dict_pop_NoDup.
      + by apply dict_get_pop_eq, dict_pop_NoDup, dict_pop_NoDup.
    - rewrite !dict_get_pop_ne; [done| | |];
        intros <-; apply Hnin; set_solver. }
  split; [done|]. split; [|split].
  - intros k v Hk. by rewrite Hargs, Hk.
  - intros k Hk. by rewrite Hargs, Hk.
  - rewrite Hargs, Hres. rewrite decide_True by set_solver. done.
Qed.

Lemma generate_args_entries_witness :
  GenerateBatch.from_calls [override_call] = Ok override_batch /\
  head [override_call] = Some override_call /\
  NoDup (map fst (GenerateCall.kwargs override_call)) /\
  (forall k,
     dict_get k (GenerateBatch.kwargs override_batch)
     = if decide (k ∈ ["max_tokens"; "top_logprobs"; "temperature"]) then None
       else dict_get k (GenerateCall.kwargs override_call)) /\
  (forall k v,
     dict_get k (GenerateBatch.kwargs override_batch) = Some v ->
     dict_get k (generate_args override_batch) = Some (AVal v)) /\
  (forall k,
     dict_get k (GenerateBatch.kwargs override_batch) = None ->
     dict_get k (generate_args override_batch)
     = dict_get k
         [("input_ids", ATensor (GenerateBatch.input_ids override_batch));
          ("attention_mask", ATensor (GenerateBatch.attention_mask override_batch));
          ("temperature", AVal (GenerateBatch.temperature override_batch));
          ("max_new_tokens", AVal (VInt (GenerateBatch.max_tokens override_batch)));
          ("bias_tensor",
            ABias (if 0 <? len (GenerateBatch.logit_biases override_batch)
                   then Some (GenerateBatch.logit_biases override_batch)
                   else None))]) /\
  dict_get "temperature" (generate_args override_batch)
  = Some (AVal (GenerateBatch.temperature override_batch)).
Proof.
  assert (NoDup (map fst (GenerateCall.kwargs override_call))) as H
    by (apply (bool_decide_unpack _); reflexivity).
  split; [reflexivity|]. split; [reflexivity|]. split; [exact H|].
  exact (generate_args_entries [override_call] override_batch override_call
           eq_refl eq_refl H).
Defined.

(** ** The batches of a drain *)

Lemma dict_get_app_ne {K V} `{EqDecision K} (d : list (K * V)) (k k' : K) (v : V) :
  k <> k' -> dict_get k' (d ++ [(k, v)]) = dict_get k' d.
Proof.
  intros Hne. induction d as [|[k0 v0] d IH]; simpl.
  - by rewrite decide_False.
  - by rewrite IH.
Qed.

Lemma dict_set_NoDup {K V} `{EqDecision K} (d : list (K * V)) (k : K) (v : V) :
  NoDup (map fst d) -> NoDup (map fst (dict_set k v d)).
Proof.
  intros Hnd. rewrite dict_set_keys.
  destruct (decide (k ∈ map fst d)) as [Hin|Hnin]; [by rewrite app_nil_r|].
  apply NoDup_app. split; [done|]. split; [|apply NoDup_singleton].
  by intros x Hx [->|[]%elem_of_nil]%elem_of_cons.
Qed.

Lemma setdefault_append_get (m m' : string) (c : GenerateCall.t)
    (d : dict string (list GenerateCall.t)) :
  dict_get m' (Scheduler.setdefault_append m c d)
  = if decide (m' = m) then Some (default [] (dict_get m d) ++ [c])
    else dict_get m' d.
Proof.
  unfold Scheduler.setdefault_append, dict_setdefault, dict_get_default.
  destruct (dict_get m d) as [g|] eqn:Hget.
  - rewrite Hget. simpl. destruct (decide (m' = m)) as [->|Hne].
    + apply dict_get_set_eq.
    + by rewrite dict_get_set_ne.
  - rewrite (dict_get_app_fresh m [] d Hget). simpl.
    destruct (decide (m' = m)) as [->|Hne].
    + apply dict_get_set_eq.
    + rewrite dict_get_set_ne by done. by apply dict_get_app_ne.
Qed.

Lemma grouped_step (d : dict string (list GenerateCall.t))
    (seen : list GenerateCall.t) (c : GenerateCall.t) :
  grouped d seen ->
  grouped (Scheduler.setdefault_append (GenerateCall.generation_mode c) c d)
          (seen ++ [c]).
Proof.
  intros [Hnd Hget]. split.
  - unfold Scheduler.setdefault_append.
    by apply dict_set_NoDup, dict_setdefault_NoDup.
  - intros m. rewrite setdefault_append_get, Hget. unfold group_of.
    rewrite filter_app, filter_cons, filter_nil.
    destruct (decide (m = GenerateCall.generation_mode c)) as [->|Hne].
    + rewrite decide_True by done. by destruct (filter _ seen).
    + rewrite decide_False by done. by rewrite app_nil_r.
Qed.

Lemma grouped_fold (calls seen : list GenerateCall.t)
    (d : dict string (list GenerateCall.t)) :
  grouped d seen ->
  grouped (fold_left (fun d c =>
             Scheduler.setdefault_append (GenerateCall.generation_mode c) c d)
             calls d)
          (seen ++ calls).
Proof.
  revert d seen. induction calls as [|c calls IH]; intros d seen Hg; simpl.
  - by rewrite app_nil_r.
  - rewrite cons_middle, app_assoc. by apply IH, grouped_step.
Qed.

Lemma grouped_elem (d : dict string (list GenerateCall.t))
    (seen : list GenerateCall.t) (m : string) (g : list GenerateCall.t) :
  grouped d seen -> (m, g) ∈ d -> g = group_of m seen /\ g <> [].
Proof.
  intros [Hnd Hget] Hin. apply (dict_get_of_elem _ _ _ Hnd) in Hin.
  rewrite Hget in Hin. destruct (group_of m seen); [done|].
  injection Hin as <-. done.
Qed.

Lemma grouped_nil : grouped [] [].
Proof. split; [constructor|done]. Qed.

Lemma group_of_same_mode (m : string) (calls b : list GenerateCall.t) :
  b `sublist_of` group_of m calls -> same_mode b.
Proof.
  intros Hsub c1 c2 H1 H2.
  assert (forall c, c ∈ b -> GenerateCall.generation_mode c = m) as Hm.
  { intros c Hc. eapply elem_of_sublist in Hc; [|exact Hsub].
    by apply list_elem_of_filter in Hc as [Hc _]. }
  by rewrite (Hm c1), (Hm c2).
Qed.

Lemma split_group_chunks (max_batch_size : Z) (g : list GenerateCall.t)
    (chunks : list (list GenerateCall.t)) :
  0 < max_batch_size -> g <> [] ->
  Scheduler.split_group max_batch_size g = Ok chunks ->
  Forall (fun b => b <> [] /\ len b <= max_batch_size /\ b `sublist_of` g) chunks.
Proof.
  intros Hpos Hne. unfold Scheduler.split_group.
  destruct (len g >? max_batch_size) eqn:Hlen.
  - unfold Scheduler.py_range0.
    assert ((max_batch_size =? 0) = false) as -> by (apply Z.eqb_neq; lia).
    assert ((max_batch_size <? 0) = false) as -> by (apply Z.ltb_ge; lia).
    simpl. intros [= <-]. rewrite map_map. apply Forall_forall.
    intros b Hb. apply list_elem_of_fmap in Hb as (k & -> & Hk).
    apply elem_of_seq in Hk as [_ Hk]. simpl in Hk.
    unfold Scheduler.py_slice.
    assert (Z.of_nat k * max_batch_size < len g) as Hlt.
    { pose proof (Z.mul_div_le (len g + max_batch_size - 1) max_batch_size Hpos).
      assert (0 <= (len g + max_batch_size - 1) / max_batch_size)
        by (apply Z.div_pos; unfold len; lia).
      nia. }
    split; [|split].
    + intros Hnil. apply (f_equal length) in Hnil.
      rewrite length_take, length_drop in Hnil. simpl in Hnil.
      unfold len in Hlt. lia.
    + unfold len. rewrite length_take. lia.
    + etrans; [apply sublist_take|apply sublist_drop].
  - intros [= <-]. constructor; [|constructor].
    split; [done|]. split; [lia|done].
Qed.

Lemma rmapM_lookup_inv {A B} (f : A -> result B) (l : list A) (bs : list B)
    (i : nat) (b : B) :
  rmapM f l = Ok bs -> bs !! i = Some b ->
  exists a, l !! i = Some a /\ f a = Ok b.
Proof.
  intros Hl Hb.
  destruct (lookup_lt_is_Some_2 l i) as [a Ha].
  { rewrite <- (rmapM_length _ _ _ Hl). by eapply lookup_lt_Some. }
  destruct (rmapM_lookup _ _ _ _ _ Hl Ha) as (b' & Hfa & Hb').
  exists a. split; [done|]. congruence.
Qed.

(** The batches that [batches] returns for a positive [max_batch_size] *)
Lemma batches_elem (self : Scheduler.t) (taken : nat) (max_batch_size : Z)
    (bs : list (list GenerateCall.t)) (b : list GenerateCall.t) :
  0 < max_batch_size ->
  (Scheduler.batches self taken max_batch_size).2 = Ok bs ->
  b ∈ bs ->
  b <> [] /\ len b <= max_batch_size /\ same_mode b /\
  b `sublist_of` take taken (Scheduler.queue self).
Proof.
  intros Hpos Hbs Hb. unfold Scheduler.batches in Hbs. simpl in Hbs.
  pose proof (grouped_fold (take taken (Scheduler.queue self)) [] [] grouped_nil)
    as Hg. simpl in Hg.
  destruct (rmapM _ _) as [e|groups] eqn:Hgroups in Hbs; [discriminate|].
  simpl in Hbs. injection Hbs as <-.
  apply list_elem_of_In, in_concat in Hb as (chunks & Hchunks & Hb).
  apply list_elem_of_In, list_elem_of_lookup in Hchunks as [i Hi].
  destruct (rmapM_lookup_inv _ _ _ _ _ Hgroups Hi) as ([m g] & Hmg & Hsplit).
  apply list_elem_of_lookup_2 in Hmg.
  destruct (grouped_elem _ _ _ _ Hg Hmg) as [-> Hne].
  apply (split_group_chunks _ _ _ Hpos Hne) in Hsplit.
  rewrite Forall_forall in Hsplit.
  destruct (Hsplit b) as (Hbne & Hlen & Hsub); [by apply list_elem_of_In|].
  split; [done|]. split; [done|]. split; [by eapply group_of_same_mode|].
  etrans; [exact Hsub|]. apply sublist_filter.
Qed.

(** For a positive [max_batch_size], [batches] returns batches that are
    never empty and never larger than [max_batch_size]; the calls of a
    batch share one [generation_mode], and they stand in the batch in the
    order in which they were taken from the queue.  The calls that were
    not taken stay in the queue. *)
Theorem batches_well_formed (self : Scheduler.t) (taken : nat)
    (max_batch_size : Z) :
  0 < max_batch_size ->
  exists bs,
    Scheduler.batches self taken max_batch_size
    = (Scheduler.set_queue self (drop taken (Scheduler.queue self)), Ok bs) /\
    Forall (fun b =>
              b <> [] /\ len b <= max_batch_size /\ same_mode b /\
              b `sublist_of` take taken (Scheduler.queue self)) bs.
Proof.
  intros Hpos.
  destruct (batches_all_calls self taken max_batch_size Hpos) as (bs & Hbs & _).
  exists bs. split; [done|]. apply Forall_forall. intros b Hb.
  apply (batches_elem self taken max_batch_size bs b Hpos); [|done].
  by rewrite Hbs.
Qed.

Lemma batches_well_formed_witness :
  0 < 1 /\
  exists bs,
    Scheduler.batches busy_scheduler 3 1
    = (Scheduler.set_queue busy_scheduler (drop 3 (Scheduler.queue busy_scheduler)),
       Ok bs) /\
    Forall (fun b =>
              b <> [] /\ len b <= 1 /\ same_mode b /\
              b `sublist_of` take 3 (Scheduler.queue busy_scheduler)) bs.
Proof.
  assert (0 < 1) as H by lia.
  split; [exact H|].
  exact (batches_well_formed busy_scheduler 3 1 H).
Defined.

(** Every batch that [batches] returns is accepted by
    [GenerateBatch.from_calls] when the integer options of the waiting
    calls are ints: the batch is not empty and it does not mix score calls
    with other calls, so neither the [ValueError] nor the [AssertionError]
    of [from_calls] can occur in [process_batch]. *)
Theorem batches_feed_from_calls (self : Scheduler.t) (taken : nat)
    (max_batch_size : Z) :
  0 < max_batch_size ->
  forallb typed_call (take taken (Scheduler.queue self)) = true ->
  exists bs,
    (Scheduler.batches self taken max_batch_size).2 = Ok bs /\
    Forall (fun batch =>
              exists b, GenerateBatch.from_calls batch = Ok b /\
                        GenerateBatch.calls b = batch) bs.
Proof.
  intros Hpos Htyped.
  destruct (batches_all_calls self taken max_batch_size Hpos) as (bs & Hbs & _).
  exists bs. rewrite Hbs. split; [done|].
  apply Forall_forall. intros batch Hbatch.
  destruct (batches_elem self taken max_batch_size bs batch Hpos)
    as (Hne & _ & Hsame & Hsub); [by rewrite Hbs|done|].
  destruct (from_calls_succeeds batch Hne Hsame) as [b Hb].
  { apply forallb_forall. intros c Hc. rewrite forallb_forall in Htyped.
    apply Htyped, list_elem_of_In. eapply elem_of_sublist; [|exact Hsub].
    by apply list_elem_of_In. }
  exists b. split; [done|].
  by destruct (from_calls_inv batch b Hb) as (_ & _ & _ & _ & Hcalls & _).
Qed.

Lemma batches_feed_from_calls_witness :
  0 < 2 /\
  forallb typed_call (take 3 (Scheduler.queue busy_scheduler)) = true /\
  exists bs,
    (Scheduler.batches busy_scheduler 3 2).2 = Ok bs /\
    Forall (fun batch =>
              exists b, GenerateBatch.from_calls batch = Ok b /\
                        GenerateBatch.calls b = batch) bs.
Proof.
  assert (0 < 2) as H by lia.
  split; [exact H|]. split; [reflexivity|].
  exact (batches_feed_from_calls busy_scheduler 3 2 H eq_refl).
Defined.

Lemma batches_negative_size (self : Scheduler.t) (taken : nat)
    (max_batch_size : Z) :
  max_batch_size < 0 ->
  Scheduler.batches self taken max_batch_size
  = (Scheduler.set_queue self (drop taken (Scheduler.queue self)), Ok []).
Proof.
  intros Hneg. unfold Scheduler.batches. f_equal.
  generalize (fold_left
                (fun d c =>
                   Scheduler.setdefault_append (GenerateCall.generation_mode c) c d)
                (take taken (Scheduler.queue self)) []).
  intros d.
  assert (rmapM (fun kv : string * list GenerateCall.t =>
                   Scheduler.split_group max_batch_size kv.2) d
          = Ok (map (fun _ => []) d)) as ->.
  { induction d as [|[m g] d IH]; simpl; [done|]. rewrite IH.
    unfold Scheduler.split_group, Scheduler.py_range0.
    assert ((len g >? max_batch_size) = true) as ->
      by (apply Z.gtb_lt; unfold len; lia).
    assert ((max_batch_size =? 0) = false) as -> by lia.
    assert ((max_batch_size <? 0) = true) as -> by lia.
    done. }
  simpl. f_equal. induction d as [|kv d IH]; simpl; [done|]. exact IH.
Qed.

Lemma batches_zero_size (self : Scheduler.t) (taken : nat) :
  take taken (Scheduler.queue self) <> [] ->
  Scheduler.batches self taken 0
  = (Scheduler.set_queue self (drop taken (Scheduler.queue self)),
     Raise ValueError "range() arg 3 must not be zero").
Proof.
  intros Hne. unfold Scheduler.batches. f_equal.
  pose proof (grouped_fold (take taken (Scheduler.queue self)) [] [] grouped_nil)
    as Hg. simpl in Hg.
  destruct (fold_left _ _ _) as [|[m g] d] eqn:Hd.
  - destruct (take taken (Scheduler.queue self)) as [|c calls]; [done|].
    destruct Hg as [_ Hget].
    specialize (Hget (GenerateCall.generation_mode c)).
    unfold group_of in Hget. rewrite filter_cons, decide_True in Hget by done.
    discriminate.
  - destruct (grouped_elem _ _ m g Hg) as [_ Hgne]; [apply elem_of_cons; by left|].
    simpl. unfold Scheduler.split_group at 1, Scheduler.py_range0.
    assert ((len g >? 0) = true) as ->; [|done].
    apply Z.gtb_lt. destruct g; [done|]. unfold len. simpl. lia.
Qed.

(** [batches] with a [max_batch_size] that is not positive loses the calls
    it has taken from the queue: with [max_batch_size = 0] the [range] of
    the split raises a [ValueError], and with a negative [max_batch_size]
    every group is split into no batch at all, so that no batch is
    returned. *)
Theorem batches_nonpositive_size (self : Scheduler.t) (taken : nat)
    (max_batch_size : Z) :
  max_batch_size <= 0 ->
  take taken (Scheduler.queue self) <> [] ->
  Scheduler.batches self taken max_batch_size
  = (Scheduler.set_queue self (drop taken (Scheduler.queue self)),
     if max_batch_size =? 0
     then Raise ValueError "range() arg 3 must not be zero"
     else Ok []).
Proof.
  intros Hle Hne. destruct (max_batch_size =? 0) eqn:E.
  - apply Z.eqb_eq in E as ->. by apply batches_zero_size.
  - apply batches_negative_size. lia.
Qed.

Lemma batches_nonpositive_size_witness :
  0 <= 0 /\
  take 3 (Scheduler.queue busy_scheduler) <> [] /\
  Scheduler.batches busy_scheduler 3 0
  = (Scheduler.set_queue busy_scheduler (drop 3 (Scheduler.queue busy_scheduler)),
     if 0 =? 0
     then Raise ValueError "range() arg 3 must not be zero"
     else Ok []).
Proof.
  assert (0 <= 0) as H1 by lia.
  assert (take 3 (Scheduler.queue busy_scheduler) <> []) as H2 by discriminate.
  split; [exact H1|]. split; [exact H2|].
  exact (batches_nonpositive_size busy_scheduler 3 0 H1 H2).
Defined.

(** ** The worker loop *)

Lemma process_one_ok (model : LMTPModel) (batch : list GenerateCall.t)
    (st : store) :
  exists st', Scheduler.process_one model batch st = (st', Ok tt).
Proof.
  unfold Scheduler.process_one.
  destruct (Scheduler.run_batch model batch st) as [st1 [e|[]]]; [|by eauto].
  destruct (decide (exn_class e = InterruptedError)).
  - destruct (error_all batch "lmtp.cancelled" st1) as (st' & -> & _). eauto.
  - destruct (error_all batch ("failed to generate tokens '" +:+ exn_msg e +:+ "'") st1)
      as (st' & -> & _). eauto.
Qed.

Lemma process_all_ok (model : LMTPModel) (bs : list (list GenerateCall.t))
    (st : store) :
  exists st', for_each bs (Scheduler.process_one model) st = (st', Ok tt).
Proof.
  revert st. induction bs as [|b bs IH]; intros st; simpl; [by eexists|].
  unfold mbind. destruct (process_one_ok model b st) as [st1 ->]. apply IH.
Qed.

(** No exception leaves [process_batch] through the loop over the batches:
    whatever the backend, the streamers or [from_calls] raise is caught for
    its batch.  [process_batch] raises in one case only, when
    [model.max_batch_size] is 0 and a call was taken: this is the
    [ValueError] of [batches], raised before any message is put.  With a
    negative [max_batch_size] it returns without a message for the calls
    it has taken. *)
Theorem process_batch_raises_only_for_zero_size (self : Scheduler.t)
    (model : LMTPModel) (taken : nat) (st : store) :
  (max_batch_size model <> 0 \/ take taken (Scheduler.queue self) = [] ->
   (Scheduler.process_batch self model taken st).2.2 = Ok tt) /\
  (max_batch_size model = 0 /\ take taken (Scheduler.queue self) <> [] ->
   Scheduler.process_batch self model taken st
   = (Scheduler.set_queue self (drop taken (Scheduler.queue self)),
      (st, Raise ValueError "range() arg 3 must not be zero"))) /\
  (max_batch_size model < 0 ->
   Scheduler.process_batch self model taken st
   = (Scheduler.set_queue self (drop taken (Scheduler.queue self)), (st, Ok tt))).
Proof.
  unfold Scheduler.process_batch. split; [|split].
  - intros Hcase.
    destruct (Z.lt_trichotomy (max_batch_size model) 0) as [Hneg|[Hz|Hpos]].
    + by rewrite batches_negative_size.
    + destruct Hcase as [Hnz|Hnil]; [done|]. rewrite Hz.
      unfold Scheduler.batches. rewrite Hnil. done.
    + destruct (batches_all_calls self taken _ Hpos) as (bs & -> & _).
      rewrite bind_lift_ok. simpl.
      by destruct (process_all_ok model bs st) as [st' ->].
  - intros [Hz Hne]. rewrite Hz, batches_zero_size by done. done.
  - intros Hneg. by rewrite batches_negative_size.
Qed.

(** ** What the token streamer emits *)

Lemma for_each_error {S X} (l : list X) (body : X -> St S unit) (st st' : S)
    (e : pyexn) :
  for_each l body st = (st', inl e) ->
  exists x st1, x ∈ l /\ body x st1 = (st', inl e).
Proof.
  revert st. induction l as [|x l IH]; intros st; simpl; [discriminate|].
  unfold mbind. destruct (body x st) as [st1 [e1|[]]] eqn:Hx.
  - intros [= <- <-]. exists x, st. split; [apply elem_of_cons; by left|done].
  - intros H. destruct (IH _ H) as (x' & st2 & Hin & Hb).
    exists x', st2. split; [apply elem_of_cons; by right|done].
Qed.

Lemma top_logprobs_error (calls : list GenerateCall.t) (e : pyexn) :
  (tops <~ rmapM TokenStreamer.kw_top_logprobs calls; py_max tops) = inl e ->
  exn_class e <> InterruptedError.
Proof.
  destruct (rmapM _ calls) as [e'|tops] eqn:E; simpl.
  - intros [= ->]. apply rmapM_error in E as (c & _ & E).
    apply py_int_error in E. congruence.
  - intros E'. apply py_max_error in E'. congruence.
Qed.

Lemma log_token_interrupt_inv (self : TokenStreamer.t) (input_ids : list (list Z))
    (scores : list (list (list Q))) (is_last : bool) (st : store) (e : pyexn) :
  let out := TokenStreamer.log_token self input_ids scores is_last st in
  out.2 = inl e -> exn_class e = InterruptedError ->
  GenerateBatch.cancelled (TokenStreamer.batch self) = true /\
  TokenStreamer.cancels self = true /\
  out.1 = st /\ exn_msg e = "inference calls cancelled".
Proof.
  unfold TokenStreamer.log_token. cbv zeta.
  lift_step.
  { simpl. intros [= <-] Hc.
    apply rmapM_error in E as (row & _ & E). apply np_index_error in E. congruence. }
  lift_step.
  { simpl. intros [= <-] Hc. apply py_index_error in E0. congruence. }
  lift_step.
  { simpl. intros [= <-] Hc. by apply top_logprobs_error in E1. }
  destruct (GenerateBatch.cancelled _ && TokenStreamer.cancels self) eqn:Hcancel.
  { simpl. apply andb_prop in Hcancel as [H1 H2]. by intros [= <-] _. }
  intros He Hclass. exfalso.
  destruct (topk _ _) as [all_logprobs all_indices]. cbv iota beta in He.
  match type of He with
  | (?m st).2 = _ => destruct (m st) as [st' r] eqn:Hrun
  end.
  simpl in He. subst r.
  apply for_each_error in Hrun as (i & st1 & _ & Hbody).
  revert Hbody.
  do 6 (lift_step;
        [intros [= _ <-];
         match goal with
         | H : py_index _ _ = inl _ |- _ => apply py_index_error in H; congruence
         | H : np_index _ _ _ = inl _ |- _ => apply np_index_error in H; congruence
         end|]).
  lift_step.
  { intros [= _ <-].
    match goal with
    | H : TokenStreamer.kw_top_logprobs _ = inl _ |- _ =>
        apply py_int_error in H; congruence
    end. }
  discriminate.
Qed.

Lemma log_token_silent_when_cancelled (self : TokenStreamer.t)
    (input_ids : list (list Z)) (scores : list (list (list Q)))
    (is_last : bool) (st : store) :
  GenerateBatch.cancelled (TokenStreamer.batch self) = true ->
  TokenStreamer.cancels self = true ->
  exists e, TokenStreamer.log_token self input_ids scores is_last st = (st, inl e).
Proof.
  intros Hcancelled Hcancels. unfold TokenStreamer.log_token. cbv zeta.
  lift_step; [by eexists|].
  lift_step; [by eexists|].
  lift_step; [by eexists|].
  rewrite Hcancelled, Hcancels. by eexists.
Qed.

(** [TokenStreamer.log_token] raises [InterruptedError] in one case only:
    when every call of the batch is cancelled and the backend is
    cancellable; it is then raised before anything is put on a queue.  In
    that case [log_token] never emits a token: it raises, this error or the
    error of an earlier step, and leaves the queues as they are. *)
Theorem log_token_interrupts_when_cancelled (self : TokenStreamer.t)
    (input_ids : list (list Z)) (scores : list (list (list Q)))
    (is_last : bool) (st : store) :
  let out := TokenStreamer.log_token self input_ids scores is_last st in
  (forall e, out.2 = inl e -> exn_class e = InterruptedError ->
     GenerateBatch.cancelled (TokenStreamer.batch self) = true /\
     TokenStreamer.cancels self = true /\
     out.1 = st /\ exn_msg e = "inference calls cancelled") /\
  (GenerateBatch.cancelled (TokenStreamer.batch self) = true /\
   TokenStreamer.cancels self = true ->
   out.1 = st /\ exists e, out.2 = inl e).
Proof.
  intros out. split.
  - intros e. apply log_token_interrupt_inv.
  - intros [Hcancelled Hcancels]. subst out.
    destruct (log_token_silent_when_cancelled self input_ids scores is_last st
                Hcancelled Hcancels) as [e ->].
    split; [done|]. by exists e.
Qed.

Lemma py_index_last {A} (l : list A) (a : A) :
  py_index l (-1) = Ok a -> last l = Some a.
Proof.
  unfold py_index. cbv zeta. change (0 <=? -1) with false. cbv iota.
  destruct (_ && _) eqn:Hb; [|discriminate].
  destruct (l !! _) as [a'|] eqn:Hl; [|discriminate]. intros [= <-].
  rewrite last_lookup, <- Hl. f_equal. lia.
Qed.

Lemma log_token_rows (self : TokenStreamer.t) (input_ids : list (list Z))
    (scores : list (list (list Q))) (is_last : bool) :
  exists rows r,
    emits (GenerateBatch.calls (TokenStreamer.batch self))
          (TokenStreamer.log_token self input_ids scores is_last)
          (row_events 0 rows) r /\
    (length rows <= length input_ids)%nat /\
    (r = Ok tt -> length rows = length input_ids /\ is_Some (last scores)) /\
    (forall k ps, rows !! k = Some ps ->
       (length ps <= 1)%nat /\
       (r = Ok tt -> length ps = 1%nat) /\
       Forall (fun p => exists last_scores,
                 last scores = Some last_scores /\
                 step_payload self input_ids last_scores is_last k p) ps).
Proof.
  set (calls := GenerateBatch.calls (TokenStreamer.batch self)).
  assert (forall e : pyexn, exists rows r,
            emits calls (lift (inl e) : M unit) (row_events 0 rows) r /\
            (length rows <= length input_ids)%nat /\
            (r = Ok tt -> length rows = length input_ids /\ is_Some (last scores)) /\
            (forall k ps, rows !! k = Some ps ->
               (length ps <= 1)%nat /\
               (r = Ok tt -> length ps = 1%nat) /\
               Forall (fun p => exists last_scores,
                         last scores = Some last_scores /\
                         step_payload self input_ids last_scores is_last k p) ps))
    as Hfail.
  { intros e. exists [], (inl e). split; [apply emits_lift|].
    split; [simpl; lia|]. split; [discriminate|]. intros k ps Hk. by destruct k. }
  unfold TokenStreamer.log_token. cbv zeta.
  lift_step; [apply Hfail|]. rename E into Htokens.
  lift_step; [apply Hfail|]. rename E into Hscores.
  match type of Hscores with _ = inr ?x => rename x into last_scores end.
  lift_step; [apply Hfail|]. rename E into Hmax.
  destruct (_ && _); [apply Hfail|].
  unfold topk. cbv iota beta.
  apply py_index_last in Hscores.
  match goal with
  | |- context [for_each _ ?body] =>
      destruct (emits_rows calls (length input_ids) 0 body
                  (fun i ps r =>
                     (length ps <= 1)%nat /\
                     (r = Ok tt -> length ps = 1%nat) /\
                     Forall (step_payload self input_ids last_scores is_last i) ps))
        as (rows & r & Hemits & Hle & Hlen & Hrows)
  end.
  - intros i _.
    assert (forall e : pyexn, exists ps r,
              emits calls (lift (inl e) : M unit) (map (pair i) ps) r /\
              (length ps <= 1)%nat /\
              (r = Ok tt -> length ps = 1%nat) /\
              Forall (step_payload self input_ids last_scores is_last i) ps)
      as Herr.
    { intros e. exists [], (inl e). split; [apply emits_lift|].
      split; [simpl; lia|]. split; [discriminate|constructor]. }
    lift_step; [apply Herr|]. rename E into Hlp.
    lift_step; [apply Herr|]. rename E into Hix.
    lift_step; [apply Herr|]. rename E into Hrow.
    match type of Hrow with _ = inr ?x => rename x into row end.
    lift_step; [apply Herr|]. rename E into Htok.
    match type of Htok with _ = inr ?x => rename x into tok end.
    lift_step; [apply Herr|]. rename E into Hsc.
    match type of Hsc with _ = inr ?x => rename x into sc end.
    lift_step; [apply Herr|]. rename E into Hcall.
    match type of Hcall with _ = inr ?x => rename x into c end.
    lift_step; [apply Herr|].
    apply np_index_nat_inv in Hlp, Hix, Hrow, Htok.
    apply py_index_nat_inv in Hcall. apply np_index_ok in Hsc.
    rewrite list_lookup_fmap, Hrow in Hlp. rewrite list_lookup_fmap, Hrow in Hix.
    simpl in Hlp, Hix.
    injection Hlp as <-. injection Hix as <-.
    destruct (rmapM_lookup_inv _ _ _ _ _ Htokens Htok) as (ids & Hids & Hlast).
    apply np_index_ok, py_index_last in Hlast.
    eexists [_], (Ok tt). split; [by apply emits_put|].
    split; [simpl; lia|]. split; [done|].
    constructor; [|constructor].
    exists ids, tok, row, sc, c. eexists.
    split; [done|]. split; [done|]. split; [done|]. split; [done|].
    split; [done|]. split; [reflexivity|].
    by apply top_logprobs_entry.
  - exists rows, r. split; [exact Hemits|]. split; [exact Hle|].
    split; [intros Hr; split; [by apply Hlen|by exists last_scores]|].
    intros k ps Hk. destruct (Hrows k ps Hk) as (r' & (H1 & Hone & Hall) & Hr').
    split; [exact H1|]. split; [intros Hr; by apply Hone, Hr'|].
    eapply Forall_impl; [exact Hall|]. intros p Hp. by exists last_scores.
Qed.

(** When [TokenStreamer.log_token] returns, it has put one payload per row
    of [input_ids] on the queue of the call of that row.  The payload of
    row [k] carries the last token of [input_ids[k]], the stream id of
    [batch.calls[k]] and, as log-probability, the score of that token in
    row [k] of the last scores; its finish reason is ["stop"] when the
    token is the end-of-sequence token, else ["length"] in the final call
    and [None] before; and [top_logprobs] maps the token to the same
    log-probability. *)
Theorem log_token_payload_fields (self : TokenStreamer.t)
    (input_ids : list (list Z)) (scores : list (list (list Q)))
    (is_last : bool) (st st' : store) :
  TokenStreamer.log_token self input_ids scores is_last st = (st', Ok tt) ->
  exists (last_scores : list (list Q)) (rows : list (list payload)),
    last scores = Some last_scores /\
    length rows = length input_ids /\
    (forall q,
       st' !!! q
       = st !!! q ++ delivered (GenerateBatch.calls (TokenStreamer.batch self)) q
                               (row_events 0 rows)) /\
    forall k ps, rows !! k = Some ps ->
      exists p, ps = [p] /\ step_payload self input_ids last_scores is_last k p.
Proof.
  intros Hrun.
  destruct (log_token_rows self input_ids scores is_last)
    as (rows & r & Hemits & _ & Hok & Hrows).
  destruct (Hemits st) as (st1 & Hrun' & Hst1).
  rewrite Hrun in Hrun'. injection Hrun' as <- <-.
  destruct Hok as (Hlen & last_scores & Hlast); [done|].
  exists last_scores, rows. split; [done|]. split; [done|]. split; [done|].
  intros k ps Hk. destruct (Hrows k ps Hk) as (_ & Hone & Hall).
  specialize (Hone eq_refl).
  destruct ps as [|p [|p' ps]]; [discriminate| |discriminate].
  exists p. split; [done|].
  apply Forall_cons in Hall as [(last_scores' & Hlast' & Hp) _].
  rewrite Hlast in Hlast'. by injection Hlast' as <-.
Qed.

Lemma log_token_payload_fields_witness :
  TokenStreamer.log_token mixed_streamer mixed_input_ids mixed_scores false ∅
  = (mixed_store, Ok tt) /\
  exists (last_scores : list (list Q)) (rows : list (list payload)),
    last mixed_scores = Some last_scores /\
    length rows = length mixed_input_ids /\
    (forall q,
       mixed_store !!! q
       = (∅ : store) !!! q
         ++ delivered (GenerateBatch.calls (TokenStreamer.batch mixed_streamer)) q
                      (row_events 0 rows)) /\
    forall k ps, rows !! k = Some ps ->
      exists p, ps = [p] /\
                step_payload mixed_streamer mixed_input_ids last_scores false k p.
Proof.
  assert (TokenStreamer.log_token mixed_streamer mixed_input_ids mixed_scores false ∅
          = (mixed_store, Ok tt)) as H by (vm_compute; reflexivity).
  split; [exact H|].
  exact (log_token_payload_fields mixed_streamer mixed_input_ids mixed_scores false
           ∅ mixed_store H).
Defined.

(** ** Routing of payloads, row by row *)

Lemma step_payload_row (self : TokenStreamer.t) (input_ids : list (list Z))
    (last_scores : list (list Q)) (is_last : bool) (k : nat) (p : payload) :
  step_payload self input_ids last_scores is_last k p ->
  row_payload_ok (GenerateBatch.calls (TokenStreamer.batch self)) k p.
Proof.
  intros (ids & tok & row & sc & c & tl & _ & _ & _ & _ & Hc & -> & _).
  by exists c.
Qed.

(** C10: whatever a streamer is given, the payloads it produces in the
    iteration for row [k] of the batch are put, and put only, on the queue
    of [batch.calls[k]], and each carries the stream id of that call and
    the content of that row.  The payload of the [TokenStreamer] for row
    [k] has the last token of [input_ids[k]] and its score in row [k] of
    the last scores; there is at most one per row, and one for each row of
    [input_ids] when the streamer does not raise.  The payloads of the
    [ScoreStreamer] for row [k] are built from [all_scores[k]],
    [batch.input_ids[k]] and [batch.scoring_offsets[k]]: one for each score
    behind the offset, with the token at its position. *)
Theorem streamers_route_by_row :
  (forall (self : TokenStreamer.t) (input_ids : list (list Z))
          (scores : list (list (list Q))) (is_last : bool) (st : store),
     let calls := GenerateBatch.calls (TokenStreamer.batch self) in
     let out := TokenStreamer.log_token self input_ids scores is_last st in
     exists rows : list (list payload),
       (forall q, out.1 !!! q = st !!! q ++ delivered calls q (row_events 0 rows)) /\
       (length rows <= length input_ids)%nat /\
       (out.2 = Ok tt -> length rows = length input_ids) /\
       (forall k ps, rows !! k = Some ps ->
          (length ps <= 1)%nat /\
          (out.2 = Ok tt -> length ps = 1%nat) /\
          Forall (row_payload_ok calls k) ps /\
          Forall (fun p => exists last_scores,
                    last scores = Some last_scores /\
                    step_payload self input_ids last_scores is_last k p) ps)) /\
  (forall (batch : GenerateBatch.t) (all_scores : list (list Q)) (st : store),
     let calls := GenerateBatch.calls batch in
     let out := ScoreStreamer.log_token batch all_scores st in
     exists rows : list (list payload),
       (forall q, out.1 !!! q = st !!! q ++ delivered calls q (row_events 0 rows)) /\
       (length rows <= length all_scores)%nat /\
       (out.2 = Ok tt -> length rows = length all_scores) /\
       (forall k ps, rows !! k = Some ps ->
          Forall (row_payload_ok calls k) ps /\
          (ps = [] \/ score_row_payloads batch all_scores k ps) /\
          (out.2 = Ok tt -> score_row_payloads batch all_scores k ps))).
Proof.
  split.
  - intros self input_ids scores is_last st calls out.
    destruct (log_token_rows self input_ids scores is_last)
      as (rows & r & Hemits & Hle & Hlen & Hrows).
    destruct (Hemits st) as (st' & Hout & Hst').
    exists rows. subst out. rewrite Hout. simpl.
    split; [done|]. split; [done|]. split; [intros Hr; by apply Hlen|].
    intros k ps Hk. destruct (Hrows k ps Hk) as (H1 & Hone & Hall).
    split; [done|]. split; [done|]. split; [|done].
    eapply Forall_impl; [exact Hall|].
    intros p (last_scores & _ & Hp). by eapply step_payload_row.
  - intros batch all_scores st calls out.
    destruct (score_streamer_emits batch all_scores)
      as (rows & r & Hemits & Hle & Hlen & Hrows).
    destruct (Hemits st) as (st' & Hout & Hst').
    exists rows. subst out. rewrite Hout. simpl. done.
Qed.

(** ** Cancelled batches *)

Lemma batch_cancelled_forallb (calls : list GenerateCall.t) :
  negb (existsb (fun c => negb (GenerateCall.cancelled c)) calls)
  = forallb GenerateCall.cancelled calls.
Proof.
  induction calls as [|c calls IH]; simpl; [done|].
  rewrite <- IH. by destruct (GenerateCall.cancelled c), (existsb _ calls).
Qed.

Lemma log_token_cancelled (self : TokenStreamer.t) (input_ids : list (list Z))
    (scores : list (list (list Q))) (is_last : bool) (st : store)
    (last_tokens : list Z) (last_scores : list (list Q)) :
  rmapM (fun row => py_index row (-1)) input_ids = Ok last_tokens ->
  py_index scores (-1) = Ok last_scores ->
  GenerateBatch.calls (TokenStreamer.batch self) <> [] ->
  forallb (int_option "top_logprobs") (GenerateBatch.calls (TokenStreamer.batch self))
  = true ->
  GenerateBatch.cancelled (TokenStreamer.batch self) = true ->
  TokenStreamer.cancels self = true ->
  TokenStreamer.log_token self input_ids scores is_last st
  = (st, Raise InterruptedError "inference calls cancelled").
Proof.
  intros Htokens Hscores Hne Htyped Hcancelled Hcancels.
  unfold TokenStreamer.log_token. cbv zeta.
  apply (rmapM_ok_ext (fun row => np_index 1 row (-1))) in Htokens;
    [|intros row tok; apply np_index_ok].
  rewrite Htokens, bind_lift_ok, Hscores, bind_lift_ok.
  destruct (rmapM_ok_ex TokenStreamer.kw_top_logprobs
              (GenerateBatch.calls (TokenStreamer.batch self))) as [tops Htops].
  { intros c Hc. apply int_option_ok. rewrite forallb_forall in Htyped.
    by apply Htyped, list_elem_of_In. }
  rewrite Htops. simpl rbind.
  destruct (py_max_ok tops) as [k ->].
  { apply rmapM_length in Htops. destruct tops; [|done].
    destruct (GenerateBatch.calls (TokenStreamer.batch self)); [done|discriminate]. }
  rewrite bind_lift_ok, Hcancelled, Hcancels. done.
Qed.

(** A batch of generate calls that are all cancelled, on a cancellable
    backend, gets no token: whatever the backend does, the [try] of
    [process_batch] ends with an exception before anything is put on a
    queue, and every call of the batch receives one error payload.  When
    the first invocation of the streamer is given well-formed arrays, the
    exception is the [InterruptedError] of the streamer and the calls
    receive ["lmtp.cancelled"]. *)
Theorem cancelled_batch_gets_no_token (model : LMTPModel)
    (batch : list GenerateCall.t) (b : GenerateBatch.t) (st : store) :
  GenerateBatch.from_calls batch = Ok b ->
  GenerateBatch.is_score b = false ->
  forallb GenerateCall.cancelled batch = true ->
  cancellable model = true ->
  exists (e : pyexn) (st' : store),
    Scheduler.run_batch model batch st = (st, inl e) /\
    Scheduler.process_one model batch st = (st', Ok tt) /\
    (forall q, st' !!! q = st !!! q ++ error_messages batch (failure_reason e) q) /\
    (forall ids scs rest last_tokens last_scores,
       steps (generate model (generate_args b)) = (ids, scs) :: rest ->
       rmapM (fun row => py_index row (-1)) ids = Ok last_tokens ->
       py_index scs (-1) = Ok last_scores ->
       forallb (int_option "top_logprobs") batch = true ->
       failure_reason e = "lmtp.cancelled").
Proof.
  intros Hb Hscore Hall Hcancellable.
  destruct (from_calls_inv batch b Hb) as (_ & _ & _ & _ & Hcalls & _).
  destruct (from_calls_kwargs batch b Hb) as (c0 & Hhead & _).
  set (streamer := TokenStreamer.mk b (cancellable model) (eos_token_id model)).
  assert (GenerateBatch.cancelled (TokenStreamer.batch streamer) = true) as Hcb.
  { unfold GenerateBatch.cancelled. simpl. by rewrite batch_cancelled_forallb, Hcalls. }
  assert (forall ids scs is_last,
            exists e, TokenStreamer.log_token streamer ids scs is_last st = (st, inl e))
    as Hlog.
  { intros ids scs is_last. by apply log_token_silent_when_cancelled. }
  assert (exists e,
            Scheduler.run_batch model batch st = (st, inl e) /\
            forall ids scs rest last_tokens last_scores,
              steps (generate model (generate_args b)) = (ids, scs) :: rest ->
              rmapM (fun row => py_index row (-1)) ids = Ok last_tokens ->
              py_index scs (-1) = Ok last_scores ->
              forallb (int_option "top_logprobs") batch = true ->
              exn_class e = InterruptedError) as (e & Hrun & Hreason).
  { unfold Scheduler.run_batch. rewrite Hb, bind_lift_ok, Hscore.
    fold streamer. unfold run_generate.
    destruct (steps (generate model (generate_args b))) as [|[ids scs] rest] eqn:Hsteps.
    - simpl for_each. unfold mbind at 1 2. simpl.
      destruct (outcome (generate model (generate_args b))) as [e|res].
      + exists e. split; [done|]. intros. discriminate.
      + destruct (Hlog (sequences res) (scores res) true) as [e ->].
        exists e. split; [done|]. intros. discriminate.
    - simpl for_each. unfold TokenStreamer.call. simpl.
      destruct (Hlog ids scs false) as [e He].
      exists e. unfold mbind. rewrite He. split; [done|].
      intros ids' scs' rest' last_tokens last_scores [= <- <- <-] Htok Hsc Htyped.
      rewrite (log_token_cancelled streamer ids scs false st last_tokens last_scores)
        in He; try done.
      + by injection He as <-.
      + simpl. rewrite Hcalls. by destruct batch.
      + simpl. by rewrite Hcalls. }
  destruct (error_all batch (failure_reason e) st) as (st' & Herr & Hst').
  exists e, st'. split; [done|]. split; [|split; [done|]].
  - unfold Scheduler.process_one. rewrite Hrun.
    unfold failure_reason in Herr.
    by destruct (decide (exn_class e = InterruptedError)).
  - intros ids scs rest last_tokens last_scores H1 H2 H3 H4.
    unfold failure_reason. rewrite decide_True; [done|]. by eapply Hreason.
Qed.

Lemma cancelled_batch_gets_no_token_witness :
  GenerateBatch.from_calls [cancelled_call] = Ok cancelled_batch /\
  GenerateBatch.is_score cancelled_batch = false /\
  forallb GenerateCall.cancelled [cancelled_call] = true /\
  cancellable stepping_model = true /\
  exists (e : pyexn) (st' : store),
    Scheduler.run_batch stepping_model [cancelled_call] ∅ = (∅, inl e) /\
    Scheduler.process_one stepping_model [cancelled_call] ∅ = (st', Ok tt) /\
    (forall q,
       st' !!! q
       = (∅ : store) !!! q ++ error_messages [cancelled_call] (failure_reason e) q) /\
    (forall ids scs rest last_tokens last_scores,
       steps (generate stepping_model (generate_args cancelled_batch))
       = (ids, scs) :: rest ->
       rmapM (fun row => py_index row (-1)) ids = Ok last_tokens ->
       py_index scs (-1) = Ok last_scores ->
       forallb (int_option "top_logprobs") [cancelled_call] = true ->
       failure_reason e = "lmtp.cancelled").
Proof.
  split; [reflexivity|]. split; [reflexivity|]. split; [reflexivity|].
  split; [reflexivity|].
  exact (cancelled_batch_gets_no_token stepping_model [cancelled_call]
           cancelled_batch ∅ eq_refl eq_refl eq_refl eq_refl).
Defined.

(** ** Loading and unloading schedulers *)

Lemma mbind_ok {S A B} (m : St S A) (f : A -> St S B) (st st' : S) (a : A) :
  m st = (st', Ok a) -> mbind m f st = f a st'.
Proof. intros H. unfold mbind. by rewrite H. Qed.

Lemma mbind_err {S A B} (m : St S A) (f : A -> St S B) (st st' : S) (e : pyexn) :
  m st = (st', inl e) -> mbind m f st = (st', inl e).
Proof. intros H. unfold mbind. by rewrite H. Qed.

Section Instances.
Variable pickle_dumps_hex : option (dict string pyval) -> string.

Lemma dict_set_set {K V} `{EqDecision K} (d : list (K * V)) (k : K) (v v' : V) :
  dict_set k v (dict_set k v' d) = dict_set k v d.
Proof.
  induction d as [|[k0 v0] d IH]; simpl.
  - by rewrite decide_True.
  - destruct (decide (k0 = k)) as [->|Hne]; simpl.
    + by rewrite decide_True.
    + by rewrite decide_False, IH.
Qed.

Lemma Forall_dict_set {K V} `{EqDecision K} (P : K * V -> Prop)
    (d : list (K * V)) (k : K) (v : V) :
  Forall P d -> P (k, v) -> Forall P (dict_set k v d).
Proof.
  intros Hd Hkv. induction Hd as [|[k0 v0] d H0 Hd IH]; simpl.
  - by constructor.
  - destruct (decide (k0 = k)); by constructor.
Qed.

Lemma registry_wf_set (reg : Scheduler.registry) (s : Scheduler.t) :
  registry_wf pickle_dumps_hex reg ->
  registry_wf pickle_dumps_hex
    (dict_set (identifier_of pickle_dumps_hex s) s reg).
Proof.
  intros [Hnd Hid]. split; [by apply dict_set_NoDup|by apply Forall_dict_set].
Qed.

Lemma registry_wf_filter (P : (string * string) * Scheduler.t -> Prop)
    `{!forall kv, Decision (P kv)} (reg : Scheduler.registry) :
  registry_wf pickle_dumps_hex reg ->
  registry_wf pickle_dumps_hex (filter P reg).
Proof.
  intros [Hnd Hid]. split.
  - eapply sublist_NoDup; [exact Hnd|]. apply fmap_sublist, sublist_filter.
  - apply Forall_forall. intros kv [_ Hkv]%list_elem_of_filter.
    rewrite Forall_forall in Hid. by apply Hid.
Qed.

Lemma instance_spec (now : Z) (model_identifier : string)
    (model_args : dict string pyval) (user : nat) (only_existing sync : bool)
    (reg : Scheduler.registry) :
  registry_wf pickle_dumps_hex reg ->
  Forall (fun kv => unused kv -> Scheduler.worker_thread kv.2 <> None) reg ->
  (only_existing = true ->
   dict_get (model_identifier, pickle_dumps_hex (Some model_args)) reg <> None) ->
  let key := (model_identifier, pickle_dumps_hex (Some model_args)) in
  let s :=
    Scheduler.touch now (Some user)
      (default (Scheduler.init now model_identifier (Some model_args) sync)
               (dict_get key reg)) in
  let reg1 := dict_set key s reg in
  Scheduler.instance pickle_dumps_hex now model_identifier (Some model_args)
                     (Some user) only_existing sync reg
  = (if len reg1 >=? 2 then filter (fun kv => ~ unused kv) reg1 else reg1, Ok s) /\
  registry_wf pickle_dumps_hex reg1 /\
  ~ unused (key, s).
Proof.
  intros Hwf Hth Hpolicy key s reg1.
  assert (identifier_of pickle_dumps_hex s = key) as Hids.
  { unfold s, identifier_of. simpl.
    destruct (dict_get key reg) as [s0|] eqn:Hget; simpl; [|done].
    destruct Hwf as [_ Hid]. rewrite Forall_forall in Hid.
    exact (Hid _ (dict_get_elem _ _ _ Hget)). }
  assert (registry_wf pickle_dumps_hex reg1) as Hwf1.
  { unfold reg1. rewrite <- Hids. by apply registry_wf_set. }
  assert (~ unused (key, s)) as Hused.
  { unfold unused. simpl. intros Hsize%size_empty_inv. set_solver. }
  assert (Forall (fun kv => unused kv -> Scheduler.worker_thread kv.2 <> None) reg1)
    as Hth1 by (by apply Forall_dict_set).
  assert (Scheduler.gc pickle_dumps_hex 2 reg1
          = (if len reg1 >=? 2 then filter (fun kv => ~ unused kv) reg1 else reg1,
             Ok tt)) as Hgc.
  { destruct (len reg1 >=? 2) eqn:Hlen.
    - apply gc_removes_unused; [done|lia|done].
    - apply gc_below_threshold. lia. }
  assert (bool_decide (size (Scheduler.users s) = 0%nat) = false) as Hbd
    by (by apply bool_decide_eq_false_2).
  split; [|done].
  unfold Scheduler.instance. fold key.
  destruct (dict_get key reg) as [s0|] eqn:Hget.
  - rewrite (mbind_ok _ _ reg reg tt) by (cbv beta; by rewrite Hget).
    rewrite (mbind_ok _ _ reg reg s0)
      by (unfold Scheduler.registry_get; by rewrite Hget).
    rewrite (mbind_ok _ _ reg reg1 tt) by reflexivity.
    rewrite (mbind_ok _ _ reg1 reg1 (len reg1)) by reflexivity.
    rewrite (mbind_ok _ _ reg1 _ tt Hgc).
    replace (bool_decide _) with false by (symmetry; exact Hbd).
    by rewrite andb_false_r.
  - destruct only_existing; [by destruct Hpolicy|].
    rewrite (mbind_ok _ _ reg
               (dict_set key (Scheduler.init now model_identifier
                                             (Some model_args) sync) reg) tt)
      by (cbv beta; by rewrite Hget).
    rewrite (mbind_ok _ _ _ _ (Scheduler.init now model_identifier
                                               (Some model_args) sync))
      by (unfold Scheduler.registry_get; by rewrite dict_get_set_eq).
    rewrite (mbind_ok _ _ _ reg1 tt) by (cbv beta; by rewrite dict_set_set).
    rewrite (mbind_ok _ _ reg1 reg1 (len reg1)) by reflexivity.
    rewrite (mbind_ok _ _ reg1 _ tt Hgc).
    replace (bool_decide _) with false by (symmetry; exact Hbd).
    by rewrite andb_false_r.
Qed.

(** A scheduler with users is found after the [gc] of [instance]. *)
Lemma used_scheduler_stays (reg : Scheduler.registry) (key : string * string)
    (s : Scheduler.t) :
  registry_wf pickle_dumps_hex reg ->
  ~ unused (key, s) ->
  dict_get key reg = Some s ->
  dict_get key (if len reg >=? 2 then filter (fun kv => ~ unused kv) reg else reg)
  = Some s.
Proof.
  intros Hwf Hused Hget. destruct (len reg >=? 2); [|done].
  destruct (registry_wf_filter (fun kv => ~ unused kv) reg Hwf) as [Hnd _].
  apply dict_get_of_elem; [done|].
  apply list_elem_of_filter. split; [done|]. by apply dict_get_elem.
Qed.

End Instances.

Lemma killed_pop (k : string * string) (reg : Scheduler.registry) :
  killed (dict_pop k reg) = dict_pop k (killed reg).
Proof.
  unfold killed. induction reg as [|[k' s'] reg IH]; simpl; [done|].
  destruct (decide (k' = k)); simpl; [done|]. by rewrite IH.
Qed.

Lemma killed_kill (k : string * string) (reg : Scheduler.registry) :
  killed (Scheduler.kill k reg).1 = killed reg.
Proof.
  unfold Scheduler.kill.
  destruct (dict_get k reg) as [s|] eqn:Hget; [|done]. simpl.
  unfold killed. induction reg as [|[k' s'] reg IH]; simpl in *; [done|].
  destruct (decide (k' = k)) as [->|Hne]; simpl.
  - by injection Hget as ->.
  - f_equal. by apply IH.
Qed.

Lemma dealloc_killed (pickle_dumps_hex : option (dict string pyval) -> string)
    (k : string * string) (s : Scheduler.t) (reg : Scheduler.registry) :
  killed (Scheduler.dealloc pickle_dumps_hex k s reg).1 `sublist_of` killed reg.
Proof.
  unfold Scheduler.dealloc, Scheduler.registry_pop.
  unfold mbind at 1.
  destruct (dict_get _ reg) as [s1|]; [|done].
  cbv beta iota delta [Ok]. unfold mbind.
  pose proof (killed_kill k (dict_pop
                (Scheduler.model_identifier s,
                 pickle_dumps_hex (Some (Scheduler.model_args s))) reg)) as Hkill.
  destruct (Scheduler.kill k _) as [reg1 [e|[]]] eqn:Hk; simpl in Hkill.
  - simpl. rewrite Hkill, killed_pop. apply dict_pop_sublist.
  - destruct (Scheduler.worker_thread s); simpl;
      rewrite Hkill, killed_pop; apply dict_pop_sublist.
Qed.

Lemma dealloc_each_killed
    (pickle_dumps_hex : option (dict string pyval) -> string)
    (ks : list (string * string)) (reg : Scheduler.registry) :
  killed (for_each ks (fun k => s <- Scheduler.registry_get k;;
                                Scheduler.dealloc pickle_dumps_hex k s) reg).1
  `sublist_of` killed reg.
Proof.
  revert reg. induction ks as [|k ks IH]; intros reg; simpl; [done|].
  unfold mbind at 1.
  match goal with
  | |- context [mbind (Scheduler.registry_get k) ?f reg] =>
      assert (killed (mbind (Scheduler.registry_get k) f reg).1
              `sublist_of` killed reg) as Hk;
        [|destruct (mbind (Scheduler.registry_get k) f reg) as [reg1 [e|[]]];
          [exact Hk|etrans; [apply IH|exact Hk]]]
  end.
  unfold mbind, Scheduler.registry_get.
  destruct (dict_get k reg); [apply dealloc_killed|done].
Qed.

(** [gc] only removes entries: however it ends, and also when [dealloc]
    raises in the middle, the registry it leaves holds schedulers of the
    registry it started from, in the same order and unchanged except for
    their kill events; in a registry whose schedulers are stored under
    their own identifier, they are unchanged altogether. *)
Theorem gc_only_removes
    (pickle_dumps_hex : option (dict string pyval) -> string) (n : Z)
    (reg : Scheduler.registry) :
  let out := (Scheduler.gc pickle_dumps_hex n reg).1 in
  killed out `sublist_of` killed reg /\
  (registry_wf pickle_dumps_hex reg -> out `sublist_of` reg).
Proof.
  intros out. split.
  - subst out. unfold Scheduler.gc. destruct (len reg >=? n); [|done].
    apply dealloc_each_killed.
  - intros [Hnd Hid]. subst out.
    apply (gc_sublist pickle_dumps_hex); by split.
Qed.

(** A scheduler that is not stored under its own identifier: [gc(0)] on
    [misfiled_registry] looks up the first scheduler, pops the second one,
    which is filed under the identifier of the first, sets the kill event
    of the first and joins its worker; the first stays registered, and the
    lookup of the second raises a [KeyError]. *)
Lemma gc_misfiled_scheduler :
  map (fun kv => (kv.1, Scheduler.kill_event kv.2, size (Scheduler.users kv.2)))
      misfiled_registry
  = [(("m", pickle_key None), false, 0%nat);
     (("m", pickle_key (Some [])), false, 0%nat)] /\
  map (fun kv => identifier_of pickle_key kv.2) misfiled_registry
  = [("m", pickle_key (Some [])); ("m", pickle_key (Some []))] /\
  let out := Scheduler.gc pickle_key 0 misfiled_registry in
  map (fun kv => (kv.1, Scheduler.kill_event kv.2)) out.1
  = [(("m", pickle_key None), true)] /\
  out.2 = Raise KeyError "('m', '80047d942e')".
Proof. split; [|split; [|split]]; by vm_compute. Qed.

(** [Scheduler.instance] for a user and model arguments that are not
    [None], in a registry whose schedulers are stored under their own
    identifier and whose unused schedulers run a worker thread.  Unless
    [only_existing] refuses to load a missing model, it returns the
    scheduler registered for the model and the arguments, a new one when
    there was none, with the user added to [users] and [last_use] set to
    the current time; the scheduler stays registered; and as soon as two
    schedulers are loaded, every scheduler without users is unloaded. *)
Theorem instance_registers_user
    (pickle_dumps_hex : option (dict string pyval) -> string) (now : Z)
    (model_identifier : string) (model_args : dict string pyval) (user : nat)
    (only_existing sync : bool) (reg : Scheduler.registry) :
  registry_wf pickle_dumps_hex reg ->
  Forall (fun kv => unused kv -> Scheduler.worker_thread kv.2 <> None) reg ->
  (only_existing = true ->
   dict_get (model_identifier, pickle_dumps_hex (Some model_args)) reg <> None) ->
  let key := (model_identifier, pickle_dumps_hex (Some model_args)) in
  let s :=
    Scheduler.touch now (Some user)
      (default (Scheduler.init now model_identifier (Some model_args) sync)
               (dict_get key reg)) in
  let reg1 := dict_set key s reg in
  let out :=
    Scheduler.instance pickle_dumps_hex now model_identifier (Some model_args)
                       (Some user) only_existing sync reg in
  out = (if len reg1 >=? 2 then filter (fun kv => ~ unused kv) reg1 else reg1,
         Ok s) /\
  dict_get key out.1 = Some s /\
  user ∈ Scheduler.users s /\
  Scheduler.last_use s = now /\
  registry_wf pickle_dumps_hex out.1.
Proof.
  intros Hwf Hth Hpolicy key s reg1 out.
  destruct (instance_spec pickle_dumps_hex now model_identifier model_args user
              only_existing sync reg Hwf Hth Hpolicy) as (Hout & Hwf1 & Hused).
  fold key s reg1 out in Hout, Hwf1, Hused.
  split; [done|]. rewrite Hout. simpl.
  split; [|split; [simpl; set_solver|split; [done|]]].
  - apply (used_scheduler_stays pickle_dumps_hex); [done|done|].
    apply dict_get_set_eq.
  - destruct (len reg1 >=? 2); [by apply registry_wf_filter|done].
Qed.

Lemma instance_registers_user_witness :
  registry_wf pickle_key threaded_registry /\
  Forall (fun kv => unused kv -> Scheduler.worker_thread kv.2 <> None)
         threaded_registry /\
  (false = true -> dict_get ("m3", pickle_key (Some [])) threaded_registry <> None) /\
  let key := ("m3", pickle_key (Some [])) in
  let s :=
    Scheduler.touch 5 (Some 3%nat)
      (default (Scheduler.init 5 "m3" (Some []) false)
               (dict_get key threaded_registry)) in
  let reg1 := dict_set key s threaded_registry in
  let out :=
    Scheduler.instance pickle_key 5 "m3" (Some []) (Some 3%nat) false false
                       threaded_registry in
  out = (if len reg1 >=? 2 then filter (fun kv => ~ unused kv) reg1 else reg1,
         Ok s) /\
  dict_get key out.1 = Some s /\
  3%nat ∈ Scheduler.users s /\
  Scheduler.last_use s = 5 /\
  registry_wf pickle_key out.1.
Proof.
  assert (registry_wf pickle_key threaded_registry) as H1.
  { split; apply (bool_decide_unpack _); vm_compute; reflexivity. }
  assert (Forall (fun kv => unused kv -> Scheduler.worker_thread kv.2 <> None)
                 threaded_registry) as H2.
  { apply (bool_decide_unpack _); vm_compute; reflexivity. }
  assert (false = true ->
          dict_get ("m3", pickle_key (Some [])) threaded_registry <> None) as H3
    by (intros H; discriminate H).
  split; [exact H1|]. split; [exact H2|]. split; [exact H3|].
  exact (instance_registers_user pickle_key 5 "m3" [] 3%nat false false
           threaded_registry H1 H2 H3).
Defined.

(** ** The commands of a session *)

Lemma handle_try_ok (stream_id : pyval)
    (body : St (TokenSession.t * Scheduler.registry * store) unit)
    (w : TokenSession.t * Scheduler.registry * store) :
  (TokenSession.handle_try stream_id body w).2 = Ok tt.
Proof.
  unfold TokenSession.handle_try.
  destruct (body w) as [[[self reg] st] [e|[]]]; [|done].
  by destruct (decide (exn_class e = LMTPCannotLoadModelByPolicy)).
Qed.

(** [handle] raises in one case only: when the command has no ["model"],
    the [KeyError] of [kwargs.pop("model")] leaves [handle] before the
    [try] is entered, and nothing has changed.  With a model, whatever the
    branch of the command raises is caught. *)
Theorem handle_raises_only_without_model
    (pickle_dumps_hex : option (dict string pyval) -> string) (now : Z)
    (cmd : string) (model : option string)
    (logit_bias : option (option (dict Z pyval))) (kwargs : dict string pyval)
    (m : St (TokenSession.t * Scheduler.registry * store) unit)
    (w : TokenSession.t * Scheduler.registry * store) :
  TokenSession.handle pickle_dumps_hex now cmd model logit_bias kwargs = Some m ->
  match model with
  | None => exists e, m w = (w, inl e) /\ exn_class e = KeyError
  | Some _ => (m w).2 = Ok tt
  end.
Proof.
  unfold TokenSession.handle. destruct model as [model|].
  - destruct (TokenSession.branch _ _ _ _ _ _) as [body|]; simpl; [|done].
    intros [= <-]. apply handle_try_ok.
  - intros [= <-]. by eexists.
Qed.

Lemma handle_raises_only_without_model_witness :
  TokenSession.handle pickle_key 5 "GENERATE" None None generate_kwargs
  = Some (mraise KeyError "'model'") /\
  exists e,
    (mraise KeyError "'model'"
       : St (TokenSession.t * Scheduler.registry * store) unit)
      ((score_session, []), ∅)
    = (((score_session, []), ∅), inl e) /\
    exn_class e = KeyError.
Proof.
  split; [reflexivity|].
  exact (handle_raises_only_without_model pickle_key 5 "GENERATE" None None
           generate_kwargs (mraise KeyError "'model'") ((score_session, []), ∅)
           eq_refl).
Defined.

(** A command that is none of [GENERATE], [SCORE], [MODEL_INFO] and
    [CANCEL] changes neither the session nor the registry: the session
    answers with one ["MSG"] on its output stream, which carries the
    [stream_id] of the command ([None] when it has none) and the error
    "Unknown command: " followed by the command. *)
Theorem handle_unknown_command
    (pickle_dumps_hex : option (dict string pyval) -> string) (now : Z)
    (cmd model : string) (logit_bias : option (option (dict Z pyval)))
    (kwargs : dict string pyval) (self : TokenSession.t)
    (reg : Scheduler.registry) (st : store) :
  cmd ∉ ["GENERATE"; "SCORE"; "MODEL_INFO"; "CANCEL"] ->
  exists m,
    TokenSession.handle pickle_dumps_hex now cmd (Some model) logit_bias kwargs
    = Some m /\
    m ((self, reg), st)
    = (((self, reg),
        <[TokenSession.output_stream self :=
            st !!! TokenSession.output_stream self
            ++ [("MSG",
                 ErrorPayload (dict_get_default "stream_id" VNone kwargs)
                              ("Unknown command: " +:+ cmd))]]> st),
       Ok tt).
Proof.
  intros Hcmd.
  assert (forall name, name ∈ ["GENERATE"; "SCORE"; "MODEL_INFO"; "CANCEL"] ->
            String.eqb cmd name = false) as Hne.
  { intros name Hin. apply String.eqb_neq. intros ->. by apply Hcmd. }
  unfold TokenSession.handle, TokenSession.branch.
  rewrite !Hne by set_solver. simpl. eexists. split; [reflexivity|]. done.
Qed.

Lemma handle_unknown_command_witness :
  ("PING" ∉ ["GENERATE"; "SCORE"; "MODEL_INFO"; "CANCEL"]) /\
  exists m,
    TokenSession.handle pickle_key 5 "PING" (Some "m") None generate_kwargs
    = Some m /\
    m ((score_session, []), ∅)
    = (((score_session, []),
        <[TokenSession.output_stream score_session :=
            (∅ : store) !!! TokenSession.output_stream score_session
            ++ [("MSG",
                 ErrorPayload (dict_get_default "stream_id" VNone generate_kwargs)
                              ("Unknown command: " +:+ "PING"))]]> ∅),
       Ok tt).
Proof.
  assert ("PING" ∉ ["GENERATE"; "SCORE"; "MODEL_INFO"; "CANCEL"]) as H
    by (apply (bool_decide_unpack _); reflexivity).
  split; [exact H|].
  exact (handle_unknown_command pickle_key 5 "PING" "m" None generate_kwargs
           score_session [] ∅ H).
Defined.

Lemma instance_refuses
    (pickle_dumps_hex : option (dict string pyval) -> string) (now : Z)
    (model_identifier : string) (model_args : option (dict string pyval))
    (user : option nat) (sync : bool) (reg : Scheduler.registry) :
  dict_get (model_identifier, pickle_dumps_hex model_args) reg = None ->
  Scheduler.instance pickle_dumps_hex now model_identifier model_args user true sync
                     reg
  = (reg,
     Raise LMTPCannotLoadModelByPolicy
       ("Model '" +:+ model_identifier +:+
        "' is not loaded and server is not configured to load it on demand.")).
Proof.
  intros Hmissing. unfold Scheduler.instance. apply mbind_err.
  cbv beta. by rewrite Hmissing.
Qed.

(** The [GENERATE] branch, step by step *)
Lemma handle_GENERATE_eval
    (pickle_dumps_hex : option (dict string pyval) -> string) (now : Z)
    (model : string) (logit_bias : option (option (dict Z pyval)))
    (kwargs : dict string pyval) (self : TokenSession.t)
    (reg : Scheduler.registry) (prompt sid : pyval) :
  dict_get "prompt" kwargs = Some prompt ->
  dict_get "stream_id" kwargs = Some sid ->
  TokenSession.handle_GENERATE pickle_dumps_hex now model logit_bias kwargs
                               (self, reg)
  = let self1 := TokenSession.add_used_model model self in
    match Scheduler.instance pickle_dumps_hex now model
            (TokenSession.model_args self) (Some (TokenSession.handle_id self))
            (TokenSession.static self) false reg with
    | (reg1, inl e) => ((self1, reg1), inl e)
    | (reg1, inr _) =>
        match TokenSession.py_ids prompt with
        | inl e => ((self1, reg1), inl e)
        | inr ids =>
            let call :=
              GenerateCall.mk ids (default (Some []) logit_bias)
                (dict_pop "stream_id" (dict_pop "prompt" kwargs)) sid
                (TokenSession.output_stream self) false in
            if TokenSession.hashable sid then
              ((TokenSession.set_active_stream sid call self1,
                (TokenSession.scheduler_put
                   (model, pickle_dumps_hex (TokenSession.model_args self))
                   call reg1).1),
               Ok tt)
            else ((self1, reg1), Raise TypeError "unhashable type: 'list'")
        end
    end.
Proof.
  intros Hprompt Hsid.
  unfold TokenSession.handle_GENERATE, TokenSession.pop_item.
  rewrite Hprompt, bind_lift_ok. cbv beta iota.
  rewrite dict_get_pop_ne, Hsid, bind_lift_ok by done. cbv beta iota zeta.
  rewrite (mbind_ok _ _ (self, reg) (TokenSession.add_used_model model self, reg) tt)
    by reflexivity.
  rewrite (mbind_ok _ _ (TokenSession.add_used_model model self, reg)
             (TokenSession.add_used_model model self, reg)
             (TokenSession.add_used_model model self)) by reflexivity.
  unfold mbind at 1, TokenSession.on_registry at 1.
  simpl TokenSession.model_args. simpl TokenSession.static.
  simpl TokenSession.handle_id. simpl TokenSession.output_stream.
  destruct (Scheduler.instance _ _ _ _ _ _ _ reg) as [reg1 [e|s]]; [done|].
  destruct (TokenSession.py_ids prompt) as [e|ids];
    [by rewrite bind_lift_err|rewrite bind_lift_ok].
  unfold TokenSession.store_active_stream.
  destruct (TokenSession.hashable sid); [|done].
  unfold mbind, TokenSession.on_session, TokenSession.on_registry,
         TokenSession.scheduler_put.
  by destruct (dict_get _ reg1).
Qed.

(** A [GENERATE] command for a model that is not loaded, in a session that
    may not load models ([static]), is answered with one ["MSG"] that
    carries the stream id of the command and the error "The requested
    model is not loaded and the server is not configured to load it on
    demand.".  No scheduler is created and no call is made; the model is
    nevertheless recorded in [used_models], which happens before the
    scheduler is looked up. *)
Theorem generate_refused_by_policy
    (pickle_dumps_hex : option (dict string pyval) -> string) (now : Z)
    (model : string) (logit_bias : option (option (dict Z pyval)))
    (kwargs : dict string pyval) (self : TokenSession.t)
    (reg : Scheduler.registry) (st : store) (prompt sid : pyval) :
  TokenSession.static self = true ->
  dict_get (model, pickle_dumps_hex (TokenSession.model_args self)) reg = None ->
  dict_get "prompt" kwargs = Some prompt ->
  dict_get "stream_id" kwargs = Some sid ->
  exists m,
    TokenSession.handle pickle_dumps_hex now "GENERATE" (Some model) logit_bias
                        kwargs
    = Some m /\
    m ((self, reg), st)
    = (((TokenSession.add_used_model model self, reg),
        <[TokenSession.output_stream self :=
            st !!! TokenSession.output_stream self
            ++ [("MSG",
                 ErrorPayload sid
                   "The requested model is not loaded and the server is not configured to load it on demand.")]]>
          st),
       Ok tt).
Proof.
  intros Hstatic Hmissing Hprompt Hsid.
  eexists. split; [reflexivity|].
  unfold TokenSession.handle_try, TokenSession.on_core, dict_get_default.
  rewrite (handle_GENERATE_eval _ _ _ _ _ _ _ _ _ Hprompt Hsid). cbv zeta.
  rewrite Hstatic, instance_refuses by done.
  rewrite Hsid. unfold Raise. simpl. done.
Qed.

Lemma generate_refused_by_policy_witness :
  TokenSession.static static_session = true /\
  dict_get ("m", pickle_key (TokenSession.model_args static_session))
           ([] : Scheduler.registry) = None /\
  dict_get "prompt" generate_kwargs = Some (VList [1; 2]) /\
  dict_get "stream_id" generate_kwargs = Some (VInt 7) /\
  exists m,
    TokenSession.handle pickle_key 5 "GENERATE" (Some "m") None generate_kwargs
    = Some m /\
    m ((static_session, []), ∅)
    = (((TokenSession.add_used_model "m" static_session, []),
        <[TokenSession.output_stream static_session :=
            (∅ : store) !!! TokenSession.output_stream static_session
            ++ [("MSG",
                 ErrorPayload (VInt 7)
                   "The requested model is not loaded and the server is not configured to load it on demand.")]]>
          ∅),
       Ok tt).
Proof.
  split; [reflexivity|]. split; [reflexivity|]. split; [reflexivity|].
  split; [reflexivity|].
  exact (generate_refused_by_policy pickle_key 5 "m" None generate_kwargs
           static_session [] ∅ (VList [1; 2]) (VInt 7)
           eq_refl eq_refl eq_refl eq_refl).
Defined.

(** A [GENERATE] command with a prompt of token ids [p] and a hashable
    stream id, in a registry whose schedulers are stored under their own
    identifier and whose unused schedulers run a worker thread, for a model
    that the session may use.  The command puts nothing on a queue.  It
    builds a call with the prompt [p], the logit bias of the command (empty
    when it gives none), the arguments that are left once ["prompt"] and
    ["stream_id"] are popped, and the output stream of the session; the
    call is the last one in the queue of the scheduler registered for the
    model, of which the session is now a user, and it is the active stream
    of its stream id. *)
Theorem generate_command_enqueues
    (pickle_dumps_hex : option (dict string pyval) -> string) (now : Z)
    (model : string) (logit_bias : option (option (dict Z pyval)))
    (kwargs : dict string pyval) (self : TokenSession.t)
    (reg : Scheduler.registry) (st : store) (args : dict string pyval)
    (p : list Z) (sid : pyval) :
  registry_wf pickle_dumps_hex reg ->
  Forall (fun kv => unused kv -> Scheduler.worker_thread kv.2 <> None) reg ->
  (TokenSession.static self = true ->
   dict_get (model, pickle_dumps_hex (Some args)) reg <> None) ->
  TokenSession.model_args self = Some args ->
  dict_get "prompt" kwargs = Some (VList p) ->
  dict_get "stream_id" kwargs = Some sid ->
  TokenSession.hashable sid = true ->
  let key := (model, pickle_dumps_hex (Some args)) in
  let call :=
    GenerateCall.mk p (default (Some []) logit_bias)
      (dict_pop "stream_id" (dict_pop "prompt" kwargs)) sid
      (TokenSession.output_stream self) false in
  exists m self' reg' s,
    TokenSession.handle pickle_dumps_hex now "GENERATE" (Some model) logit_bias
                        kwargs
    = Some m /\
    m ((self, reg), st) = (((self', reg'), st), Ok tt) /\
    dict_get key reg' = Some s /\
    Scheduler.queue s
    = default [] (Scheduler.queue <$> dict_get key reg) ++ [call] /\
    TokenSession.handle_id self ∈ Scheduler.users s /\
    Scheduler.last_use s = now /\
    dict_get sid (TokenSession.active_stream self') = Some call /\
    TokenSession.used_models self' = TokenSession.used_models self ∪ {[model]}.
Proof.
  intros Hwf Hth Hpolicy Hargs Hprompt Hsid Hhash key call.
  destruct (instance_spec pickle_dumps_hex now model args
              (TokenSession.handle_id self) (TokenSession.static self) false reg
              Hwf Hth Hpolicy) as (Hrun & Hwf1 & Hused).
  fold key in Hrun, Hwf1, Hused.
  set (s0 := Scheduler.touch now (Some (TokenSession.handle_id self))
               (default (Scheduler.init now model (Some args) false)
                        (dict_get key reg))) in *.
  pose proof (used_scheduler_stays pickle_dumps_hex _ key s0 Hwf1 Hused
                (dict_get_set_eq _ _ _)) as Hget.
  assert (TokenSession.handle_id self ∈ Scheduler.users s0) as Huser
    by (simpl; set_solver).
  eexists _, _, _, (Scheduler.put s0 call). split; [reflexivity|].
  unfold TokenSession.handle_try, TokenSession.on_core.
  rewrite (handle_GENERATE_eval _ _ _ _ _ _ _ _ _ Hprompt Hsid). cbv zeta.
  rewrite Hargs, Hrun. simpl TokenSession.py_ids. cbv iota.
  rewrite Hhash. fold key. fold call.
  unfold TokenSession.scheduler_put. rewrite Hget. simpl.
  split; [reflexivity|]. split; [apply dict_get_set_eq|].
  split; [|split; [done|split; [done|split; [apply dict_get_set_eq|done]]]].
  f_equal. unfold s0. simpl. by destruct (dict_get key reg).
Qed.

Lemma generate_command_enqueues_witness :
  registry_wf pickle_key threaded_registry /\
  Forall (fun kv => unused kv -> Scheduler.worker_thread kv.2 <> None)
         threaded_registry /\
  (TokenSession.static score_session = true ->
   dict_get ("m1", pickle_key (Some [])) threaded_registry <> None) /\
  TokenSession.model_args score_session = Some [] /\
  dict_get "prompt" generate_kwargs = Some (VList [1; 2]) /\
  dict_get "stream_id" generate_kwargs = Some (VInt 7) /\
  TokenSession.hashable (VInt 7) = true /\
  let key := ("m1", pickle_key (Some [])) in
  let call :=
    GenerateCall.mk [1; 2] (default (Some []) None)
      (dict_pop "stream_id" (dict_pop "prompt" generate_kwargs)) (VInt 7)
      (TokenSession.output_stream score_session) false in
  exists m self' reg' s,
    TokenSession.handle pickle_key 5 "GENERATE" (Some "m1") None generate_kwargs
    = Some m /\
    m ((score_session, threaded_registry), ∅) = (((self', reg'), ∅), Ok tt) /\
    dict_get key reg' = Some s /\
    Scheduler.queue s
    = default [] (Scheduler.queue <$> dict_get key threaded_registry) ++ [call] /\
    TokenSession.handle_id score_session ∈ Scheduler.users s /\
    Scheduler.last_use s = 5 /\
    dict_get (VInt 7) (TokenSession.active_stream self') = Some call /\
    TokenSession.used_models self'
    = TokenSession.used_models score_session ∪ {[ "m1" ]}.
Proof.
  assert (registry_wf pickle_key threaded_registry) as H1.
  { split; apply (bool_decide_unpack _); vm_compute; reflexivity. }
  assert (Forall (fun kv => unused kv -> Scheduler.worker_thread kv.2 <> None)
                 threaded_registry) as H2.
  { apply (bool_decide_unpack _); vm_compute; reflexivity. }
  assert (TokenSession.static score_session = true ->
          dict_get ("m1", pickle_key (Some [])) threaded_registry <> None) as H3
    by (intros H; discriminate H).
  split; [exact H1|]. split; [exact H2|]. split; [exact H3|].
  split; [reflexivity|]. split; [reflexivity|]. split; [reflexivity|].
  split; [reflexivity|].
  exact (generate_command_enqueues pickle_key 5 "m1" None generate_kwargs
           score_session threaded_registry ∅ [] [1; 2] (VInt 7)
           H1 H2 H3 eq_refl eq_refl eq_refl eq_refl).
Defined.

(** ** The [SCORE] command *)

(** The [SCORE] branch, step by step *)
Lemma handle_SCORE_eval
    (pickle_dumps_hex : option (dict string pyval) -> string) (now : Z)
    (model : string) (kwargs : dict string pyval) (self : TokenSession.t)
    (reg : Scheduler.registry) (prompt scored sid : pyval) :
  dict_get "prompt" kwargs = Some prompt ->
  dict_get "scored" kwargs = Some scored ->
  dict_get "stream_id" kwargs = Some sid ->
  TokenSession.handle_SCORE pickle_dumps_hex now model kwargs (self, reg)
  = let self1 := TokenSession.add_used_model model self in
    match TokenSession.score_call self kwargs with
    | inl e => ((self1, reg), inl e)
    | inr call =>
        match Scheduler.instance pickle_dumps_hex now model
                (TokenSession.model_args self)
                (Some (TokenSession.handle_id self))
                (TokenSession.static self) false reg with
        | (reg1, inl e) => ((self1, reg1), inl e)
        | (reg1, inr _) =>
            if TokenSession.hashable (GenerateCall.stream_id call) then
              ((TokenSession.set_active_stream (GenerateCall.stream_id call)
                  call self1,
                (TokenSession.scheduler_put
                   (model, pickle_dumps_hex (TokenSession.model_args self))
                   call reg1).1),
               Ok tt)
            else ((self1, reg1), Raise TypeError "unhashable type: 'list'")
        end
    end.
Proof.
  intros Hprompt Hscored Hsid.
  unfold TokenSession.handle_SCORE, TokenSession.pop_item.
  rewrite Hprompt. simpl rbind.
  rewrite dict_get_pop_ne, Hscored by done. simpl rbind.
  rewrite !dict_get_pop_ne, Hsid by done. rewrite bind_lift_ok.
  rewrite (mbind_ok _ _ (self, reg) (TokenSession.add_used_model model self, reg) tt)
    by reflexivity.
  rewrite (mbind_ok _ _ (TokenSession.add_used_model model self, reg)
             (TokenSession.add_used_model model self, reg)
             (TokenSession.add_used_model model self)) by reflexivity.
  change (TokenSession.score_call (TokenSession.add_used_model model self) kwargs)
    with (TokenSession.score_call self kwargs).
  cbv zeta.
  destruct (TokenSession.score_call self kwargs) as [e|call];
    [by rewrite bind_lift_err|rewrite bind_lift_ok].
  unfold mbind at 1, TokenSession.on_registry at 1.
  simpl TokenSession.model_args. simpl TokenSession.static.
  simpl TokenSession.handle_id.
  destruct (Scheduler.instance _ _ _ _ _ _ _ reg) as [reg1 [e|s]]; [done|].
  unfold TokenSession.store_active_stream.
  destruct (TokenSession.hashable (GenerateCall.stream_id call)); [|done].
  unfold mbind, TokenSession.on_session, TokenSession.on_registry,
         TokenSession.scheduler_put.
  by destruct (dict_get _ reg1).
Qed.

(** The row of a call that scores [s] after the prompt [p], in a batch
    that is scored with scores of the shape of its input *)
Lemma score_call_rows (call : GenerateCall.t) (p s : list Z)
    (calls : list GenerateCall.t) (i : nat) (b : GenerateBatch.t)
    (all_scores : list (list Q)) :
  GenerateCall.prompt call = p ++ s ->
  GenerateCall.kw_score call = true ->
  kw_scoring_offset call = Ok (Z.of_nat (length p)) ->
  calls !! i = Some call ->
  GenerateBatch.from_calls calls = Ok b ->
  same_shape (GenerateBatch.input_ids b) all_scores ->
  exists (pad : nat) (offs : list Z) (row : list Q),
    GenerateBatch.is_score b = true /\
    GenerateBatch.input_ids b !! i = Some (replicate pad 0 ++ p ++ s) /\
    GenerateBatch.scoring_offsets b = Some offs /\
    offs !! i = Some (Z.of_nat (length p + pad)) /\
    emits calls (ScoreStreamer.log_token b all_scores)
          (row_events 0 (map (score_row b all_scores offs)
                             (seq 0 (length all_scores)))) (Ok tt) /\
    length all_scores = length calls /\
    all_scores !! i = Some row /\
    length row = (pad + (length p + length s))%nat /\
    score_row b all_scores offs i
    = score_payloads call (drop (length p + pad) row) s.
Proof.
  intros Hprompt Hscore Hoff Hi Hb Hshape.
  destruct (from_calls_inv calls b Hb)
    as (max_len & Hmax & Hids & Hmask & Hcalls & His & Hoffs).
  assert (GenerateBatch.is_score b = true) as Hisb.
  { rewrite His. apply existsb_exists. exists call. split; [|done].
    apply list_elem_of_In. by eapply list_elem_of_lookup_2. }
  destruct (Hoffs Hisb) as (offs & Hboffs & Hrm).
  apply py_max_spec in Hmax as [_ Hle].
  assert (len (p ++ s) <= max_len) as Hfit.
  { apply Hle. apply list_elem_of_fmap. exists (p ++ s). split; [done|].
    apply list_elem_of_fmap. exists call. split; [done|].
    by eapply list_elem_of_lookup_2. }
  unfold len in Hfit. rewrite length_app in Hfit.
  set (pad := Z.to_nat (max_len - Z.of_nat (length p + length s))).
  assert (GenerateBatch.input_ids b !! i = Some (replicate pad 0 ++ p ++ s)) as Hrowi.
  { rewrite Hids, !list_lookup_fmap, Hi. simpl. rewrite Hprompt.
    unfold pad_row, repeat_z, len, pad.
    by rewrite length_app, Nat2Z.inj_add. }
  destruct (rmapM_lookup _ _ _ _ _ Hrm Hi) as (off & Hoffi & Hoffsi).
  fold (kw_scoring_offset call) in Hoffi. rewrite Hoff in Hoffi. simpl in Hoffi.
  injection Hoffi as <-. rewrite Hprompt in Hoffsi.
  assert (Z.of_nat (length p) + (max_len - len (p ++ s))
          = Z.of_nat (length p + pad)) as Hoffeq.
  { unfold len, pad. rewrite length_app. lia. }
  rewrite Hoffeq in Hoffsi.
  assert (length (GenerateBatch.input_ids b) = length calls) as Hli
    by (by rewrite Hids, !length_map).
  assert (length all_scores = length calls) as Hls
    by (by rewrite <- Hli, (Forall2_length _ _ _ Hshape)).
  assert (length offs = length calls) as Hlo by (by apply rmapM_length in Hrm).
  destruct (lookup_lt_is_Some_2 all_scores i) as [row Hrow].
  { rewrite Hls. by eapply lookup_lt_Some. }
  assert (length row = (pad + (length p + length s))%nat) as Hrowlen.
  { rewrite (Forall2_lookup_lr _ _ _ _ _ _ Hshape Hrowi Hrow).
    by rewrite !length_app, length_replicate. }
  exists pad, offs, row.
  split; [done|]. split; [done|]. split; [done|]. split; [done|].
  split.
  { rewrite <- Hcalls at 1. apply score_streamer_succeeds; by rewrite ?Hcalls. }
  split; [done|]. split; [done|]. split; [done|].
  unfold score_row. rewrite Hcalls, Hi, Hoffsi, Hrow, Hrowi.
  rewrite !py_slice_from_nat. f_equal.
  rewrite drop_app_ge by (rewrite length_replicate; lia).
  rewrite length_replicate.
  replace (length p + pad - pad)%nat with (length p) by lia.
  by rewrite drop_app_length.
Qed.

(** C4: a [SCORE] command with prompt [p], scored tokens [s] and a hashable
    stream id [sid], handled by [TokenSession.handle] in a registry whose
    schedulers are stored under their own identifier and whose unused
    schedulers run a worker thread, for a model that the session may use.
    [handle] puts nothing on a queue and submits one call with
    [Scheduler.put] to the scheduler registered for the model; the call is
    the active stream of [sid], its prompt is [p ++ s], with [score = True]
    and [scoring_offset = len(p)].  In any batch built from calls that
    contains it as row [i], the batch is a score batch, the row is [p ++ s]
    behind its left padding and its scoring offset is [len(p)] plus that
    padding.  When [model.score] returns scores of the shape of
    [input_ids], the [try] of [process_batch] raises nothing and what it
    puts on the queues are the payloads of the [ScoreStreamer]; those of
    row [i] are exactly one per token of [s], in order: the [j]-th carries
    [s[j]], [sid] and the score at the position of [s[j]] in the row, and
    only the last one has the finish reason ["stop"]. *)
Theorem score_command_payloads
    (pickle_dumps_hex : option (dict string pyval) -> string) (now : Z)
    (model : string) (logit_bias : option (option (dict Z pyval)))
    (kwargs : dict string pyval) (self : TokenSession.t)
    (reg : Scheduler.registry) (st : store) (args : dict string pyval)
    (p s : list Z) (sid : pyval) :
  registry_wf pickle_dumps_hex reg ->
  Forall (fun kv => unused kv -> Scheduler.worker_thread kv.2 <> None) reg ->
  (TokenSession.static self = true ->
   dict_get (model, pickle_dumps_hex (Some args)) reg <> None) ->
  TokenSession.model_args self = Some args ->
  dict_get "prompt" kwargs = Some (VList p) ->
  dict_get "scored" kwargs = Some (VList s) ->
  dict_get "stream_id" kwargs = Some sid ->
  TokenSession.hashable sid = true ->
  let key := (model, pickle_dumps_hex (Some args)) in
  exists m self' reg' scheduler call,
    TokenSession.handle pickle_dumps_hex now "SCORE" (Some model) logit_bias kwargs
    = Some m /\
    m ((self, reg), st) = (((self', reg'), st), Ok tt) /\
    dict_get key reg' = Some (Scheduler.put scheduler call) /\
    Scheduler.queue scheduler = default [] (Scheduler.queue <$> dict_get key reg) /\
    TokenSession.handle_id self ∈ Scheduler.users scheduler /\
    dict_get sid (TokenSession.active_stream self') = Some call /\
    GenerateCall.prompt call = p ++ s /\
    GenerateCall.stream_id call = sid /\
    GenerateCall.result_queue call = TokenSession.output_stream self /\
    GenerateCall.kw_score call = true /\
    kw_scoring_offset call = Ok (Z.of_nat (length p)) /\
    forall (calls : list GenerateCall.t) (i : nat) (b : GenerateBatch.t)
           (all_scores : list (list Q)),
      calls !! i = Some call ->
      GenerateBatch.from_calls calls = Ok b ->
      same_shape (GenerateBatch.input_ids b) all_scores ->
      exists (pad : nat) (offs : list Z) (rows : list (list payload))
             (ps : list payload) (row : list Q),
        GenerateBatch.is_score b = true /\
        GenerateBatch.input_ids b !! i = Some (replicate pad 0 ++ p ++ s) /\
        GenerateBatch.scoring_offsets b = Some offs /\
        offs !! i = Some (Z.of_nat (length p + pad)) /\
        emits calls (ScoreStreamer.log_token b all_scores) (row_events 0 rows) (Ok tt) /\
        (forall (backend : LMTPModel) (input_ids attention_mask : argval)
                (st0 : store),
           dict_get "input_ids" (generate_args b) = Some input_ids ->
           dict_get "attention_mask" (generate_args b) = Some attention_mask ->
           score backend input_ids attention_mask = Ok all_scores ->
           exists st1,
             Scheduler.run_batch backend calls st0 = (st1, Ok tt) /\
             forall q, st1 !!! q = st0 !!! q ++ delivered calls q (row_events 0 rows)) /\
        length rows = length calls /\
        rows !! i = Some ps /\
        all_scores !! i = Some row /\
        length ps = length s /\
        forall (j : nat) (tok : Z),
          s !! j = Some tok ->
          exists x,
            row !! (pad + length p + j)%nat = Some x /\
            ps !! j = Some (TokenPayload tok sid x
                              (if decide (S j = length s) then Some "stop" else None)
                              None).
Proof.
  intros Hwf Hth Hpolicy Hargs Hp Hs Hsid Hhash key.
  destruct (score_call_spec self kwargs p s sid Hp Hs Hsid)
    as (call & Hcall & Hprompt & Hcsid & Hqueue & _ & Hkwscore & Hkwoff).
  assert (GenerateCall.kw_score call = true) as Hscore.
  { unfold GenerateCall.kw_score, dict_get_default. by rewrite Hkwscore. }
  assert (kw_scoring_offset call = Ok (Z.of_nat (length p))) as Hoff.
  { unfold kw_scoring_offset, dict_get_default. by rewrite Hkwoff. }
  destruct (instance_spec pickle_dumps_hex now model args
              (TokenSession.handle_id self) (TokenSession.static self) false reg
              Hwf Hth Hpolicy) as (Hrun & Hwf1 & Hused).
  fold key in Hrun, Hwf1, Hused.
  set (s0 := Scheduler.touch now (Some (TokenSession.handle_id self))
               (default (Scheduler.init now model (Some args) false)
                        (dict_get key reg))) in *.
  pose proof (used_scheduler_stays pickle_dumps_hex _ key s0 Hwf1 Hused
                (dict_get_set_eq _ _ _)) as Hget.
  assert (TokenSession.handle_id self ∈ Scheduler.users s0) as Huser
    by (simpl; set_solver).
  eexists _, _, _, s0, call. split; [reflexivity|].
  unfold TokenSession.handle_try, TokenSession.on_core.
  rewrite (handle_SCORE_eval _ _ _ _ _ _ _ _ _ Hp Hs Hsid). cbv zeta.
  rewrite Hcall. unfold Ok. cbv iota beta.
  rewrite Hargs, Hrun. unfold Ok. cbv iota beta.
  rewrite Hcsid, Hhash. fold key.
  unfold TokenSession.scheduler_put. rewrite Hget. simpl.
  split; [reflexivity|]. split; [apply dict_get_set_eq|].
  split; [unfold s0; simpl; by destruct (dict_get key reg)|].
  split; [done|]. split; [apply dict_get_set_eq|].
  split; [done|]. split; [done|]. split; [done|]. split; [done|]. split; [done|].
  intros calls i b all_scores Hi Hb Hshape.
  destruct (score_call_rows call p s calls i b all_scores
              Hprompt Hscore Hoff Hi Hb Hshape)
    as (pad & offs & row & Hisb & Hrowi & Hboffs & Hoffsi & Hemits & Hls
        & Hrow & Hrowlen & Hps).
  exists pad, offs,
    (map (score_row b all_scores offs) (seq 0 (length all_scores))),
    (score_row b all_scores offs i), row.
  split; [done|]. split; [done|]. split; [done|]. split; [done|].
  split; [done|]. split.
  { intros backend input_ids attention_mask st0 Hids Hmask Hsc.
    destruct (Hemits st0) as (st1 & Hlog & Hst1).
    exists st1. split; [|done].
    unfold Scheduler.run_batch, dict_item.
    by rewrite Hb, bind_lift_ok, Hisb, Hids, bind_lift_ok, Hmask, bind_lift_ok,
               Hsc, bind_lift_ok. }
  split; [by rewrite length_map, length_seq|].
  split.
  { rewrite list_lookup_fmap, lookup_seq_lt; [done|].
    rewrite Hls. by eapply lookup_lt_Some. }
  split; [done|]. rewrite Hps.
  unfold score_payloads. split.
  { rewrite length_imap, length_zip, length_drop. lia. }
  intros j tok Hj.
  pose proof (lookup_lt_Some _ _ _ Hj) as Hjlt.
  destruct (lookup_lt_is_Some_2 row (pad + length p + j)) as [x Hx]; [lia|].
  exists x. split; [done|].
  rewrite list_lookup_imap.
  assert (zip (drop (length p + pad) row) s !! j = Some (x, tok)) as ->.
  { apply lookup_zip_with_Some. exists x, tok. split; [done|]. split; [|done].
    rewrite lookup_drop, <- Hx. f_equal. lia. }
  simpl. rewrite Hcsid. f_equal. f_equal.
  unfold len. rewrite length_drop.
  destruct (decide (S j = length s)), (decide (_ = _)); try done; lia.
Qed.

Lemma score_command_payloads_witness :
  registry_wf pickle_key threaded_registry /\
  Forall (fun kv => unused kv -> Scheduler.worker_thread kv.2 <> None)
         threaded_registry /\
  (TokenSession.static score_session = true ->
   dict_get ("m1", pickle_key (Some [])) threaded_registry <> None) /\
  TokenSession.model_args score_session = Some [] /\
  dict_get "prompt" score_kwargs = Some (VList [1; 2]) /\
  dict_get "scored" score_kwargs = Some (VList [3; 4; 5]) /\
  dict_get "stream_id" score_kwargs = Some (VInt 7) /\
  TokenSession.hashable (VInt 7) = true /\
  let key := ("m1", pickle_key (Some [])) in
  exists m self' reg' scheduler call,
    TokenSession.handle pickle_key 5 "SCORE" (Some "m1") None score_kwargs
    = Some m /\
    m ((score_session, threaded_registry), ∅) = (((self', reg'), ∅), Ok tt) /\
    dict_get key reg' = Some (Scheduler.put scheduler call) /\
    Scheduler.queue scheduler
    = default [] (Scheduler.queue <$> dict_get key threaded_registry) /\
    TokenSession.handle_id score_session ∈ Scheduler.users scheduler /\
    dict_get (VInt 7) (TokenSession.active_stream self') = Some call /\
    GenerateCall.prompt call = [1; 2] ++ [3; 4; 5] /\
    GenerateCall.stream_id call = VInt 7 /\
    GenerateCall.result_queue call = TokenSession.output_stream score_session /\
    GenerateCall.kw_score call = true /\
    kw_scoring_offset call = Ok (Z.of_nat (length [1; 2])) /\
    forall (calls : list GenerateCall.t) (i : nat) (b : GenerateBatch.t)
           (all_scores : list (list Q)),
      calls !! i = Some call ->
      GenerateBatch.from_calls calls = Ok b ->
      same_shape (GenerateBatch.input_ids b) all_scores ->
      exists (pad : nat) (offs : list Z) (rows : list (list payload))
             (ps : list payload) (row : list Q),
        GenerateBatch.is_score b = true /\
        GenerateBatch.input_ids b !! i = Some (replicate pad 0 ++ [1; 2] ++ [3; 4; 5]) /\
        GenerateBatch.scoring_offsets b = Some offs /\
        offs !! i = Some (Z.of_nat (length [1; 2] + pad)) /\
        emits calls (ScoreStreamer.log_token b all_scores) (row_events 0 rows) (Ok tt) /\
        (forall (backend : LMTPModel) (input_ids attention_mask : argval)
                (st0 : store),
           dict_get "input_ids" (generate_args b) = Some input_ids ->
           dict_get "attention_mask" (generate_args b) = Some attention_mask ->
           score backend input_ids attention_mask = Ok all_scores ->
           exists st1,
             Scheduler.run_batch backend calls st0 = (st1, Ok tt) /\
             forall q, st1 !!! q = st0 !!! q ++ delivered calls q (row_events 0 rows)) /\
        length rows = length calls /\
        rows !! i = Some ps /\
        all_scores !! i = Some row /\
        length ps = length [3; 4; 5] /\
        forall (j : nat) (tok : Z),
          [3; 4; 5] !! j = Some tok ->
          exists x,
            row !! (pad + length [1; 2] + j)%nat = Some x /\
            ps !! j = Some (TokenPayload tok (VInt 7) x
                              (if decide (S j = length [3; 4; 5]) then Some "stop" else None)
                              None).
Proof.
  assert (registry_wf pickle_key threaded_registry) as H1.
  { split; apply (bool_decide_unpack _); vm_compute; reflexivity. }
  assert (Forall (fun kv => unused kv -> Scheduler.worker_thread kv.2 <> None)
                 threaded_registry) as H2.
  { apply (bool_decide_unpack _); vm_compute; reflexivity. }
  assert (TokenSession.static score_session = true ->
          dict_get ("m1", pickle_key (Some [])) threaded_registry <> None) as H3
    by (intros H; discriminate H).
  split; [exact H1|]. split; [exact H2|]. split; [exact H3|].
  split; [reflexivity|]. split; [reflexivity|]. split; [reflexivity|].
  split; [reflexivity|]. split; [reflexivity|].
  exact (score_command_payloads pickle_key 5 "m1" None score_kwargs
           score_session threaded_registry ∅ [] [1; 2] [3; 4; 5] (VInt 7)
           H1 H2 H3 eq_refl eq_refl eq_refl eq_refl eq_refl).
Defined.

(** A list is not hashable: a [SCORE] command whose stream id is a list is
    answered with the [TypeError] of [self.active_stream[stream_id] = call]
    as a ["MSG"], after the session has become a user of the scheduler; no
    call is recorded or submitted. *)
Lemma score_command_list_stream_id :
  exists m self' reg',
    TokenSession.handle pickle_key 5 "SCORE" (Some "m1") None
      [("stream_id", VList [7]); ("prompt", VList [1; 2]);
       ("scored", VList [3; 4; 5])]
    = Some m /\
    m ((score_session, threaded_registry), ∅)
    = (((self', reg'),
        {[ 0%nat := [("MSG", ErrorPayload (VList [7]) "unhashable type: 'list'")] ]}),
       Ok tt) /\
    TokenSession.active_stream self' = [] /\
    Scheduler.queue <$> dict_get ("m1", pickle_key (Some [])) reg' = Some [] /\
    bool_decide
      ((Scheduler.users <$> dict_get ("m1", pickle_key (Some [])) reg')
       = Some {[ 1%nat ]}) = true.
Proof.
  eexists _, _, _. split; [reflexivity|].
  split; [vm_compute; reflexivity|]. split; [reflexivity|].
  split; by vm_compute.
Qed.

(** ** Where the cancelled flag is read *)

Lemma py_index_map {A B} (f : A -> B) (l : list A) (i : Z) :
  py_index (map f l) i
  = match py_index l i with
    | inl e => inl e
    | inr a => inr (f a)
    end.
Proof.
  unfold py_index. cbv zeta. rewrite length_map.
  destruct (_ && _); [|done].
  rewrite list_lookup_fmap. by destruct (l !! _).
Qed.

Lemma rmapM_map {A B C} (f : B -> result C) (g : A -> B) (l : list A) :
  rmapM f (map g l) = rmapM (fun a => f (g a)) l.
Proof. induction l as [|a l IH]; simpl; [done|]. by rewrite IH. Qed.

Lemma existsb_map {A B} (f : B -> bool) (g : A -> B) (l : list A) :
  existsb f (map g l) = existsb (fun a => f (g a)) l.
Proof. induction l as [|a l IH]; simpl; [done|]. by rewrite IH. Qed.

Lemma forallb_map {A B} (f : B -> bool) (g : A -> B) (l : list A) :
  forallb f (map g l) = forallb (fun a => f (g a)) l.
Proof. induction l as [|a l IH]; simpl; [done|]. by rewrite IH. Qed.

Lemma for_each_map {S A B} (g : A -> B) (l : list A) (body : B -> St S unit) :
  for_each (map g l) body = for_each l (fun a => body (g a)).
Proof. induction l as [|a l IH]; simpl; [done|]. by rewrite IH. Qed.

Lemma for_each_pointwise {S X} (l : list X) (f g : X -> St S unit) :
  (forall x st, f x st = g x st) -> forall st, for_each l f st = for_each l g st.
Proof.
  intros Hfg. induction l as [|x l IH]; intros st; simpl; [done|].
  unfold mbind. rewrite Hfg. destruct (g x st) as [st1 [e|[]]]; [done|apply IH].
Qed.

Lemma from_calls_uncancel (calls : list GenerateCall.t) :
  GenerateBatch.from_calls (map uncancel calls)
  = match GenerateBatch.from_calls calls with
    | inl e => inl e
    | inr b => Ok (with_calls b (map uncancel calls))
    end.
Proof.
  unfold GenerateBatch.from_calls.
  rewrite !map_map, py_index_map, !rmapM_map, existsb_map, forallb_map.
  simpl GenerateCall.prompt. simpl GenerateCall.kwargs.
  change (fun x : GenerateCall.t => GenerateCall.prompt x) with GenerateCall.prompt.
  change (fun a : GenerateCall.t => GenerateCall.kw_score (uncancel a))
    with GenerateCall.kw_score.
  destruct (py_max _) as [e1|max_len]; simpl; [done|].
  destruct (py_index calls 0) as [e2|c0]; simpl; [done|].
  destruct (rmapM _ calls) as [e3|mts]; simpl; [done|].
  destruct (py_max mts) as [e4|mt]; simpl; [done|].
  destruct (existsb GenerateCall.kw_score calls); simpl.
  - destruct (forallb GenerateCall.kw_score calls); simpl; [|done].
    rewrite rmapM_map. simpl GenerateCall.kwargs. simpl GenerateCall.prompt.
    by destruct (rmapM _ calls) as [e5|offs].
  - done.
Qed.

Ltac lift_both :=
  match goal with
  | |- context [mbind (lift ?r) _] =>
      destruct r; [by rewrite !bind_lift_err|rewrite !bind_lift_ok; cbv beta]
  end.

Lemma mbind_cong_l {S A B} (m m' : St S A) (f : A -> St S B) (st : S) :
  m st = m' st -> mbind m f st = mbind m' f st.
Proof. intros H. unfold mbind. by rewrite H. Qed.

Lemma score_streamer_uncancel (b : GenerateBatch.t) (all_scores : list (list Q))
    (st : store) :
  ScoreStreamer.log_token (with_calls b (map uncancel (GenerateBatch.calls b)))
                          all_scores st
  = ScoreStreamer.log_token b all_scores st.
Proof.
  unfold ScoreStreamer.log_token. cbv zeta. apply for_each_pointwise.
  intros i st'. simpl GenerateBatch.scoring_offsets. simpl GenerateBatch.input_ids.
  simpl GenerateBatch.calls.
  do 4 lift_both.
  rewrite py_index_map.
  by destruct (py_index (GenerateBatch.calls b) (Z.of_nat i)) as [e|c].
Qed.

Lemma token_streamer_uncancel (b : GenerateBatch.t) (eos : Z)
    (input_ids : list (list Z)) (scores : list (list (list Q)))
    (is_last : bool) (st : store) :
  TokenStreamer.log_token
    (TokenStreamer.mk (with_calls b (map uncancel (GenerateBatch.calls b))) false eos)
    input_ids scores is_last st
  = TokenStreamer.log_token (TokenStreamer.mk b false eos) input_ids scores
                            is_last st.
Proof.
  unfold TokenStreamer.log_token. cbv zeta.
  simpl TokenStreamer.batch. simpl TokenStreamer.cancels.
  simpl TokenStreamer.eos_token_id. simpl GenerateBatch.calls.
  rewrite rmapM_map.
  change (fun a : GenerateCall.t => TokenStreamer.kw_top_logprobs (uncancel a))
    with TokenStreamer.kw_top_logprobs.
  do 3 lift_both.
  rewrite !andb_false_r.
  destruct (topk _ _) as [all_logprobs all_indices].
  apply for_each_pointwise. intros i st'.
  do 5 lift_both.
  rewrite py_index_map.
  destruct (py_index (GenerateBatch.calls b) (Z.of_nat i)) as [e|c]; [done|].
  rewrite !bind_lift_ok.
  change (TokenStreamer.kw_top_logprobs (uncancel c))
    with (TokenStreamer.kw_top_logprobs c).
  by lift_both.
Qed.

Lemma run_batch_uncancel (model : LMTPModel) (batch : list GenerateCall.t)
    (st : store) :
  cancellable model = false \/ existsb GenerateCall.kw_score batch = true ->
  Scheduler.run_batch model (map uncancel batch) st
  = Scheduler.run_batch model batch st.
Proof.
  intros Hcase. unfold Scheduler.run_batch.
  rewrite from_calls_uncancel.
  destruct (GenerateBatch.from_calls batch) as [e|b] eqn:Hb; [done|].
  destruct (from_calls_inv batch b Hb) as (_ & _ & _ & _ & Hcalls & His & _).
  rewrite !bind_lift_ok. rewrite <- Hcalls.
  change (GenerateBatch.is_score (with_calls b _)) with (GenerateBatch.is_score b).
  change (generate_args (with_calls b (map uncancel (GenerateBatch.calls b))))
    with (generate_args b).
  destruct (GenerateBatch.is_score b) eqn:Hscore.
  - do 3 lift_both. apply score_streamer_uncancel.
  - assert (cancellable model = false) as ->.
    { destruct Hcase as [Hc|Hs]; [done|]. congruence. }
    assert (forall streamer' streamer,
              (forall ids scs is_last st1,
                 TokenStreamer.log_token streamer' ids scs is_last st1
                 = TokenStreamer.log_token streamer ids scs is_last st1) ->
              run_generate model (generate_args b) streamer' st
              = run_generate model (generate_args b) streamer st) as Hgen.
    { intros streamer' streamer Hlog. unfold run_generate.
      apply mbind_cong_l. apply for_each_pointwise.
      intros step st1. unfold TokenStreamer.call, mbind. by rewrite Hlog. }
    unfold mbind.
    rewrite (Hgen _ (TokenStreamer.mk b false (eos_token_id model)))
      by (intros; apply token_streamer_uncancel).
    destruct (run_generate _ _ _ st) as [st1 [e|result]]; [done|].
    apply token_streamer_uncancel.
Qed.

Lemma process_one_uncancel (model : LMTPModel) (batch : list GenerateCall.t)
    (st : store) :
  cancellable model = false \/ existsb GenerateCall.kw_score batch = true ->
  Scheduler.process_one model (map uncancel batch) st
  = Scheduler.process_one model batch st.
Proof.
  intros Hcase. unfold Scheduler.process_one.
  rewrite (run_batch_uncancel model batch st Hcase).
  destruct (Scheduler.run_batch model batch st) as [st1 [e|[]]]; [|done].
  by rewrite !for_each_map.
Qed.

Lemma same_request_uncancel (batch batch' : list GenerateCall.t) :
  Forall2 same_request batch batch' -> map uncancel batch = map uncancel batch'.
Proof.
  induction 1 as [|c c' batch batch' (Hp & Hb & Hk & Hs & Hq) _ IH]; [done|].
  simpl. rewrite IH. f_equal. unfold uncancel. by rewrite Hp, Hb, Hk, Hs, Hq.
Qed.

(** The [cancelled] flag of a call is read in one place only, by the token
    streamer of a cancellable backend.  For a batch with a score call, and
    for any batch on a backend that is not cancellable, [process_batch]
    treats a batch in the same way whether its calls are cancelled or not:
    two batches that differ in the flags only get the same messages. *)
Theorem cancelled_flag_is_read_by_cancellable_generation_only
    (model : LMTPModel) (batch batch' : list GenerateCall.t) (st : store) :
  Forall2 same_request batch batch' ->
  cancellable model = false \/ existsb GenerateCall.kw_score batch = true ->
  Scheduler.process_one model batch st = Scheduler.process_one model batch' st.
Proof.
  intros Hsame Hcase.
  pose proof (same_request_uncancel batch batch' Hsame) as Heq.
  assert (existsb GenerateCall.kw_score batch'
          = existsb GenerateCall.kw_score batch) as Hscore.
  { transitivity (existsb GenerateCall.kw_score (map uncancel batch)).
    - rewrite Heq. by rewrite existsb_map.
    - by rewrite existsb_map. }
  rewrite <- (process_one_uncancel model batch st Hcase), Heq.
  apply process_one_uncancel. by rewrite Hscore.
Qed.

Lemma cancelled_flag_is_read_by_cancellable_generation_only_witness :
  Forall2 same_request [cancelled_call] [uncancel cancelled_call] /\
  (cancellable plain_model = false \/
   existsb GenerateCall.kw_score [cancelled_call] = true) /\
  Scheduler.process_one plain_model [cancelled_call] ∅
  = Scheduler.process_one plain_model [uncancel cancelled_call] ∅.
Proof.
  assert (Forall2 same_request [cancelled_call] [uncancel cancelled_call]) as H1
    by (repeat constructor).
  assert (cancellable plain_model = false \/
          existsb GenerateCall.kw_score [cancelled_call] = true) as H2
    by (left; reflexivity).
  split; [exact H1|]. split; [exact H2|].
  exact (cancelled_flag_is_read_by_cancellable_generation_only plain_model
           [cancelled_call] [uncancel cancelled_call] ∅ H1 H2).
Defined.

(** ** Closing a session *)

Section Closing.
Variable pickle_dumps_hex : option (dict string pyval) -> string.

Lemma gc_threaded (n : Z) (reg : Scheduler.registry) :
  threaded_wf pickle_dumps_hex reg ->
  Scheduler.gc pickle_dumps_hex n reg = (collected n reg, Ok tt).
Proof.
  intros [Hwf Hth]. unfold collected. destruct (len reg >=? n) eqn:Hlen.
  - apply gc_removes_unused; [done|lia|].
    eapply Forall_impl; [exact Hth|]. by intros kv Hkv _.
  - apply gc_below_threshold. lia.
Qed.

Lemma threaded_wf_set (reg : Scheduler.registry) (s : Scheduler.t) :
  threaded_wf pickle_dumps_hex reg ->
  Scheduler.worker_thread s <> None ->
  threaded_wf pickle_dumps_hex (dict_set (identifier_of pickle_dumps_hex s) s reg).
Proof.
  intros [Hwf Hth] Hs. split; [by apply registry_wf_set|by apply Forall_dict_set].
Qed.

Lemma threaded_wf_collected (n : Z) (reg : Scheduler.registry) :
  threaded_wf pickle_dumps_hex reg -> threaded_wf pickle_dumps_hex (collected n reg).
Proof.
  intros [Hwf Hth]. unfold collected. destruct (len reg >=? n); [|done].
  split; [by apply registry_wf_filter|].
  apply Forall_forall. intros kv [_ Hkv]%list_elem_of_filter.
  rewrite Forall_forall in Hth. by apply Hth.
Qed.

Lemma threaded_wf_get (reg : Scheduler.registry) (key : string * string)
    (s : Scheduler.t) :
  threaded_wf pickle_dumps_hex reg -> dict_get key reg = Some s ->
  identifier_of pickle_dumps_hex s = key /\ Scheduler.worker_thread s <> None.
Proof.
  intros [[_ Hid] Hth] Hget. apply dict_get_elem in Hget.
  rewrite Forall_forall in Hid, Hth. split; [exact (Hid _ Hget)|exact (Hth _ Hget)].
Qed.

Lemma dict_get_filter {K V} `{EqDecision K} (P : K * V -> Prop)
    `{!forall kv, Decision (P kv)} (d : list (K * V)) (k : K) :
  NoDup (map fst d) ->
  dict_get k (filter P d)
  = match dict_get k d with
    | Some v => if decide (P (k, v)) then Some v else None
    | None => None
    end.
Proof.
  induction d as [|[k' v'] d IH]; intros Hnd; [done|].
  cbn [map fst] in Hnd. apply NoDup_cons in Hnd as [Hk Hnd].
  rewrite filter_cons. cbn [dict_get].
  destruct (decide (k' = k)) as [->|Hne].
  - destruct (decide (P (k, v'))) as [HP|HP].
    + cbn [dict_get]. by rewrite decide_True.
    + rewrite IH by done.
      assert (dict_get k d = None) as -> by (by apply dict_get_None). done.
  - destruct (decide (P (k', v'))) as [HP|HP]; [|by apply IH].
    cbn [dict_get]. rewrite decide_False by done. by apply IH.
Qed.

Lemma dict_get_collected (n : Z) (reg : Scheduler.registry)
    (k : string * string) (s : Scheduler.t) :
  threaded_wf pickle_dumps_hex reg ->
  dict_get k (collected n reg) = Some s ->
  dict_get k reg = Some s.
Proof.
  intros [[Hnd _] _]. unfold collected. destruct (len reg >=? n); [|done].
  rewrite dict_get_filter by done.
  destruct (dict_get k reg) as [s'|]; [|done]. by destruct (decide _).
Qed.

Lemma dict_get_collected_used (n : Z) (reg : Scheduler.registry)
    (k : string * string) (s : Scheduler.t) :
  threaded_wf pickle_dumps_hex reg ->
  dict_get k reg = Some s -> ~ unused (k, s) ->
  dict_get k (collected n reg) = Some s.
Proof.
  intros [[Hnd _] _] Hget Hused. unfold collected.
  destruct (len reg >=? n); [|done].
  rewrite dict_get_filter, Hget by done. by rewrite decide_True.
Qed.

(** [instance] without a user, as [close] calls it *)
Lemma instance_for_close (now : Z) (m : string) (args : dict string pyval)
    (only_existing : bool) (reg : Scheduler.registry) :
  threaded_wf pickle_dumps_hex reg ->
  let key := (m, pickle_dumps_hex (Some args)) in
  match dict_get key reg with
  | None =>
      if only_existing then
        exists e,
          Scheduler.instance pickle_dumps_hex now m (Some args) None true false reg
          = (reg, inl e) /\ exn_class e = LMTPCannotLoadModelByPolicy
      else
        let s := Scheduler.touch now None (Scheduler.init now m (Some args) false) in
        (exists s',
           Scheduler.instance pickle_dumps_hex now m (Some args) None false false reg
           = (collected 2 (dict_set key s reg), Ok s')) /\
        threaded_wf pickle_dumps_hex (dict_set key s reg)
  | Some s0 =>
      let s := Scheduler.touch now None s0 in
      (exists s',
         Scheduler.instance pickle_dumps_hex now m (Some args) None only_existing
                            false reg
         = (collected 2 (dict_set key s reg), Ok s')) /\
      threaded_wf pickle_dumps_hex (dict_set key s reg)
  end.
Proof.
  intros Hwf key. destruct (dict_get key reg) as [s0|] eqn:Hget.
  - intros s. destruct (threaded_wf_get reg key s0 Hwf Hget) as [Hid Hth].
    assert (threaded_wf pickle_dumps_hex (dict_set key s reg)) as Hwf1.
    { rewrite <- Hid. by apply (threaded_wf_set reg s). }
    split; [|done]. eexists. unfold Scheduler.instance. fold key.
    rewrite (mbind_ok _ _ reg reg tt) by (cbv beta; by rewrite Hget).
    rewrite (mbind_ok _ _ reg reg s0)
      by (unfold Scheduler.registry_get; by rewrite Hget).
    rewrite (mbind_ok _ _ reg (dict_set key s reg) tt) by reflexivity.
    rewrite (mbind_ok _ _ (dict_set key s reg) (dict_set key s reg)
               (len (dict_set key s reg))) by reflexivity.
    rewrite (mbind_ok _ _ _ _ tt (gc_threaded 2 _ Hwf1)). reflexivity.
  - destruct only_existing.
    + eexists. split; [by apply instance_refuses|done].
    + intros s.
      assert (threaded_wf pickle_dumps_hex (dict_set key s reg)) as Hwf1
        by (by apply (threaded_wf_set reg s)).
      split; [|done]. eexists. unfold Scheduler.instance. fold key.
      rewrite (mbind_ok _ _ reg
                 (dict_set key (Scheduler.init now m (Some args) false) reg) tt)
        by (cbv beta; by rewrite Hget).
      rewrite (mbind_ok _ _ _ _ (Scheduler.init now m (Some args) false))
        by (unfold Scheduler.registry_get; by rewrite dict_get_set_eq).
      rewrite (mbind_ok _ _ _ (dict_set key s reg) tt)
        by (cbv beta; by rewrite dict_set_set).
      rewrite (mbind_ok _ _ (dict_set key s reg) (dict_set key s reg)
                 (len (dict_set key s reg))) by reflexivity.
      rewrite (mbind_ok _ _ _ _ tt (gc_threaded 2 _ Hwf1)). reflexivity.
Qed.

End Closing.

Lemma unregister_removes (now : Z) (s : Scheduler.t) (user : nat) :
  (user ∉ Scheduler.users (Scheduler.unregister now s user)) /\
  Scheduler.model_identifier (Scheduler.unregister now s user)
  = Scheduler.model_identifier s /\
  Scheduler.model_args (Scheduler.unregister now s user) = Scheduler.model_args s /\
  Scheduler.worker_thread (Scheduler.unregister now s user)
  = Scheduler.worker_thread s.
Proof.
  unfold Scheduler.unregister.
  destruct (decide (user ∈ Scheduler.users s)) as [Hin|Hnin]; simpl; [|done].
  split; [|done].
  intros [_ Hn]%elem_of_difference. apply Hn. by apply elem_of_singleton.
Qed.

(** The part of [TokenSession.close] that releases one model, in a registry
    whose schedulers are stored under their own identifier and run a worker
    thread.  It raises nothing.  Afterwards the session is not a user of
    the scheduler of the model any more, if that scheduler is still
    loaded; every other scheduler that has users is still loaded and
    unchanged; and when the session is not [longrunning], no scheduler
    without users is left, unless the session is [static] and the model was
    not loaded, in which case the registry is not touched at all. *)
Theorem close_model_releases
    (pickle_dumps_hex : option (dict string pyval) -> string) (now now' : Z)
    (m : string) (self : TokenSession.t) (reg : Scheduler.registry)
    (args : dict string pyval) :
  threaded_wf pickle_dumps_hex reg ->
  TokenSession.model_args self = Some args ->
  let key := (m, pickle_dumps_hex (Some args)) in
  exists reg',
    TokenSession.close_model pickle_dumps_hex now now' m (self, reg)
    = ((self, reg'), Ok tt) /\
    (forall s, dict_get key reg' = Some s ->
               TokenSession.handle_id self ∉ Scheduler.users s) /\
    (forall k s, k <> key -> dict_get k reg = Some s -> ~ unused (k, s) ->
                 dict_get k reg' = Some s) /\
    (TokenSession.longrunning self = false ->
     (TokenSession.static self = true -> dict_get key reg <> None) ->
     Forall (fun kv => ~ unused kv) reg') /\
    (TokenSession.static self = true -> dict_get key reg = None -> reg' = reg).
Proof.
  intros Hwf Hargs key.
  set (uid := TokenSession.handle_id self).
  set (n := if TokenSession.longrunning self then 2 else 0).
  (* the steps after a successful [instance] *)
  assert (forall s s1,
            threaded_wf pickle_dumps_hex (dict_set key s reg) ->
            Scheduler.instance pickle_dumps_hex now m (Some args) None
                               (TokenSession.static self) false reg
            = (collected 2 (dict_set key s reg), Ok s1) ->
            exists reg',
              TokenSession.close_model pickle_dumps_hex now now' m (self, reg)
              = ((self, reg'), Ok tt) /\
              (forall s', dict_get key reg' = Some s' -> uid ∉ Scheduler.users s') /\
              (forall k s', k <> key -> dict_get k reg = Some s' ->
                            ~ unused (k, s') -> dict_get k reg' = Some s') /\
              (TokenSession.longrunning self = false ->
               Forall (fun kv => ~ unused kv) reg')) as Hloaded.
  { intros s s1 Hwf1 Hinst.
    pose proof (threaded_wf_collected pickle_dumps_hex 2 _ Hwf1) as Hwf2.
    set (reg2 := collected 2 (dict_set key s reg)) in *.
    set (reg3 := match dict_get key reg2 with
                 | Some s2 => dict_set key (Scheduler.unregister now' s2 uid) reg2
                 | None => reg2
                 end).
    assert (threaded_wf pickle_dumps_hex reg3) as Hwf3.
    { unfold reg3. destruct (dict_get key reg2) as [s2|] eqn:Hget2; [|done].
      destruct (threaded_wf_get pickle_dumps_hex reg2 key s2 Hwf2 Hget2)
        as [Hid Hth].
      destruct (unregister_removes now' s2 uid) as (_ & Hm & Ha & Hw).
      assert (identifier_of pickle_dumps_hex (Scheduler.unregister now' s2 uid)
              = key) as <-.
      { rewrite <- Hid. unfold identifier_of. by rewrite Hm, Ha. }
      apply threaded_wf_set; [done|]. by rewrite Hw. }
    exists (collected n reg3). split; [|split; [|split]].
    - unfold TokenSession.close_model. rewrite Hargs. fold key uid.
      rewrite (mbind_ok _ _ reg reg2 s1 Hinst).
      rewrite (mbind_ok _ _ reg2 reg3 tt).
      + assert ((if TokenSession.longrunning self
                 then Scheduler.gc pickle_dumps_hex 2
                 else Scheduler.gc pickle_dumps_hex 0) reg3
                = (collected n reg3, Ok tt)) as ->; [|done].
        unfold n. destruct (TokenSession.longrunning self);
          by apply gc_threaded.
      + unfold TokenSession.scheduler_unregister, reg3.
        by destruct (dict_get key reg2).
    - intros s' Hget'.
      apply (dict_get_collected pickle_dumps_hex) in Hget'; [|done].
      unfold reg3 in Hget'. destruct (dict_get key reg2) as [s2|] eqn:Hget2.
      + rewrite dict_get_set_eq in Hget'. injection Hget' as <-.
        by destruct (unregister_removes now' s2 uid) as (Hnin & _).
      + congruence.
    - intros k s' Hne Hget Hused.
      apply (dict_get_collected_used pickle_dumps_hex); [done| |done].
      assert (dict_get k reg2 = Some s') as Hget2.
      { apply (dict_get_collected_used pickle_dumps_hex); [done| |done].
        rewrite dict_get_set_ne; [done|]. by intros ->. }
      unfold reg3. destruct (dict_get key reg2); [|done].
      rewrite dict_get_set_ne; [done|]. by intros ->.
    - intros Hlr. unfold n, collected. rewrite Hlr.
      assert ((len reg3 >=? 0) = true) as ->
        by (apply Z.geb_le; unfold len; lia).
      apply Forall_forall. by intros kv [Hkv _]%list_elem_of_filter. }
  pose proof (instance_for_close pickle_dumps_hex now m args
                (TokenSession.static self) reg Hwf) as Hinst.
  fold key in Hinst. cbv zeta in Hinst.
  destruct (dict_get key reg) as [s0|] eqn:Hget.
  - destruct Hinst as [[s1 Hinst] Hwf1].
    destruct (Hloaded _ _ Hwf1 Hinst) as (reg' & Hrun & Ha & Hd & Hc).
    exists reg'. split; [done|]. split; [done|]. split; [done|].
    split; [by intros Hlr _; apply Hc|]. intros _ Hnone. discriminate.
  - destruct (TokenSession.static self) eqn:Hstatic.
    + destruct Hinst as (e & Hinst & Hclass).
      exists reg. split; [|split; [|split; [done|split; [|done]]]].
      * unfold TokenSession.close_model. rewrite Hargs, Hstatic. fold key.
        rewrite (mbind_err _ _ reg reg e Hinst). by rewrite decide_True.
      * intros s. rewrite Hget. discriminate.
      * intros _ Hloaded'. by destruct Hloaded'.
    + destruct Hinst as [[s1 Hinst] Hwf1].
      destruct (Hloaded _ _ Hwf1 Hinst) as (reg' & Hrun & Ha & Hd & Hc).
      exists reg'. split; [done|]. split; [done|]. split; [done|].
      split; [by intros Hlr _; apply Hc|]. intros Hst. discriminate.
Qed.

Lemma close_model_releases_witness :
  threaded_wf pickle_key threaded_registry /\
  TokenSession.model_args closing_session = Some [] /\
  let key := ("m1", pickle_key (Some [])) in
  exists reg',
    TokenSession.close_model pickle_key 8 9 "m1" (closing_session, threaded_registry)
    = ((closing_session, reg'), Ok tt) /\
    (forall s, dict_get key reg' = Some s ->
               TokenSession.handle_id closing_session ∉ Scheduler.users s) /\
    (forall k s, k <> key -> dict_get k threaded_registry = Some s ->
                 ~ unused (k, s) -> dict_get k reg' = Some s) /\
    (TokenSession.longrunning closing_session = false ->
     (TokenSession.static closing_session = true ->
      dict_get key threaded_registry <> None) ->
     Forall (fun kv => ~ unused kv) reg') /\
    (TokenSession.static closing_session = true ->
     dict_get key threaded_registry = None -> reg' = threaded_registry).
Proof.
  assert (threaded_wf pickle_key threaded_registry) as H1.
  { split; [split|]; apply (bool_decide_unpack _); vm_compute; reflexivity. }
  split; [exact H1|]. split; [reflexivity|].
  exact (close_model_releases pickle_key 8 9 "m1" closing_session
           threaded_registry [] H1 eq_refl).
Defined.

(** ** A backend that raises *)

Lemma for_each_app {S X} (l1 l2 : list X) (body : X -> St S unit) (st st1 : S) :
  for_each l1 body st = (st1, Ok tt) ->
  for_each (l1 ++ l2) body st = for_each l2 body st1.
Proof.
  revert st. induction l1 as [|x l1 IH]; intros st; simpl.
  - by intros [= <-].
  - unfold mbind. destruct (body x st) as [st2 [e|[]]]; [discriminate|].
    apply IH.
Qed.

(** What the [try] of [process_batch] does when the backend raises *)
Lemma run_batch_backend_raises (model : LMTPModel) (batch : list GenerateCall.t)
    (b : GenerateBatch.t) (st st' : store) (e : pyexn) :
  GenerateBatch.from_calls batch = Ok b ->
  backend_raises model b st st' e ->
  Scheduler.run_batch model batch st = (st', inl e).
Proof.
  intros Hb Hraise. unfold Scheduler.run_batch.
  rewrite Hb, bind_lift_ok. unfold backend_raises in Hraise.
  destruct (GenerateBatch.is_score b).
  - destruct Hraise as (-> & input_ids & attention_mask & Hids & Hmask & He).
    unfold dict_item.
    by rewrite Hids, bind_lift_ok, Hmask, bind_lift_ok, He, bind_lift_err.
  - unfold run_generate. fold (streamer_steps model b).
    destruct Hraise as [[Hsteps He]|Hsteps].
    + apply mbind_err. rewrite (mbind_ok _ _ st st' tt Hsteps).
      unfold lift. by rewrite He.
    + apply mbind_err. by apply mbind_err.
Qed.

(** C7: [process_batch] goes through the batches of the calls it has taken.
    When, for one of them, [model.score] or [model.generate] raises an
    exception [e], every call of that batch gets one error payload with its
    stream id on its queue, after what the batch has put before the
    exception, and no other message is put on any queue:
    "failed to generate tokens '<str(e)>'", or "lmtp.cancelled" when [e] is
    an [InterruptedError].  The loop then goes on with the batches that
    follow, and [process_batch] returns without an exception. *)
Theorem process_batch_confines_failure (self self' : Scheduler.t)
    (model : LMTPModel) (taken : nat)
    (pre rest : list (list GenerateCall.t)) (batch : list GenerateCall.t)
    (b : GenerateBatch.t) (st st0 st' : store) (e : pyexn) :
  Scheduler.batches self taken (max_batch_size model)
  = (self', Ok (pre ++ batch :: rest)) ->
  for_each pre (Scheduler.process_one model) st = (st0, Ok tt) ->
  GenerateBatch.from_calls batch = Ok b ->
  backend_raises model b st0 st' e ->
  exists st'' st_end,
    (forall q, st'' !!! q = st' !!! q ++ error_messages batch (failure_reason e) q) /\
    (exn_class e <> InterruptedError ->
       failure_reason e = "failed to generate tokens '" +:+ exn_msg e +:+ "'") /\
    (exn_class e = InterruptedError -> failure_reason e = "lmtp.cancelled") /\
    for_each rest (Scheduler.process_one model) st'' = (st_end, Ok tt) /\
    Scheduler.process_batch self model taken st = (self', (st_end, Ok tt)).
Proof.
  intros Hbatches Hpre Hb Hraise.
  pose proof (run_batch_backend_raises model batch b st0 st' e Hb Hraise) as Hrun.
  destruct (error_all batch (failure_reason e) st') as (st'' & Herr & Hst'').
  assert (Scheduler.process_one model batch st0 = (st'', Ok tt)) as Hone.
  { unfold Scheduler.process_one. rewrite Hrun.
    unfold failure_reason in Herr.
    by destruct (decide (exn_class e = InterruptedError)). }
  destruct (process_all_ok model rest st'') as [st_end Hrest].
  exists st'', st_end. split; [done|].
  unfold failure_reason. split; [|split; [|split; [done|]]].
  - intros Hne. by rewrite decide_False.
  - intros Heq. by rewrite decide_True.
  - unfold Scheduler.process_batch. rewrite Hbatches, bind_lift_ok.
    rewrite (for_each_app _ _ _ _ _ Hpre). simpl.
    by rewrite (mbind_ok _ _ st0 st'' tt Hone), Hrest.
Qed.

Lemma process_batch_confines_failure_witness :
  Scheduler.batches busy_scheduler 3 (max_batch_size failing_model)
  = (idle_scheduler, Ok ([] ++ [call_top1; call_top3] :: [[score_call_3]])) /\
  for_each [] (Scheduler.process_one failing_model) ∅ = (∅, Ok tt) /\
  GenerateBatch.from_calls [call_top1; call_top3] = Ok mixed_batch /\
  backend_raises failing_model mixed_batch ∅ ∅ boom /\
  exists st'' st_end,
    (forall q, st'' !!! q
               = (∅ : store) !!! q
                 ++ error_messages [call_top1; call_top3] (failure_reason boom) q) /\
    (exn_class boom <> InterruptedError ->
       failure_reason boom = "failed to generate tokens '" +:+ exn_msg boom +:+ "'") /\
    (exn_class boom = InterruptedError -> failure_reason boom = "lmtp.cancelled") /\
    for_each [[score_call_3]] (Scheduler.process_one failing_model) st''
    = (st_end, Ok tt) /\
    Scheduler.process_batch busy_scheduler failing_model 3 ∅
    = (idle_scheduler, (st_end, Ok tt)).
Proof.
  assert (Scheduler.batches busy_scheduler 3 (max_batch_size failing_model)
          = (idle_scheduler, Ok ([] ++ [call_top1; call_top3] :: [[score_call_3]])))
    as H1 by (vm_compute; reflexivity).
  assert (for_each [] (Scheduler.process_one failing_model) ∅ = (∅ : store, Ok tt))
    as H2 by reflexivity.
  assert (GenerateBatch.from_calls [call_top1; call_top3] = Ok mixed_batch) as H3
    by (vm_compute; reflexivity).
  assert (backend_raises failing_model mixed_batch ∅ ∅ boom) as H4.
  { unfold backend_raises.
    replace (GenerateBatch.is_score mixed_batch) with false
      by (vm_compute; reflexivity).
    left. split; reflexivity. }
  split; [exact H1|]. split; [exact H2|]. split; [exact H3|]. split; [exact H4|].
  exact (process_batch_confines_failure busy_scheduler idle_scheduler failing_model
           3 [] [[score_call_3]] [call_top1; call_top3] mixed_batch ∅ ∅ ∅ boom
           H1 H2 H3 H4).
Defined.
